(** * Bus-Reports-Exporter: the duty report pipeline of [main.py]

    A shallow embedding of the four stages of [main.py] (time codec, duty
    window extractor, stop name annotator, break detector and aggregator)
    and the properties of its specification.

    Modelling conventions.
    - A JSON object read by [json.load] is a Python [dict] with string
      keys: an event, a duty and a stop are [gmap string value].  The
      fields the program reads hold JSON scalars ([value]); JSON floats,
      arrays and objects in those fields are outside the model.
    - Text is [string]: a sequence of code points below 256.
    - Python exceptions are explicit: a computation that may raise has
      type [result A].  [d[k]] raises [KeyError], [d.get(k, dflt)] does not.
    - A [timedelta] is its whole number of seconds, with the range check
      of the Python class (at most 999999999 days either way) written out.
    - A pandas [DataFrame] is a list of column names and a list of rows;
      a row maps column names to cells and a missing entry is the null
      cell.  Cells keep the Python object they were given: the dtype
      conversions of pandas are outside the model. *)

From Stdlib Require Import ZArith String Ascii List Bool Lia.
From stdpp Require Import base option list gmap strings.

Local Open Scope string_scope.
Local Open Scope Z_scope.
Local Open Scope list_scope.

(** ** Python values and exceptions *)

(** The JSON scalars a field of the input document may hold. *)
Inductive value :=
| VNone
| VBool (b : bool)
| VInt (z : Z)
| VStr (s : string).

Inductive exn :=
| KeyError (k : string)
| ValueError
| TypeError
| AttributeError
| IndexError
| OverflowError.

Inductive result (A : Type) :=
| Ok (a : A)
| Raise (e : exn).
Arguments Ok {A} a.
Arguments Raise {A} e.

#[global] Instance result_ret : MRet result := @Ok.
#[global] Instance result_bind : MBind result := fun A B f m =>
  match m with
  | Ok a => f a
  | Raise e => Raise e
  end.
#[global] Instance result_fmap : FMap result := fun A B f m =>
  match m with
  | Ok a => Ok (f a)
  | Raise e => Raise e
  end.

(** [try: body except Exception: handler]. *)
Definition try_except {A} (body : result A) (handler : exn -> result A) : result A :=
  match body with
  | Ok a => Ok a
  | Raise e => handler e
  end.

(** A [for x in xs:] loop whose body updates the loop state and may
    raise. *)
Fixpoint for_loop {A St : Type} (xs : list A) (body : St -> A -> result St) (s : St) : result St :=
  match xs with
  | [] => Ok s
  | x :: xs' => s' ← body s x; for_loop xs' body s'
  end.

Definition num_of_bool (b : bool) : Z := if b then 1 else 0.

(** Python [a == b] on scalars: [bool] is a subtype of [int]. *)
Definition py_eq (a b : value) : bool :=
  match a, b with
  | VNone, VNone => true
  | VStr s, VStr t => String.eqb s t
  | VInt x, VInt y => x =? y
  | VInt x, VBool c => x =? num_of_bool c
  | VBool c, VInt y => num_of_bool c =? y
  | VBool c, VBool d => Bool.eqb c d
  | _, _ => false
  end.

(** [d[k]] and [d.get(k, dflt)] on a dict with string keys. *)
Definition getitem (d : gmap string value) (k : string) : result value :=
  match d !! k with
  | Some v => Ok v
  | None => Raise (KeyError k)
  end.

Definition get (d : gmap string value) (k : string) (dflt : value) : value :=
  default dflt (d !! k).

(** ** Text: [str.split], [int(str)], decimal rendering *)

(** [s.split(sep)] for a one-character separator. *)
Fixpoint split (sep : ascii) (s : string) : list string :=
  match s with
  | EmptyString => [EmptyString]
  | String c s' =>
      if Ascii.eqb c sep then EmptyString :: split sep s'
      else match split sep s' with
           | p :: ps => String c p :: ps
           | [] => [String c EmptyString]
           end
  end.

(** The characters [int()] skips around a literal: the ASCII white space
    and, below 256, the two other Unicode spaces U+0085 and U+00A0. *)
Definition is_space (c : ascii) : bool :=
  let n := nat_of_ascii c in
  ((9 <=? n) && (n <=? 13) || (n =? 32) || (n =? 133) || (n =? 160))%nat.

Definition digit_val (c : ascii) : option Z :=
  let n := nat_of_ascii c in
  if ((48 <=? n) && (n <=? 57))%nat then Some (Z.of_nat n - 48) else None.

Fixpoint lstrip (l : list ascii) : list ascii :=
  match l with
  | c :: l' => if is_space c then lstrip l' else l
  | [] => []
  end.

Definition strip (l : list ascii) : list ascii := rev (lstrip (rev (lstrip l))).

(** Decimal digits, single underscores allowed between two digits.
    [after_digit] tells whether the previous character was a digit. *)
Fixpoint int_digits (l : list ascii) (acc : Z) (after_digit : bool) : option Z :=
  match l with
  | [] => if after_digit then Some acc else None
  | c :: l' =>
      match digit_val c with
      | Some d => int_digits l' (10 * acc + d) true
      | None =>
          if Ascii.eqb c "_" && after_digit then int_digits l' acc false
          else None
      end
  end.

(** [int(s)] for a [str], base 10; [None] stands for [ValueError].  The
    cap on the number of digits that recent interpreters put on [int()]
    is not modelled. *)
Definition int_of_string (s : string) : option Z :=
  match strip (list_ascii_of_string s) with
  | c :: l =>
      if Ascii.eqb c "-" then Z.opp <$> int_digits l 0 false
      else if Ascii.eqb c "+" then int_digits l 0 false
      else int_digits (c :: l) 0 false
  | [] => None
  end.

(** [int(x)]. *)
Definition py_int (v : value) : result Z :=
  match v with
  | VInt z => Ok z
  | VBool b => Ok (num_of_bool b)
  | VStr s => match int_of_string s with
              | Some z => Ok z
              | None => Raise ValueError
              end
  | VNone => Raise TypeError
  end.

Definition digit_char (d : Z) : ascii := ascii_of_nat (48 + Z.to_nat d).

Fixpoint dec_digits (fuel : nat) (n : Z) (acc : list ascii) : list ascii :=
  match fuel with
  | O => acc
  | S fuel' =>
      let acc' := digit_char (n mod 10) :: acc in
      if n <? 10 then acc' else dec_digits fuel' (n / 10) acc'
  end.

(** The decimal digits of [n >= 0]; [S (log2 n)] digits always suffice. *)
Definition digits_of (n : Z) : list ascii :=
  dec_digits (S (Z.to_nat (Z.log2 n))) n [].

(** [str(z)] for an [int]. *)
Definition str_of_Z (z : Z) : string :=
  if z <? 0 then String "-" (string_of_list_ascii (digits_of (- z)))
  else string_of_list_ascii (digits_of z).

(** [f"{z:02}"]: zero padded to width 2, the sign counting in the width. *)
Definition fmt02 (z : Z) : string :=
  let s := str_of_Z z in
  if (String.length s <? 2)%nat then String "0" s else s.

(** ** [datetime.timedelta] *)

Record timedelta := Timedelta { total_seconds : Z }.

Definition max_days : Z := 999999999.

(** Every constructor and operator of the class normalises to days,
    seconds and microseconds and raises when the days leave the range. *)
Definition timedelta_of_seconds (s : Z) : result timedelta :=
  let days := s / 86400 in
  if (- max_days <=? days) && (days <=? max_days) then Ok (Timedelta s)
  else Raise OverflowError.

(** [timedelta(days=d, hours=h, minutes=m)] on [int] arguments. *)
Definition timedelta_new (days hours minutes : Z) : result timedelta :=
  timedelta_of_seconds (days * 86400 + hours * 3600 + minutes * 60).

(** [timedelta(0)]. *)
Definition timedelta0 : timedelta := Timedelta 0.

(** [a - b]. *)
Definition timedelta_sub (a b : timedelta) : result timedelta :=
  timedelta_of_seconds (total_seconds a - total_seconds b).

(** ** Time codec *)

(** Unpacking [a, b = xs]. *)
Definition unpack2 {A} (xs : list A) : result (A * A) :=
  match xs with
  | [a; b] => Ok (a, b)
  | _ => Raise ValueError
  end.

(** [x.split(sep)]: only [str] has the method. *)
Definition py_split (sep : ascii) (v : value) : result (list string) :=
  match v with
  | VStr s => Ok (split sep s)
  | _ => Raise AttributeError
  end.

Definition int_of_text (s : string) : result Z := py_int (VStr s).

Fixpoint map_result {A B} (f : A -> result B) (xs : list A) : result (list B) :=
  match xs with
  | [] => Ok []
  | x :: xs' => y ← f x; ys ← map_result f xs'; Ok (y :: ys)
  end.

(** The body of the [try] of [convert_time].  [map(int, ...)] is consumed
    by the unpacking, so a failing [int] and a wrong number of parts both
    give [ValueError]. *)
Definition convert_time_try (day_offset_time : value) : result timedelta :=
  parts ← py_split "." day_offset_time;
  '(day_offset, time_str) ← unpack2 parts;
  ints ← map_result int_of_text (split ":" time_str);
  '(hours, minutes) ← unpack2 ints;
  days ← int_of_text day_offset;
  timedelta_new days hours minutes.

(** [convert_time]: every exception of the body is caught (the handler
    prints a diagnostic) and replaced by [timedelta(0)]. *)
Definition convert_time (day_offset_time : value) : result timedelta :=
  try_except (convert_time_try day_offset_time) (fun _ => Ok timedelta0).

(** [timedelta_to_time]: [int(td.total_seconds())] is the whole number of
    seconds; [divmod] is the floor division of [Z]. *)
Definition timedelta_to_time (td : timedelta) : string :=
  let total_seconds := total_seconds td in
  let '(hours, remainder) := (total_seconds / 3600, total_seconds mod 3600) in
  let minutes := remainder / 60 in
  fmt02 hours +:+ ":" +:+ fmt02 minutes.

Definition time_text (v : value) : result string :=
  timedelta_to_time <$> convert_time v.

(** ** The input document *)

Abbreviation event := (gmap string value).
Abbreviation duty := (gmap string value).
Abbreviation stop := (gmap string value).

(** A vehicle object; [None] is a vehicle without the key
    ['vehicle_events']. *)
Record vehicle := Vehicle { vehicle_events : option (list event) }.

Definition vehicle_getitem_events (v : vehicle) : result (list event) :=
  match vehicle_events v with
  | Some evs => Ok evs
  | None => Raise (KeyError "vehicle_events")
  end.

(** ** Data frames *)

(** What a cell of a frame holds: nothing (NaN / NA), a Python scalar, or
    the float of a break duration.  Every duration this program computes
    is a whole number of minutes (see [convert_time_whole_minutes]), so
    the float [total_seconds() / 60] is exactly the integer [m] of
    [Minutes m]. *)
Inductive cell :=
| NA
| Obj (v : value)
| Minutes (m : Z).

Abbreviation row := (gmap string cell).

Record DataFrame := mkDataFrame { columns : list string; rows : list row }.

(** [row[c]] for a column of the frame. *)
Definition row_get (r : row) (c : string) : cell := default NA (r !! c).

(** [pd.DataFrame(records)] for records that all carry the keys [keys],
    inserted in this order: no record, no column.  The cells are taken as
    they are, which is what pandas does for records that hold no [None];
    a [None] it stores as NaN (see [duty_keyed]). *)
Definition pd_DataFrame (keys : list string) (records : list row) : DataFrame :=
  match records with
  | [] => mkDataFrame [] []
  | _ => mkDataFrame keys records
  end.

(** [df.empty]. *)
Definition df_empty (df : DataFrame) : bool :=
  match columns df, rows df with
  | [], _ | _, [] => true
  | _, _ => false
  end.

(** [c in df.columns]. *)
Definition has_column (df : DataFrame) (c : string) : bool :=
  bool_decide (c ∈ columns df).

Definition add_column (cols : list string) (c : string) : list string :=
  if bool_decide (c ∈ cols) then cols else cols ++ [c].

(** [df.loc[index, c] = x] with the default integer index: the column is
    created when the frame does not have it.  This is the assignment of a
    value the column can hold, as a text into a new column or a column of
    texts is (see [stop_named]); pandas refuses with [TypeError] a value
    that does not fit the type of the column. *)
Definition loc_set (df : DataFrame) (index : nat) (c : string) (x : cell) : DataFrame :=
  mkDataFrame (add_column (columns df) c) (alter (<[c := x]>) index (rows df)).

(** [df.iterrows()]: the rows of the frame with their index. *)
Definition iterrows (df : DataFrame) : list (nat * row) :=
  zip (seq 0 (length (rows df))) (rows df).

(** [row._1] of [df.itertuples()]: the field of the first column.  The
    frames of this program start with the column ['Duty ID'], which is no
    Python identifier and so is exposed under its position.  On a frame
    whose first column is named by an identifier the tuple has no field
    [_1] and the access raises [AttributeError]: the definition stands
    for the frames that start with ['Duty ID']. *)
Definition itertuples_1 (df : DataFrame) (r : row) : cell :=
  match columns df with
  | c :: _ => row_get r c
  | [] => NA
  end.

(** Equality of merge keys: as [==] on objects, nulls matching nulls. *)
Definition key_eq (a b : cell) : bool :=
  match a, b with
  | NA, NA => true
  | Obj v, Obj w => py_eq v w
  | Minutes m, Minutes n => m =? n
  | Obj (VInt z), Minutes m | Minutes m, Obj (VInt z) => z =? m
  | Obj (VBool c), Minutes m | Minutes m, Obj (VBool c) => num_of_bool c =? m
  | _, _ => false
  end.

(** The rows a left row yields in [pd.merge(left, right, on=key,
    how='left')]: one per right row with an equal key, in the order of
    [right], taking the right row's other columns; the left row alone
    (right columns null) when there is none. *)
Definition merge_row (key : string) (right : list row) (l : row) : list row :=
  match filter (fun r => key_eq (row_get l key) (row_get r key) = true) right with
  | [] => [l]
  | matches => (fun r => l ∪ delete key r) <$> matches
  end.

(** [pd.merge(left, right, on=key, how='left')], for frames that share
    no other column than [key]; a column the two share besides [key]
    pandas renames on both sides, with the suffixes [_x] and [_y]. *)
Definition merge_left (left right : DataFrame) (key : string) : DataFrame :=
  mkDataFrame
    (columns left ++ filter (fun c => c ≠ key) (columns right))
    (rows left ≫= merge_row key right.(rows)).

(** ** The join of events and duties *)

(** [event['duty_id'] == duty_id], where [duty_id] is the object held by
    a cell (NaN is equal to nothing). *)
Definition eq_cell (v : value) (c : cell) : bool :=
  match c with
  | Obj w => py_eq v w
  | Minutes m =>
      match v with
      | VInt z => z =? m
      | VBool b => num_of_bool b =? m
      | _ => false
      end
  | NA => false
  end.

(** [[event for event in events if event['duty_id'] == duty_id]]. *)
Definition select_events (duty_id : cell) (events : list event) : result (list event) :=
  for_loop events (fun acc event =>
    d ← getitem event "duty_id";
    Ok (if eq_cell d duty_id then acc ++ [event] else acc)) [].

(** [[event for vehicle in vehicles for event in vehicle['vehicle_events']
      if event['duty_id'] == duty_id]]. *)
Definition matching_events (duty_id : cell) (vehicles : list vehicle) : result (list event) :=
  for_loop vehicles (fun acc vehicle =>
    events ← vehicle_getitem_events vehicle;
    selected ← select_events duty_id events;
    Ok (acc ++ selected)) [].

(** ** Step 1: duty start and end times *)

(** [sorted(xs, key=...)] is stable: an element goes before the first
    sorted element whose key is not smaller. *)
Fixpoint insert_by_key {A} (x : Z * A) (l : list (Z * A)) : list (Z * A) :=
  match l with
  | [] => [x]
  | y :: l' => if x.1 <=? y.1 then x :: l else y :: insert_by_key x l'
  end.

Definition sort_by_key {A} (l : list (Z * A)) : list (Z * A) :=
  foldr insert_by_key [] l.

(** [lambda ev: int(ev['vehicle_event_sequence'])]. *)
Definition sequence_key (ev : event) : result Z :=
  v ← getitem ev "vehicle_event_sequence"; py_int v.

Definition sorted (events : list event) (key : event -> result Z) : result (list event) :=
  keys ← map_result key events;
  Ok ((sort_by_key (zip keys events)).*2).

(** [xs[0]] and [xs[-1]]. *)
Definition first_item {A} (xs : list A) : result A :=
  match head xs with
  | Some x => Ok x
  | None => Raise IndexError
  end.

Definition last_item {A} (xs : list A) : result A :=
  match last xs with
  | Some x => Ok x
  | None => Raise IndexError
  end.

Definition duty_times_columns : list string := ["Duty ID"; "Start time"; "End time"].

Definition duty_times_row (duty_id : value) (start_text end_text : string) : row :=
  <["Duty ID" := Obj duty_id]>
    (<["Start time" := Obj (VStr start_text)]>
       (<["End time" := Obj (VStr end_text)]> ∅)).

(** One turn of the loop over the duties. *)
Definition duty_times_step (vehicles : list vehicle) (report : list row) (duty : duty)
  : result (list row) :=
  duty_id ← getitem duty "duty_id";
  matching_events ← matching_events (Obj duty_id) vehicles;
  match matching_events with
  | [] => Ok report
  | _ =>
      sorted_events ← sorted matching_events sequence_key;
      start_event ← first_item sorted_events;
      end_event ← last_item sorted_events;
      start_time ← convert_time (get start_event "start_time" (VStr "0.00:00"));
      end_time ← convert_time (get end_event "end_time" (VStr "0.00:00"));
      Ok (report ++ [duty_times_row duty_id (timedelta_to_time start_time)
                                           (timedelta_to_time end_time)])
  end.

Definition generate_duty_times_report (duties : list duty) (vehicles : list vehicle)
  : result DataFrame :=
  report ← for_loop duties (duty_times_step vehicles) [];
  Ok (pd_DataFrame duty_times_columns report).

(** ** Step 2: start and end stop names *)

(** A Python dict keyed by scalars: keys are compared with [==]. *)
Abbreviation pydict := (list (value * value)).

Fixpoint dict_set (d : pydict) (k v : value) : pydict :=
  match d with
  | [] => [(k, v)]
  | (k', v') :: d' =>
      if py_eq k' k then (k', v) :: d' else (k', v') :: dict_set d' k v
  end.

Fixpoint dict_get (d : pydict) (k dflt : value) : value :=
  match d with
  | [] => dflt
  | (k', v') :: d' => if py_eq k' k then v' else dict_get d' k dflt
  end.

(** [{stop['stop_id']: stop['stop_name'] for stop in stops}]. *)
Definition build_stop_map (stops : list stop) : result pydict :=
  for_loop stops (fun stop_map stop =>
    k ← getitem stop "stop_id";
    v ← getitem stop "stop_name";
    Ok (dict_set stop_map k v)) [].

(** [stop_map.get(event.get(field, 'Unknown'), 'Unknown')]. *)
Definition stop_name (stop_map : pydict) (ev : event) (field : string) : value :=
  dict_get stop_map (get ev field (VStr "Unknown")) (VStr "Unknown").

Definition stop_names_step (vehicles : list vehicle) (stop_map : pydict)
    (report : DataFrame) (indexed : nat * row) : result DataFrame :=
  let '(index, r) := indexed in
  let duty_id := row_get r "Duty ID" in
  duty_events ← matching_events duty_id vehicles;
  match duty_events with
  | [] => Ok report
  | _ =>
      start_event ← first_item duty_events;
      end_event ← last_item duty_events;
      let start_stop := stop_name stop_map start_event "origin_stop_id" in
      let end_stop := stop_name stop_map end_event "destination_stop_id" in
      let report := loc_set report index "First service trip start stop" (Obj start_stop) in
      Ok (loc_set report index "Last service trip end stop" (Obj end_stop))
  end.

Definition add_stop_names_to_report (report : DataFrame) (vehicles : list vehicle)
    (stops : list stop) : result DataFrame :=
  stop_map ← build_stop_map stops;
  if negb (has_column report "Duty ID") then Ok report
  else for_loop (iterrows report) (stop_names_step vehicles stop_map) report.

(** ** Step 3: breaks *)

Definition break_columns : list string :=
  ["Duty ID"; "Break duration (minutes)"; "Break start time"; "Break stop name"].

Definition break_record (duty_id : cell) (break_duration : Z) (start_text : string)
    (stop : value) : row :=
  <["Duty ID" := duty_id]>
    (<["Break duration (minutes)" := Minutes break_duration]>
       (<["Break start time" := Obj (VStr start_text)]>
          (<["Break stop name" := Obj stop]> ∅))).

(** [xs[i]]. *)
Definition item {A} (xs : list A) (i : nat) : result A :=
  match xs !! i with
  | Some x => Ok x
  | None => Raise IndexError
  end.

(** One turn of the loop over [range(len(duty_events) - 1)]. *)
Definition breaks_step (stop_map : pydict) (duty_id : cell) (duty_events : list event)
    (breaks_data : list row) (i : nat) : result (list row) :=
  start_event ← item duty_events i;
  end_event ← item duty_events (i + 1)%nat;
  if py_eq (get start_event "vehicle_event_type" VNone) (VStr "Break")
     && py_eq (get end_event "vehicle_event_type" VNone) (VStr "Break End")
  then
    end_start ← getitem end_event "start_time";
    t1 ← convert_time end_start;
    start_end ← getitem start_event "end_time";
    t0 ← convert_time start_end;
    delta ← timedelta_sub t1 t0;
    let break_duration := total_seconds delta / 60 in
    if 15 <? break_duration then
      start_start ← getitem start_event "start_time";
      t ← convert_time start_start;
      Ok (breaks_data ++
            [break_record duty_id break_duration (timedelta_to_time t)
               (stop_name stop_map start_event "origin_stop_id")])
    else Ok breaks_data
  else Ok breaks_data.

(** The scan of one duty's events, appending to [breaks_data]. *)
Definition scan_breaks (stop_map : pydict) (duty_id : cell) (duty_events : list event)
    (breaks_data : list row) : result (list row) :=
  for_loop (seq 0 (length duty_events - 1))
    (breaks_step stop_map duty_id duty_events) breaks_data.

Definition breaks_row_step (vehicles : list vehicle) (stop_map : pydict)
    (report : DataFrame) (breaks_data : list row) (r : row) : result (list row) :=
  let duty_id := itertuples_1 report r in
  duty_events ← matching_events duty_id vehicles;
  scan_breaks stop_map duty_id duty_events breaks_data.

(** Lines 139-149: the frame of the break records and its merge onto the
    report. *)
Definition merge_breaks (report : DataFrame) (breaks_data : list row) : DataFrame :=
  let breaks_df := pd_DataFrame break_columns breaks_data in
  let breaks_df :=
    if df_empty breaks_df then mkDataFrame break_columns (rows breaks_df)
    else breaks_df in
  merge_left report breaks_df "Duty ID".

Definition add_breaks_to_report (report : DataFrame) (vehicles : list vehicle)
    (stops : list stop) : result DataFrame :=
  stop_map ← build_stop_map stops;
  if negb (has_column report "Duty ID") then Ok report
  else
    breaks_data ← for_loop (rows report) (breaks_row_step vehicles stop_map report) [];
    Ok (merge_breaks report breaks_data).

(** The three steps of the main block, in sequence. *)
Definition break_report (duties : list duty) (vehicles : list vehicle) (stops : list stop)
  : result DataFrame :=
  duty_times_report ← generate_duty_times_report duties vehicles;
  start_end_names_report ← add_stop_names_to_report duty_times_report vehicles stops;
  add_breaks_to_report start_end_names_report vehicles stops.

(** ** Notions of the specification *)

(** An event belongs to a duty when its ['duty_id'] equals the duty's. *)
Definition event_matches (duty_id : cell) (ev : event) : bool :=
  match ev !! "duty_id" with
  | Some d => eq_cell d duty_id
  | None => false
  end.

Definition events_of (v : vehicle) : list event := default [] (vehicle_events v).

(** The matched events of a duty in raw join order: vehicles in input
    order, the events of a vehicle in input order. *)
Definition raw_join (duty_id : cell) (vehicles : list vehicle) : list event :=
  v ← vehicles; filter (fun ev => event_matches duty_id ev = true) (events_of v).

(** Some event of some vehicle belongs to the duty. *)
Definition has_matching_event (vehicles : list vehicle) (duty_id : value) : bool :=
  existsb (fun v => existsb (event_matches (Obj duty_id)) (events_of v)) vehicles.

(** A vehicle the join can read: it has its events and each event has
    the key ['duty_id']. *)
Definition vehicle_ok (v : vehicle) : Prop :=
  exists evs, vehicle_events v = Some evs /\
    Forall (fun ev : event => is_Some (ev !! "duty_id")) evs.

(** An input on which step 1 raises nothing: duties and events carry
    their identifying fields and every event has a sequence number that
    [int()] accepts. *)
Definition extractor_input_ok (duties : list duty) (vehicles : list vehicle) : Prop :=
  Forall (fun d : duty => is_Some (d !! "duty_id")) duties /\
  Forall vehicle_ok vehicles /\
  Forall (fun v => Forall (fun ev => exists z, sequence_key ev = Ok z) (events_of v)) vehicles.

(** The compact time text, in the words of the specification: one dot,
    then one colon, around three integers. *)
Fixpoint count_char (c : ascii) (s : string) : nat :=
  match s with
  | EmptyString => O
  | String x s' => ((if Ascii.eqb x c then 1 else 0) + count_char c s')%nat
  end.

(** The text in front of the first [c], and the text behind it. *)
Fixpoint before (c : ascii) (s : string) : string :=
  match s with
  | EmptyString => EmptyString
  | String x s' => if Ascii.eqb x c then EmptyString else String x (before c s')
  end.

Fixpoint after (c : ascii) (s : string) : string :=
  match s with
  | EmptyString => EmptyString
  | String x s' => if Ascii.eqb x c then s' else after c s'
  end.

Definition is_integer_text (s : string) : bool :=
  match int_of_string s with
  | Some _ => true
  | None => false
  end.

(** Malformed: a wrong number of separators, or a component that is no
    integer. *)
Definition malformed (s : string) : bool :=
  let time_str := after "." s in
  negb (count_char "." s =? 1)%nat
  || negb (count_char ":" time_str =? 1)%nat
  || negb (is_integer_text (before "." s))
  || negb (is_integer_text (before ":" time_str))
  || negb (is_integer_text (after ":" time_str)).

(** The text [f"{d}.{h:02}:{m:02}"]. *)
Definition compact_time_text (d h m : Z) : string :=
  str_of_Z d +:+ "." +:+ fmt02 h +:+ ":" +:+ fmt02 m.

(** The value of a list of decimal digits read after [acc]. *)
Definition dec_value (l : list ascii) (acc : Z) : Z :=
  fold_left (fun a c => 10 * a + default 0 (digit_val c)) l acc.

Definition is_digit (c : ascii) : Prop := is_Some (digit_val c).

(** [s] is the non-empty run of decimal digits [l], which reads as [n]. *)
Definition digit_text (s : string) (n : Z) : Prop :=
  exists l, s = string_of_list_ascii l /\ Forall is_digit l /\ l <> [] /\
            dec_value l 0 = n.

(** The event carries the type tag [t]. *)
Definition has_type (ev : event) (t : string) : bool :=
  py_eq (get ev "vehicle_event_type" VNone) (VStr t).

(** [parse(end_event.start_time) - parse(start_event.end_time)] in
    minutes, both fields read without default. *)
Definition gap_minutes (start_event end_event : event) : result Z :=
  a ← getitem end_event "start_time";
  t1 ← convert_time a;
  b ← getitem start_event "end_time";
  t0 ← convert_time b;
  delta ← timedelta_sub t1 t0;
  Ok (total_seconds delta / 60).

(** [parse(start_event.start_time)], read without default. *)
Definition break_start (start_event : event) : result timedelta :=
  a ← getitem start_event "start_time"; convert_time a.

(** Index [i] holds a qualifying break: a Break followed by a Break End
    more than 15 minutes later. *)
Definition qualifies (events : list event) (i : nat) : bool :=
  match events !! i, events !! (i + 1)%nat with
  | Some e0, Some e1 =>
      has_type e0 "Break" && has_type e1 "Break End" &&
      match gap_minutes e0 e1 with
      | Ok m => 15 <? m
      | Raise _ => false
      end
  | _, _ => false
  end.

(** [record] is the break record of index [i]. *)
Definition break_record_at (stop_map : pydict) (duty_id : cell) (events : list event)
    (i : nat) (record : row) : Prop :=
  exists e0 e1 m t,
    events !! i = Some e0 /\ events !! (i + 1)%nat = Some e1 /\
    gap_minutes e0 e1 = Ok m /\ break_start e0 = Ok t /\
    record = break_record duty_id m (timedelta_to_time t)
               (stop_name stop_map e0 "origin_stop_id").

(** A field the scan reads from a matched pair is absent: the start of
    the Break End, the end of the Break, or, for a break longer than 15
    minutes, the start of the Break. *)
Definition missing_break_field (e0 e1 : event) : Prop :=
  e1 !! "start_time" = None \/
  e0 !! "end_time" = None \/
  (exists m, gap_minutes e0 e1 = Ok m /\ 15 < m /\ e0 !! "start_time" = None).

(** The kept breaks of a report row: the break records whose Duty ID
    equals the row's, wherever they stand in [breaks_data]. *)
Definition kept_breaks (r : row) (breaks_data : list row) : list row :=
  filter (fun b => key_eq (row_get r "Duty ID") (row_get b "Duty ID") = true)
    breaks_data.

Definition break_field_columns : list string :=
  ["Break duration (minutes)"; "Break start time"; "Break stop name"].

(** A stop the stop map can be built from. *)
Definition stop_ok (s : stop) : Prop :=
  is_Some (s !! "stop_id") /\ is_Some (s !! "stop_name").

(** A stop with an id whose name is a text, as the names of a stops
    collection are.  The names go into columns of a frame, next to the
    text ['Unknown']. *)
Definition stop_named (s : stop) : Prop :=
  is_Some (s !! "stop_id") /\ exists name, s !! "stop_name" = Some (VStr name).

(** A duty whose id is a text, as the ids of a duties collection are.
    The ids go into the Duty ID column of the report of step 1, which
    keeps texts as they are, and are the keys of the merge of step 3. *)
Definition duty_keyed (d : duty) : Prop :=
  forall id, d !! "duty_id" = Some id -> exists s, id = VStr s.

(** A report whose Duty ID cells are texts. *)
Definition keyed_by_text (report : DataFrame) : Prop :=
  Forall (fun r : row => exists s, r !! "Duty ID" = Some (Obj (VStr s))) (rows report).

(** No sequence number given as a text is longer than the 4300 digits
    [int()] reads in recent interpreters. *)
Definition sequence_texts_short (vehicles : list vehicle) : Prop :=
  Forall (fun v =>
    Forall (fun ev : event =>
      forall s, ev !! "vehicle_event_sequence" = Some (VStr s) ->
        (String.length s <= 4300)%nat) (events_of v)) vehicles.

(** The row of the annotated report: the start stop of the first and the
    end stop of the last matched event in raw join order; the row itself
    when the duty has no matched event. *)
Definition annotate_row (stop_map : pydict) (vehicles : list vehicle) (r : row) : row :=
  let events := raw_join (row_get r "Duty ID") vehicles in
  match head events, last events with
  | Some start_event, Some end_event =>
      <["Last service trip end stop" :=
          Obj (stop_name stop_map end_event "destination_stop_id")]>
        (<["First service trip start stop" :=
             Obj (stop_name stop_map start_event "origin_stop_id")]> r)
  | _, _ => r
  end.

Definition has_events (vehicles : list vehicle) (r : row) : bool :=
  match raw_join (row_get r "Duty ID") vehicles with
  | [] => false
  | _ => true
  end.

(** The columns of the annotated report: the two stop columns are there
    once a row has been annotated. *)
Definition annotated_columns (cols : list string) (any_annotated : bool) : list string :=
  if any_annotated
  then add_column (add_column cols "First service trip start stop")
         "Last service trip end stop"
  else cols.

(** The key the lookup of a stop name uses for [field] of [ev] equals no
    [stop_id] of the stops collection. *)
Definition unmatched (stops : list stop) (ev : event) (field : string) : Prop :=
  forall (s : stop) id, s ∈ stops -> s !! "stop_id" = Some id ->
    py_eq id (get ev field (VStr "Unknown")) = false.

(** ** Loop bodies seen from one element

    What a turn of a collecting loop computes from its element alone. *)

Definition select_one (duty_id : cell) (ev : event) : result (list event) :=
  d ← getitem ev "duty_id"; Ok (if eq_cell d duty_id then [ev] else []).

Definition vehicle_select (duty_id : cell) (v : vehicle) : result (list event) :=
  events ← vehicle_getitem_events v; select_events duty_id events.

(** ** Sample documents *)

Definition dict (fields : list (string * value)) : gmap string value :=
  list_to_map fields.

(** One duty served by one event from 08:00 to 09:00. *)
Definition morning_trip : event :=
  dict [("duty_id", VStr "D1"); ("vehicle_event_sequence", VInt 1);
        ("start_time", VStr "0.08:00"); ("end_time", VStr "0.09:00")].

Definition morning_duties : list duty := [dict [("duty_id", VStr "D1")]].

Definition morning_vehicles : list vehicle := [Vehicle (Some [morning_trip])].

(** A stop whose id is the text the lookups fall back to, and an event
    without origin. *)
Definition stop_called_unknown : stop :=
  dict [("stop_id", VStr "Unknown"); ("stop_name", VStr "Central")].

Definition trip_without_origin : event :=
  dict [("duty_id", VStr "D1"); ("vehicle_event_sequence", VInt 1);
        ("start_time", VStr "0.08:00"); ("end_time", VStr "0.09:00")].

Definition depot : stop :=
  dict [("stop_id", VStr "S1"); ("stop_name", VStr "Depot")].

Definition trip_from_elsewhere : event :=
  dict [("duty_id", VStr "D1"); ("origin_stop_id", VStr "ZZZ")].

(** The break of the specification's example: a Break that ends at 10:00
    and a Break End that starts at 10:20, with the fields given there. *)
Definition break_until_ten : event :=
  dict [("duty_id", VStr "D1"); ("vehicle_event_type", VStr "Break");
        ("end_time", VStr "0.10:00")].

Definition break_end_ten_twenty : event :=
  dict [("duty_id", VStr "D1"); ("vehicle_event_type", VStr "Break End");
        ("start_time", VStr "0.10:20")].

(** The same Break, started at 09:45. *)
Definition break_from_nine_forty_five : event :=
  <["start_time" := VStr "0.09:45"]> break_until_ten.

(** A Break End that starts five minutes after the Break ended. *)
Definition break_end_ten_five : event :=
  dict [("duty_id", VStr "D1"); ("vehicle_event_type", VStr "Break End");
        ("start_time", VStr "0.10:05")].

(** A Break End that starts exactly fifteen minutes after. *)
Definition break_end_ten_fifteen : event :=
  dict [("duty_id", VStr "D1"); ("vehicle_event_type", VStr "Break End");
        ("start_time", VStr "0.10:15")].

(** A report of one duty, and two break records of that duty standing
    around a record of another. *)
Definition one_duty_report : DataFrame :=
  mkDataFrame duty_times_columns [duty_times_row (VStr "D1") "08:00" "17:00"].

Definition three_break_records : list row :=
  [break_record (Obj (VStr "D1")) 20 "10:00" (VStr "Depot");
   break_record (Obj (VStr "D2")) 30 "11:00" (VStr "Depot");
   break_record (Obj (VStr "D1")) 45 "13:00" (VStr "Unknown")].

(** A fleet without vehicles: no duty has a matched event. *)
Definition no_vehicles : list vehicle := [].

(** The report of the morning duty. *)
Definition morning_report : DataFrame :=
  mkDataFrame duty_times_columns [duty_times_row (VStr "D1") "08:00" "09:00"].

(** A duty of two events on two vehicles, the later event on the first
    vehicle, and a report of that duty and of a duty no event belongs
    to, before and after step 2. *)
Definition harbour : stop :=
  dict [("stop_id", VStr "S2"); ("stop_name", VStr "Harbour")].

Definition late_leg : event :=
  dict [("duty_id", VStr "D1"); ("vehicle_event_sequence", VInt 2);
        ("start_time", VStr "0.12:00"); ("end_time", VStr "0.17:00");
        ("origin_stop_id", VStr "S1"); ("destination_stop_id", VStr "S1")].

Definition early_leg : event :=
  dict [("duty_id", VStr "D1"); ("vehicle_event_sequence", VInt 1);
        ("start_time", VStr "0.08:00"); ("end_time", VStr "0.12:00");
        ("origin_stop_id", VStr "S2"); ("destination_stop_id", VStr "S2")].

Definition two_leg_vehicles : list vehicle :=
  [Vehicle (Some [late_leg]); Vehicle (Some [early_leg])].

Definition two_duty_report : DataFrame :=
  mkDataFrame duty_times_columns
    [duty_times_row (VStr "D1") "08:00" "17:00";
     duty_times_row (VStr "D9") "06:00" "07:00"].

Definition annotated_two_duty_report : DataFrame :=
  mkDataFrame
    (duty_times_columns ++
       ["First service trip start stop"; "Last service trip end stop"])
    [<["Last service trip end stop" := Obj (VStr "Harbour")]>
       (<["First service trip start stop" := Obj (VStr "Depot")]>
          (duty_times_row (VStr "D1") "08:00" "17:00"));
     duty_times_row (VStr "D9") "06:00" "07:00"].

(** A duty of three events on one vehicle: a trip, a Break from 09:45 to
    10:00 and the Break End, which starts at [resume]. *)
Definition day_with_break (resume : string) : list vehicle :=
  [Vehicle (Some
     [dict [("duty_id", VStr "D1"); ("vehicle_event_sequence", VInt 1);
            ("vehicle_event_type", VStr "Service Trip");
            ("start_time", VStr "0.08:00"); ("end_time", VStr "0.09:45");
            ("origin_stop_id", VStr "S1"); ("destination_stop_id", VStr "S1")];
      dict [("duty_id", VStr "D1"); ("vehicle_event_sequence", VInt 2);
            ("vehicle_event_type", VStr "Break");
            ("start_time", VStr "0.09:45"); ("end_time", VStr "0.10:00");
            ("origin_stop_id", VStr "S1"); ("destination_stop_id", VStr "S1")];
      dict [("duty_id", VStr "D1"); ("vehicle_event_sequence", VInt 3);
            ("vehicle_event_type", VStr "Break End");
            ("start_time", VStr resume); ("end_time", VStr "0.17:00");
            ("origin_stop_id", VStr "S1"); ("destination_stop_id", VStr "ZZZ")]])].

(** ** Further notions *)

(** [e] stands in [events] where the start event of a duty is taken: its
    sequence number is the least, and the events before it have a
    strictly greater one. *)
Definition first_of_least_sequence (events : list event) (e : event) : Prop :=
  exists before_e after_e k,
    events = before_e ++ e :: after_e /\ sequence_key e = Ok k /\
    (forall e' : event, e' ∈ before_e -> exists k', sequence_key e' = Ok k' /\ k < k') /\
    (forall e' : event, e' ∈ after_e -> exists k', sequence_key e' = Ok k' /\ k <= k').

(** [e] stands in [events] where the end event of a duty is taken: its
    sequence number is the greatest, and the events after it have a
    strictly smaller one. *)
Definition last_of_greatest_sequence (events : list event) (e : event) : Prop :=
  exists before_e after_e k,
    events = before_e ++ e :: after_e /\ sequence_key e = Ok k /\
    (forall e' : event, e' ∈ before_e -> exists k', sequence_key e' = Ok k' /\ k' <= k) /\
    (forall e' : event, e' ∈ after_e -> exists k', sequence_key e' = Ok k' /\ k' < k).

(** What step 1 needs of a duty: its id, vehicles the join can read, and
    an integer sequence number on each of its matched events. *)
Definition duty_readable (vehicles : list vehicle) (d : duty) : Prop :=
  exists duty_id,
    d !! "duty_id" = Some duty_id /\
    Forall vehicle_ok vehicles /\
    Forall (fun ev => exists z, sequence_key ev = Ok z) (raw_join (Obj duty_id) vehicles).

(** Vehicles with an event of another duty whose sequence number is no
    number, next to the two events of the duty D1; the second of these
    gives its sequence number as a text. *)
Definition stray_event : event :=
  dict [("duty_id", VStr "D7"); ("vehicle_event_sequence", VStr "first")].

(** Two events of one duty given out of sequence order, the later one
    first. *)
Definition afternoon_trip : event :=
  dict [("duty_id", VStr "D1"); ("vehicle_event_sequence", VStr "2");
        ("start_time", VStr "0.13:00"); ("end_time", VStr "0.17:30")].

Definition shuffled_vehicles : list vehicle :=
  [Vehicle (Some [afternoon_trip]); Vehicle (Some [morning_trip])].

Definition unreadable_and_unmatched : list vehicle :=
  [Vehicle (Some [afternoon_trip; stray_event]); Vehicle (Some [morning_trip])].

(** The name the stop map gives to the id [k]: that of the last stop of
    the list whose ['stop_id'] equals [k]. *)
Fixpoint last_stop_name (stops : list stop) (k : value) : option value :=
  match stops with
  | [] => None
  | s :: rest =>
      match last_stop_name rest k with
      | Some name => Some name
      | None =>
          match s !! "stop_id", s !! "stop_name" with
          | Some id, Some name => if py_eq id k then Some name else None
          | _, _ => None
          end
      end
  end.

(** Two stops that share an id. *)
Definition depot_renamed : stop :=
  dict [("stop_id", VStr "S1"); ("stop_name", VStr "Old Depot")].

(** ** The main block *)

(** The document [json.load] returns, as far as the main block reads it;
    [None] is a missing top-level key. *)
Record document := Document {
  doc_stops : option (list stop);
  doc_vehicles : option (list vehicle);
  doc_duties : option (list duty)
}.

(** [data[k]] for a top-level key. *)
Definition top_level {A} (field : option A) (k : string) : result A :=
  match field with
  | Some x => Ok x
  | None => Raise (KeyError k)
  end.

Definition report_columns : list string :=
  ["Duty ID"; "Start time"; "End time";
   "First service trip start stop"; "Last service trip end stop";
   "Break duration (minutes)"; "Break start time"; "Break stop name"].

(** [df[[c1, ..., cn]]]: the frame of the listed columns.  A listed
    column the frame does not have raises [KeyError]; its message names
    the missing columns, of which the first is kept here. *)
Definition select_columns (df : DataFrame) (cols : list string) : result DataFrame :=
  match filter (fun c => c ∉ columns df) cols with
  | [] => Ok (mkDataFrame cols
                ((fun r : row => filter (fun kv => kv.1 ∈ cols) r) <$> rows df))
  | c :: _ => Raise (KeyError c)
  end.

(** The main block, from the loaded document to the frame written to
    [duty_report.csv].  The frames are never [None], so every
    [is not None] test passes; writing the CSV files is left out. *)
Definition main_report (data : document) : result DataFrame :=
  stops ← top_level (doc_stops data) "stops";
  vehicles ← top_level (doc_vehicles data) "vehicles";
  duties ← top_level (doc_duties data) "duties";
  duty_times_report ← generate_duty_times_report duties vehicles;
  start_end_names_report ← add_stop_names_to_report duty_times_report vehicles stops;
  break_report ← add_breaks_to_report start_end_names_report vehicles stops;
  select_columns break_report report_columns.

(** A document whose duty no event belongs to. *)
Definition idle_document : document :=
  Document (Some [depot]) (Some [Vehicle (Some [])]) (Some morning_duties).

(** A vehicle without the key ['vehicle_events'] and a stop without
    name. *)
Definition unreadable_vehicles : list vehicle := [Vehicle None].

Definition nameless_stop : stop := dict [("stop_id", VStr "S2")].

(** The report of step 2 for the duty of two events on two vehicles. *)
Definition annotated_two_leg_report : DataFrame :=
  mkDataFrame
    (duty_times_columns ++
       ["First service trip start stop"; "Last service trip end stop"])
    [<["Last service trip end stop" := Obj (VStr "Harbour")]>
       (<["First service trip start stop" := Obj (VStr "Depot")]>
          (duty_times_row (VStr "D1") "08:00" "17:00"))].

(** The frame step 3 returns on that report for a day with a break of
    20 minutes. *)
Definition break_day_frame : DataFrame :=
  mkDataFrame report_columns
    [<["Break stop name" := Obj (VStr "Depot")]>
       (<["Break start time" := Obj (VStr "09:45")]>
          (<["Break duration (minutes)" := Minutes 20]>
             (<["Last service trip end stop" := Obj (VStr "Harbour")]>
                (<["First service trip start stop" := Obj (VStr "Depot")]>
                   (duty_times_row (VStr "D1") "08:00" "17:00")))))].

(** A document with a day that has a break of 20 minutes, and its final
    report. *)
Definition break_day_document : document :=
  Document (Some [depot]) (Some (day_with_break "0.10:20")) (Some morning_duties).

Definition break_day_report : DataFrame :=
  mkDataFrame report_columns
    [<["Break stop name" := Obj (VStr "Depot")]>
       (<["Break start time" := Obj (VStr "09:45")]>
          (<["Break duration (minutes)" := Minutes 20]>
             (<["Last service trip end stop" := Obj (VStr "Unknown")]>
                (<["First service trip start stop" := Obj (VStr "Depot")]>
                   (duty_times_row (VStr "D1") "08:00" "17:00")))))].

(** Every cell of the row stands in one of the columns [cols]. *)
Definition row_within (cols : list string) (r : row) : Prop :=
  forall c x, r !! c = Some x -> c ∈ cols.

(** [s] is the decimal text of the integer [z], with its sign. *)
Definition int_text (s : string) (z : Z) : Prop :=
  digit_text s z \/ exists s', s = String "-" s' /\ digit_text s' (- z).

(** The text [f"{d}.{h}:{m}"], nothing padded. *)
Definition plain_time_text (d h m : Z) : string :=
  str_of_Z d +:+ "." +:+ str_of_Z h +:+ ":" +:+ str_of_Z m.

(** The indices of a duty's matched events that hold a qualifying
    break. *)
Definition qualifying_indices (events : list event) : list nat :=
  filter (fun i => qualifies events i = true) (seq 0 (length events - 1)).

(** A day with two breaks of 20 minutes. *)
Definition day_with_two_breaks : list vehicle :=
  [Vehicle (Some
     [break_from_nine_forty_five; break_end_ten_twenty;
      break_from_nine_forty_five; break_end_ten_twenty])].

Example int_of_string_examples :
  map int_of_string [" 1 "; "+5"; "-3"; "1_000"; "007"; "-0"]
    = [Some 1; Some 5; Some (-3); Some 1000; Some 7; Some 0]
  /\ map int_of_string ["_1"; "1_"; "1__0"; "+"; " "; "0x10"; "1.0"; "+ 1"; "--1"; "abc"]
    = repeat None 10.
Proof. split; vm_compute; reflexivity. Qed.

Example fmt02_examples :
  map fmt02 [0; 5; 10; 123; -1; -12] = ["00"; "05"; "10"; "123"; "-1"; "-12"].
Proof. vm_compute. reflexivity. Qed.

Example time_text_examples :
  map time_text [VStr "0.10:20"; VStr "1.06:15"; VStr "0.25:70"; VStr "abc"; VStr "1:2:3"; VNone]
    = map Ok ["10:20"; "30:15"; "26:10"; "00:00"; "00:00"; "00:00"].
Proof. vm_compute. reflexivity. Qed.

(** The three steps on a day with a break of 20 minutes, and of exactly
    15 minutes. *)
Example day_with_break_of_twenty_minutes :
  (fun df => (columns df, map_to_list <$> rows df)) <$>
    break_report morning_duties (day_with_break "0.10:20") [depot]
  = Ok (["Duty ID"; "Start time"; "End time"; "First service trip start stop";
         "Last service trip end stop"; "Break duration (minutes)";
         "Break start time"; "Break stop name"],
        [map_to_list
           (duty_times_row (VStr "D1") "08:00" "17:00" ∪
            list_to_map
              [("First service trip start stop", Obj (VStr "Depot"));
               ("Last service trip end stop", Obj (VStr "Unknown"));
               ("Break duration (minutes)", Minutes 20);
               ("Break start time", Obj (VStr "09:45"));
               ("Break stop name", Obj (VStr "Depot"))])]).
Proof. vm_compute. reflexivity. Qed.

Example day_with_break_of_fifteen_minutes :
  (fun df => (columns df, map_to_list <$> rows df)) <$>
    break_report morning_duties (day_with_break "0.10:15") [depot]
  = Ok (["Duty ID"; "Start time"; "End time"; "First service trip start stop";
         "Last service trip end stop"; "Break duration (minutes)";
         "Break start time"; "Break stop name"],
        [map_to_list
           (duty_times_row (VStr "D1") "08:00" "17:00" ∪
            list_to_map
              [("First service trip start stop", Obj (VStr "Depot"));
               ("Last service trip end stop", Obj (VStr "Unknown"))])]).
Proof. vm_compute. reflexivity. Qed.

Example fifteen_minutes_is_no_break :
  gap_minutes break_from_nine_forty_five break_end_ten_fifteen = Ok 15 /\
  scan_breaks [] (Obj (VStr "D1"))
    [break_from_nine_forty_five; break_end_ten_fifteen] [] = Ok [].
Proof. split; vm_compute; reflexivity. Qed.

(** ** Loops, binds and the join *)

Lemma bind_Ok_inv {A B} (m : result A) (k : A -> result B) (b : B) :
  (m ≫= k) = Ok b -> exists a, m = Ok a /\ k a = Ok b.
Proof. destruct m as [a|e]; simpl; [eauto | discriminate]. Qed.

Ltac inv_bind H :=
  let a := fresh "a" in
  let Ha := fresh "Ha" in
  apply bind_Ok_inv in H as (a & Ha & H).

Lemma map_result_Ok {A B} (f : A -> result B) (xs : list A) (ys : list B) :
  map_result f xs = Ok ys <-> Forall2 (fun x y => f x = Ok y) xs ys.
Proof.
  revert ys. induction xs as [|x xs IH]; intros ys; simpl.
  - split; [intros [= <-]; constructor | intros H; inversion H; reflexivity].
  - split.
    + intros H. inv_bind H. inv_bind H. injection H as <-.
      constructor; [assumption | by apply IH].
    + intros H. inversion H as [|? y ? ys' Hx Hxs]; subst.
      rewrite Hx. simpl. apply IH in Hxs. rewrite Hxs. reflexivity.
Qed.

(** A loop whose body appends what it computes from the element alone
    collects these pieces in order. *)
Lemma for_loop_collect {A B} (body : list B -> A -> result (list B))
    (f : A -> result (list B)) :
  (forall acc x, body acc x = (ys ← f x; Ok (acc ++ ys))) ->
  forall xs acc,
    for_loop xs body acc = (yss ← map_result f xs; Ok (acc ++ concat yss)).
Proof.
  intros Hbody. induction xs as [|x xs IH]; intros acc; simpl.
  - by rewrite app_nil_r.
  - rewrite Hbody. destruct (f x) as [ys|e]; simpl; [|reflexivity].
    rewrite IH. destruct (map_result f xs) as [yss|e]; simpl; [|reflexivity].
    by rewrite app_assoc.
Qed.

Lemma for_loop_total {A St} (body : St -> A -> result St) xs :
  (forall x, x ∈ xs -> forall s, exists s', body s x = Ok s') ->
  forall s, exists s', for_loop xs body s = Ok s'.
Proof.
  induction xs as [|x xs IH]; intros Hbody s; simpl; [eauto|].
  destruct (Hbody x ltac:(left) s) as [s' ->]. simpl.
  apply IH. intros y Hy. apply Hbody. by right.
Qed.

Lemma for_loop_raises {A St} (body : St -> A -> result St) xs x :
  x ∈ xs -> (forall s, exists e, body s x = Raise e) ->
  forall s, exists e, for_loop xs body s = Raise e.
Proof.
  intros Hin Hx. induction xs as [|y xs IH]; intros s; [by apply elem_of_nil in Hin|].
  simpl. apply elem_of_cons in Hin as [<-|Hin].
  - destruct (Hx s) as [e ->]. simpl. eauto.
  - destruct (body s y) as [s'|e]; simpl; [by apply IH | eauto].
Qed.

Lemma select_events_collect duty_id events :
  select_events duty_id events =
    (yss ← map_result (select_one duty_id) events; Ok (concat yss)).
Proof.
  unfold select_events.
  rewrite (for_loop_collect _ (select_one duty_id)); [reflexivity|].
  intros acc ev. unfold select_one.
  destruct (getitem ev "duty_id") as [d|e]; simpl; [|reflexivity].
  destruct (eq_cell d duty_id); by rewrite ?app_nil_r.
Qed.

Lemma select_one_Ok duty_id (ev : event) ys :
  select_one duty_id ev = Ok ys <->
  is_Some (ev !! "duty_id") /\
  ys = filter (fun ev => event_matches duty_id ev = true) [ev].
Proof.
  unfold select_one, getitem. rewrite filter_cons, filter_nil.
  unfold event_matches. destruct (ev !! "duty_id") as [d|]; simpl.
  - destruct (eq_cell d duty_id); simpl;
      (split; [intros [= <-]; eauto | intros [_ ->]; done]).
  - split; [discriminate | intros [[? ?] _]; discriminate].
Qed.

Lemma select_events_Ok duty_id events sel :
  select_events duty_id events = Ok sel <->
  Forall (fun ev : event => is_Some (ev !! "duty_id")) events /\
  sel = filter (fun ev => event_matches duty_id ev = true) events.
Proof.
  rewrite select_events_collect. split.
  - intros H. inv_bind H. injection H as <-.
    apply map_result_Ok in Ha.
    induction Ha as [|ev ys events yss Hev _ [IH1 IH2]]; [by split|].
    apply select_one_Ok in Hev as [Hsome ->]. split; [by constructor|].
    simpl. rewrite IH2. by rewrite <- filter_app.
  - intros [Hall ->].
    assert (map_result (select_one duty_id) events =
            Ok ((fun ev => filter (fun ev => event_matches duty_id ev = true) [ev]) <$> events))
      as ->.
    { apply map_result_Ok. induction Hall as [|ev events Hev _ IH]; constructor; [|done].
      by apply select_one_Ok. }
    simpl. f_equal. induction events as [|ev events IH]; [done|].
    csimpl. apply Forall_cons in Hall as [_ Hall]. rewrite (IH Hall).
    by rewrite <- filter_app.
Qed.

(** Per-element pieces that are characterised by a condition on the
    element and a pure function give the list bind of that function. *)
Lemma collect_Ok {A B} (f : A -> result (list B)) (P : A -> Prop) (g : A -> list B) :
  (forall x ys, f x = Ok ys <-> P x /\ ys = g x) ->
  forall xs out,
    (yss ← map_result f xs; Ok (concat yss)) = Ok out <->
    Forall P xs /\ out = xs ≫= g.
Proof.
  intros Hf xs out. split.
  - intros H. inv_bind H. injection H as <-.
    apply map_result_Ok in Ha.
    induction Ha as [|x ys xs yss Hx _ [IH1 IH2]]; [by split|].
    apply Hf in Hx as [HP ->]. split; [by constructor|].
    csimpl. by rewrite IH2.
  - intros [Hall ->].
    assert (map_result f xs = Ok (g <$> xs)) as ->.
    { apply map_result_Ok.
      induction Hall as [|x xs Hx _ IH]; constructor; [|done].
      by apply Hf. }
    simpl. f_equal. clear Hall. induction xs as [|x xs IH]; [done|].
    csimpl. by rewrite IH.
Qed.

Lemma vehicle_select_Ok duty_id v ys :
  vehicle_select duty_id v = Ok ys <->
  vehicle_ok v /\ ys = filter (fun ev => event_matches duty_id ev = true) (events_of v).
Proof.
  unfold vehicle_select, vehicle_getitem_events, vehicle_ok, events_of.
  destruct (vehicle_events v) as [evs|]; simpl.
  - rewrite select_events_Ok. split.
    + intros [Hall ->]. eauto.
    + intros [(evs' & [= <-] & Hall) ->]. done.
  - split; [discriminate | intros [(? & ? & _) _]; discriminate].
Qed.

Lemma matching_events_Ok duty_id vehicles evs :
  matching_events duty_id vehicles = Ok evs <->
  Forall vehicle_ok vehicles /\ evs = raw_join duty_id vehicles.
Proof.
  unfold matching_events, raw_join.
  rewrite (for_loop_collect _ (vehicle_select duty_id)).
  - simpl. apply collect_Ok. intros v ys. apply vehicle_select_Ok.
  - intros acc v. unfold vehicle_select.
    destruct (vehicle_getitem_events v) as [events|e]; simpl; [|reflexivity].
    by destruct (select_events duty_id events).
Qed.

Lemma raw_join_nonempty vehicles duty_id :
  has_matching_event vehicles duty_id = true <-> raw_join (Obj duty_id) vehicles <> [].
Proof.
  unfold has_matching_event, raw_join.
  induction vehicles as [|v vehicles IH]; csimpl; [done|].
  rewrite orb_true_iff, IH. clear IH.
  assert (existsb (event_matches (Obj duty_id)) (events_of v) = true <->
          filter (fun ev => event_matches (Obj duty_id) ev = true) (events_of v) <> []) as ->.
  { induction (events_of v) as [|ev evs IH]; simpl; [done|].
    rewrite filter_cons.
    destruct (event_matches (Obj duty_id) ev); simpl; [by split|].
    rewrite IH. done. }
  split.
  - intros [H|H] Happ; apply app_eq_nil in Happ as [? ?]; done.
  - intros H.
    destruct (filter (fun ev => event_matches (Obj duty_id) ev = true) (events_of v));
      [right | left]; done.
Qed.

(** ** The time codec never raises *)

Lemma convert_time_total v : exists td, convert_time v = Ok td.
Proof.
  unfold convert_time, try_except.
  destruct (convert_time_try v); eauto.
Qed.

(** ** The stable sort *)

Lemma insert_by_key_length {A} (x : Z * A) l :
  length (insert_by_key x l) = S (length l).
Proof.
  induction l as [|y l IH]; simpl; [done|].
  destruct (x.1 <=? y.1); simpl; by rewrite ?IH.
Qed.

Lemma sort_by_key_length {A} (l : list (Z * A)) :
  length (sort_by_key l) = length l.
Proof.
  induction l as [|x l IH]; simpl; [done|].
  by rewrite insert_by_key_length, IH.
Qed.

Lemma sorted_Ok_length events key sorted_events :
  sorted events key = Ok sorted_events -> length sorted_events = length events.
Proof.
  unfold sorted. intros H. inv_bind H. injection H as <-.
  apply map_result_Ok, Forall2_length in Ha.
  rewrite length_fmap, sort_by_key_length, length_zip. lia.
Qed.

Lemma sorted_total events key :
  Forall (fun ev => exists z, key ev = Ok z) events ->
  exists sorted_events, sorted events key = Ok sorted_events.
Proof.
  intros Hall. unfold sorted.
  assert (exists keys, map_result key events = Ok keys) as [keys ->].
  { induction Hall as [|ev events [z Hz] _ [keys IH]]; simpl; [eauto|].
    rewrite Hz, IH. simpl. eauto. }
  simpl. eauto.
Qed.

Lemma first_item_total {A} (xs : list A) :
  xs <> [] -> exists x, first_item xs = Ok x.
Proof. destruct xs; [done|]. unfold first_item. simpl. eauto. Qed.

Lemma last_item_total {A} (xs : list A) :
  xs <> [] -> exists x, last_item xs = Ok x.
Proof.
  intros H. unfold last_item.
  destruct (last xs) eqn:E; [eauto|]. by apply last_None in E.
Qed.

(** ** Step 1 *)

Lemma duty_times_row_lookup duty_id s e :
  duty_times_row duty_id s e !! "Duty ID" = Some (Obj duty_id) /\
  duty_times_row duty_id s e !! "Start time" = Some (Obj (VStr s)) /\
  duty_times_row duty_id s e !! "End time" = Some (Obj (VStr e)).
Proof. unfold duty_times_row. by simplify_map_eq. Qed.

(** What one turn of the loop appends: nothing for a duty without
    events, else one row built from the first and last event in sequence
    order. *)
Lemma duty_times_step_Ok vehicles report (d : duty) report' :
  duty_times_step vehicles report d = Ok report' ->
  exists duty_id,
    d !! "duty_id" = Some duty_id /\
    Forall vehicle_ok vehicles /\
    ((raw_join (Obj duty_id) vehicles = [] /\ report' = report) \/
     (exists sorted_events start_event end_event start_time end_time,
        raw_join (Obj duty_id) vehicles <> [] /\
        sorted (raw_join (Obj duty_id) vehicles) sequence_key = Ok sorted_events /\
        head sorted_events = Some start_event /\
        last sorted_events = Some end_event /\
        convert_time (get start_event "start_time" (VStr "0.00:00")) = Ok start_time /\
        convert_time (get end_event "end_time" (VStr "0.00:00")) = Ok end_time /\
        report' = report ++ [duty_times_row duty_id (timedelta_to_time start_time)
                                                     (timedelta_to_time end_time)])).
Proof.
  unfold duty_times_step, getitem. intros H.
  destruct (d !! "duty_id") as [duty_id|]; [|discriminate]. simpl in H.
  exists duty_id. split; [done|].
  inv_bind H. apply matching_events_Ok in Ha as [Hok ->]. split; [done|].
  destruct (raw_join (Obj duty_id) vehicles) as [|ev evs] eqn:Hjoin.
  - left. by injection H as <-.
  - right. inv_bind H. inv_bind H. inv_bind H. inv_bind H. inv_bind H.
    injection H as <-.
    unfold first_item in Ha0. unfold last_item in Ha1.
    destruct (head a) as [start_event|] eqn:Hhead; [|discriminate].
    destruct (last a) as [end_event|] eqn:Hlast; [|discriminate].
    injection Ha0 as <-. injection Ha1 as <-.
    exists a, start_event, end_event, a2, a3. done.
Qed.

Lemma duty_times_step_total vehicles report (d : duty) :
  is_Some (d !! "duty_id") ->
  Forall vehicle_ok vehicles ->
  Forall (fun v => Forall (fun ev => exists z, sequence_key ev = Ok z) (events_of v)) vehicles ->
  exists report', duty_times_step vehicles report d = Ok report'.
Proof.
  intros [duty_id Hid] Hok Hseq. unfold duty_times_step, getitem. rewrite Hid. simpl.
  assert (matching_events (Obj duty_id) vehicles = Ok (raw_join (Obj duty_id) vehicles))
    as -> by by apply matching_events_Ok.
  simpl. destruct (raw_join (Obj duty_id) vehicles) as [|ev evs] eqn:Hjoin; [eauto|].
  destruct (sorted_total (ev :: evs) sequence_key) as [sorted_events Hsorted].
  { rewrite <- Hjoin. unfold raw_join. clear Hjoin Hok.
    induction Hseq as [|v vs Hv _ IH]; csimpl; [constructor|].
    apply Forall_app. split; [|done].
    apply Forall_forall. intros x Hx%list_elem_of_filter.
    rewrite Forall_forall in Hv. apply Hv. tauto. }
  rewrite Hsorted. simpl.
  assert (sorted_events <> []) as Hne.
  { apply sorted_Ok_length in Hsorted. by destruct sorted_events. }
  destruct (first_item_total sorted_events Hne) as [start_event ->].
  destruct (last_item_total sorted_events Hne) as [end_event ->]. simpl.
  destruct (convert_time_total (get start_event "start_time" (VStr "0.00:00"))) as [t0 ->].
  destruct (convert_time_total (get end_event "end_time" (VStr "0.00:00"))) as [t1 ->].
  simpl. eauto.
Qed.

Lemma pd_DataFrame_rows keys records : rows (pd_DataFrame keys records) = records.
Proof. by destruct records. Qed.

Lemma duty_times_loop_ids vehicles duties : forall report report',
  for_loop duties (duty_times_step vehicles) report = Ok report' ->
  exists ids new_rows,
    (fun d : duty => d !! "duty_id") <$> duties = Some <$> ids /\
    report' = report ++ new_rows /\
    (fun r : row => r !! "Duty ID") <$> new_rows =
      (fun id => Some (Obj id)) <$>
        filter (fun id => has_matching_event vehicles id = true) ids.
Proof.
  induction duties as [|d duties IH]; intros report report' H; simpl in H.
  - injection H as <-. exists [], []. by rewrite app_nil_r.
  - inv_bind H. apply IH in H as (ids & new_rows & Hids & -> & Hrows).
    apply duty_times_step_Ok in Ha as (duty_id & Hid & _ & Hcase).
    exists (duty_id :: ids). csimpl. rewrite Hid, Hids, filter_cons.
    destruct Hcase as [[Hnone ->] | (se & s & e & ts & te & Hsome & _ & _ & _ & _ & _ & ->)].
    + exists new_rows. split_and!; [done..|].
      rewrite decide_False; [done|]. intros Hm%raw_join_nonempty. done.
    + eexists (_ :: new_rows). split_and!; [done| by rewrite <- app_assoc |].
      rewrite decide_True by by apply raw_join_nonempty.
      csimpl. rewrite Hrows. by f_equal.
Qed.

Lemma generate_duty_times_report_total duties vehicles :
  extractor_input_ok duties vehicles ->
  exists df, generate_duty_times_report duties vehicles = Ok df.
Proof.
  unfold generate_duty_times_report. intros (Hduties & Hok & Hseq).
  destruct (for_loop_total (duty_times_step vehicles) duties) with (s := @nil row)
    as [report ->]; [|simpl; eauto].
  intros d Hd report. rewrite Forall_forall in Hduties.
  apply duty_times_step_total; auto.
Qed.

(** C1.  The duty window extractor returns a report on every input
    whose duties, vehicles and events carry their identifying fields and
    integer sequence numbers; and whenever it returns a report, the Duty
    IDs of its rows are, in order, the ids of exactly those duties of the
    input list that have at least one event with an equal [duty_id]: one
    row for each such duty, none for a duty without matching event, in
    the order of the duties. *)
Theorem duty_report_one_row_per_matched_duty duties vehicles :
  (extractor_input_ok duties vehicles ->
   exists df, generate_duty_times_report duties vehicles = Ok df) /\
  (forall df, generate_duty_times_report duties vehicles = Ok df ->
   exists ids,
     (fun d : duty => d !! "duty_id") <$> duties = Some <$> ids /\
     (fun r : row => r !! "Duty ID") <$> rows df =
       (fun id => Some (Obj id)) <$>
         filter (fun id => has_matching_event vehicles id = true) ids).
Proof.
  split; [apply generate_duty_times_report_total|].
  unfold generate_duty_times_report.
  intros df H. inv_bind H. injection H as <-.
  apply duty_times_loop_ids in Ha as (ids & new_rows & Hids & -> & Hrows).
  exists ids. by rewrite pd_DataFrame_rows.
Qed.

Lemma duty_report_one_row_per_matched_duty_witness :
  (exists df, generate_duty_times_report morning_duties morning_vehicles = Ok df) /\
  exists ids,
    (fun d : duty => d !! "duty_id") <$> morning_duties = Some <$> ids /\
    (fun r : row => r !! "Duty ID") <$> rows morning_report =
      (fun id => Some (Obj id)) <$>
        filter (fun id => has_matching_event morning_vehicles id = true) ids.
Proof.
  destruct (duty_report_one_row_per_matched_duty morning_duties morning_vehicles)
    as [Htotal Hrows].
  split.
  - apply Htotal. unfold extractor_input_ok, morning_duties, morning_vehicles.
    split_and!; repeat constructor; try (by eexists).
    exists [morning_trip]. split; [done|]. repeat constructor. by eexists.
  - apply Hrows. vm_compute. reflexivity.
Defined.

(** Every row the loop appends comes from a duty of the list with
    matched events, and every such duty has its row. *)
Lemma duty_times_loop_rows vehicles duties : forall report report',
  for_loop duties (duty_times_step vehicles) report = Ok report' ->
  exists new_rows,
    report' = report ++ new_rows /\
    (forall r, r ∈ new_rows ->
       exists duty_id sorted_events start_event end_event start_time end_time,
         sorted (raw_join (Obj duty_id) vehicles) sequence_key = Ok sorted_events /\
         head sorted_events = Some start_event /\
         last sorted_events = Some end_event /\
         convert_time (get start_event "start_time" (VStr "0.00:00")) = Ok start_time /\
         convert_time (get end_event "end_time" (VStr "0.00:00")) = Ok end_time /\
         r = duty_times_row duty_id (timedelta_to_time start_time)
                                    (timedelta_to_time end_time)) /\
    (forall (d : duty) duty_id,
       d ∈ duties -> d !! "duty_id" = Some duty_id ->
       raw_join (Obj duty_id) vehicles <> [] ->
       exists r, r ∈ new_rows /\ r !! "Duty ID" = Some (Obj duty_id)).
Proof.
  induction duties as [|d duties IH]; intros report report' H; simpl in H.
  - injection H as <-. exists []. rewrite app_nil_r.
    split_and!; [done | intros r Hr | intros d id Hd]; by apply elem_of_nil in Hr || apply elem_of_nil in Hd.
  - inv_bind H. apply IH in H as (new_rows & -> & Hfrom & Hhas).
    apply duty_times_step_Ok in Ha as (duty_id & Hid & _ & Hcase).
    destruct Hcase as [[Hnone ->] | (se & s & e & ts & te & Hsome & Hse & Hs & He & Hts & Hte & ->)].
    + exists new_rows. split_and!; [done..|].
      intros d' id' [->|Hd']%elem_of_cons Hid' Hne; [congruence | eauto].
    + eexists (_ :: new_rows). split_and!; [by rewrite <- app_assoc | |].
      * intros r [->|Hr]%elem_of_cons; [|eauto].
        exists duty_id, se, s, e, ts, te. done.
      * intros d' id' [->|Hd']%elem_of_cons Hid' Hne.
        -- eexists. split; [left|]. rewrite Hid in Hid'. injection Hid' as <-.
           apply duty_times_row_lookup.
        -- destruct (Hhas d' id' Hd' Hid' Hne) as (r & Hr & Hrid).
           exists r. split; [by right | done].
Qed.

Lemma sorted_singleton (ev : event) key sorted_events :
  sorted [ev] key = Ok sorted_events -> sorted_events = [ev].
Proof.
  unfold sorted. simpl. destruct (key ev); simpl; [|discriminate].
  by intros [= <-].
Qed.

(** C7, as the code has it.  In every report the extractor returns, a
    duty with exactly one matching event has a row, and each row with its
    Duty ID has as Start time the rendering of that event's [start_time]
    and as End time the rendering of the same event's [end_time] (each
    ["0.00:00"] when the field is missing). *)
Theorem single_event_duty_row duties vehicles df (d : duty) duty_id (ev : event) :
  generate_duty_times_report duties vehicles = Ok df ->
  d ∈ duties ->
  d !! "duty_id" = Some duty_id ->
  raw_join (Obj duty_id) vehicles = [ev] ->
  exists start_time end_time,
    convert_time (get ev "start_time" (VStr "0.00:00")) = Ok start_time /\
    convert_time (get ev "end_time" (VStr "0.00:00")) = Ok end_time /\
    (exists r : row, r ∈ rows df /\ r !! "Duty ID" = Some (Obj duty_id)) /\
    (forall r : row, r ∈ rows df -> r !! "Duty ID" = Some (Obj duty_id) ->
       r !! "Start time" = Some (Obj (VStr (timedelta_to_time start_time))) /\
       r !! "End time" = Some (Obj (VStr (timedelta_to_time end_time)))).
Proof.
  intros H Hd Hid Hjoin. unfold generate_duty_times_report in H.
  inv_bind H. injection H as <-. rewrite pd_DataFrame_rows.
  apply duty_times_loop_rows in Ha as (new_rows & -> & Hfrom & Hhas).
  destruct (convert_time_total (get ev "start_time" (VStr "0.00:00"))) as [ts Hts].
  destruct (convert_time_total (get ev "end_time" (VStr "0.00:00"))) as [te Hte].
  exists ts, te. split_and!; [done | done | |].
  - apply (Hhas d); [done..|]. by rewrite Hjoin.
  - intros r Hr Hrid.
    destruct (Hfrom r Hr) as (id & se & s & e & ts' & te' & Hse & Hs & He & Hts' & Hte' & ->).
    destruct (duty_times_row_lookup id (timedelta_to_time ts') (timedelta_to_time te'))
      as (Hl1 & Hl2 & Hl3).
    rewrite Hl1 in Hrid. injection Hrid as ->.
    rewrite Hjoin in Hse. apply sorted_singleton in Hse as ->.
    injection Hs as <-. injection He as <-.
    rewrite Hl2, Hl3. split; congruence.
Qed.

Lemma single_event_duty_row_witness :
  exists start_time end_time,
    convert_time (get morning_trip "start_time" (VStr "0.00:00")) = Ok start_time /\
    convert_time (get morning_trip "end_time" (VStr "0.00:00")) = Ok end_time /\
    (exists r : row,
       r ∈ [duty_times_row (VStr "D1") "08:00" "09:00"] /\
       r !! "Duty ID" = Some (Obj (VStr "D1"))) /\
    (forall r : row,
       r ∈ [duty_times_row (VStr "D1") "08:00" "09:00"] ->
       r !! "Duty ID" = Some (Obj (VStr "D1")) ->
       r !! "Start time" = Some (Obj (VStr (timedelta_to_time start_time))) /\
       r !! "End time" = Some (Obj (VStr (timedelta_to_time end_time)))).
Proof.
  apply (single_event_duty_row morning_duties morning_vehicles
           (mkDataFrame duty_times_columns [duty_times_row (VStr "D1") "08:00" "09:00"])
           (dict [("duty_id", VStr "D1")]) (VStr "D1") morning_trip).
  - vm_compute. reflexivity.
  - left.
  - vm_compute. reflexivity.
  - vm_compute. reflexivity.
Defined.

(** C7, refuted as stated.  The duty D1 has exactly one matching event,
    from 08:00 to 09:00, and its row has Start time ["08:00"] and End time
    ["09:00"]. *)
Lemma single_event_start_differs_from_end :
  matching_events (Obj (VStr "D1")) morning_vehicles = Ok [morning_trip] /\
  exists df r,
    generate_duty_times_report morning_duties morning_vehicles = Ok df /\
    rows df = [r] /\
    r !! "Duty ID" = Some (Obj (VStr "D1")) /\
    r !! "Start time" = Some (Obj (VStr "08:00")) /\
    r !! "End time" = Some (Obj (VStr "09:00")) /\
    r !! "Start time" <> r !! "End time".
Proof.
  split; [vm_compute; reflexivity|].
  eexists _, _. split; [vm_compute; reflexivity|].
  split; [reflexivity|].
  split_and!; [vm_compute; reflexivity..|].
  vm_compute. discriminate.
Qed.

(** ** Text *)

Lemma split_length sep s : length (split sep s) = S (count_char sep s).
Proof.
  induction s as [|c s IH]; simpl; [done|].
  destruct (Ascii.eqb c sep); simpl; [by rewrite IH|].
  destruct (split sep s) as [|p ps]; simpl in *; [discriminate | done].
Qed.

Lemma split_none sep s : count_char sep s = 0%nat -> split sep s = [s].
Proof.
  induction s as [|c s IH]; simpl; [done|].
  destruct (Ascii.eqb c sep); simpl; [discriminate|].
  intros H. by rewrite (IH H).
Qed.

(** With exactly one separator the two parts are the text in front of it
    and the text behind it. *)
Lemma split_one sep s :
  count_char sep s = 1%nat -> split sep s = [before sep s; after sep s].
Proof.
  induction s as [|c s IH]; simpl; [discriminate|].
  destruct (Ascii.eqb c sep); simpl.
  - intros [= H]. by rewrite (split_none _ _ H).
  - intros H. by rewrite (IH H).
Qed.

Lemma split_two sep s a b :
  split sep s = [a; b] ->
  count_char sep s = 1%nat /\ a = before sep s /\ b = after sep s.
Proof.
  intros H. pose proof (split_length sep s) as Hlen. rewrite H in Hlen.
  injection Hlen as Hlen. symmetry in Hlen.
  rewrite (split_one _ _ Hlen) in H. by injection H as <- <-.
Qed.

(** ** C6: malformed time text *)

Lemma is_integer_text_false s :
  is_integer_text s = false -> int_of_text s = Raise ValueError.
Proof.
  unfold is_integer_text, int_of_text, py_int.
  by destruct (int_of_string s).
Qed.

(** C6.  [convert_time] returns on every input, text or not, and on
    every text that is malformed for the compact format (not exactly one
    dot, not exactly one colon behind it, or a day, hour or minute part
    that [int()] rejects) it returns the zero duration. *)
Theorem convert_time_malformed_is_zero :
  (forall v, exists td, convert_time v = Ok td) /\
  (forall s, malformed s = true -> convert_time (VStr s) = Ok timedelta0).
Proof.
  split; [apply convert_time_total|].
  intros s Hmal. unfold convert_time, convert_time_try, py_split. simpl.
  destruct (split "." s) as [|day_offset [|time_str [|? ?]]] eqn:Hdot; try reflexivity.
  apply split_two in Hdot as (Hcount & -> & ->). simpl.
  destruct (split ":" (after "." s)) as [|hh [|mm [|x xs]]] eqn:Hcolon.
  - reflexivity.
  - simpl. by destruct (int_of_text hh).
  - apply split_two in Hcolon as (Hcount' & -> & ->).
    unfold malformed in Hmal. rewrite Hcount, Hcount' in Hmal. simpl in Hmal.
    apply orb_true_iff in Hmal as [Hmal|Hm%negb_true_iff].
    + apply orb_true_iff in Hmal as [Hd%negb_true_iff|Hh%negb_true_iff].
      * simpl. destruct (int_of_text (before ":" (after "." s))); simpl; [|done].
        destruct (int_of_text (after ":" (after "." s))); simpl; [|done].
        by rewrite (is_integer_text_false _ Hd).
      * simpl. by rewrite (is_integer_text_false _ Hh).
    + simpl. destruct (int_of_text (before ":" (after "." s))); simpl; [|done].
      by rewrite (is_integer_text_false _ Hm).
  - simpl. destruct (int_of_text hh); simpl; [|done].
    destruct (int_of_text mm); simpl; [|done].
    destruct (int_of_text x); simpl; [|done].
    by destruct (map_result int_of_text xs).
Qed.

Lemma convert_time_malformed_is_zero_witness :
  convert_time (VStr "abc") = Ok timedelta0 /\
  convert_time (VStr "1:2:3") = Ok timedelta0 /\
  convert_time (VStr "1.2") = Ok timedelta0 /\
  convert_time (VStr "1.x:30") = Ok timedelta0.
Proof.
  destruct convert_time_malformed_is_zero as [_ H].
  split_and!; apply H; reflexivity.
Defined.

(** ** Decimal digits: rendering and reading back *)

Lemma digit_val_digit_char d :
  0 <= d <= 9 -> digit_val (digit_char d) = Some d.
Proof.
  intros H.
  assert (d = 0 \/ d = 1 \/ d = 2 \/ d = 3 \/ d = 4 \/ d = 5 \/ d = 6 \/ d = 7 \/
          d = 8 \/ d = 9) as Hd by lia.
  repeat (destruct Hd as [->|Hd]; [reflexivity|]). by subst.
Qed.

Lemma digit_not_space c : is_digit c -> is_space c = false.
Proof.
  intros [d Hd]. revert Hd.
  destruct c as [[] [] [] [] [] [] [] []]; vm_compute; congruence.
Qed.

Lemma digit_not_other c x :
  is_digit c -> digit_val x = None -> Ascii.eqb c x = false.
Proof.
  intros [d Hd] Hx. destruct (Ascii.eqb_spec c x) as [->|]; [congruence | done].
Qed.

Lemma dec_digits_all_digits fuel : forall n acc,
  0 <= n -> Forall is_digit acc -> Forall is_digit (dec_digits fuel n acc).
Proof.
  induction fuel as [|fuel IH]; intros n acc Hn Hacc; simpl; [done|].
  assert (is_digit (digit_char (n mod 10))) as Hd.
  { exists (n mod 10). apply digit_val_digit_char.
    pose proof (Z.mod_pos_bound n 10). lia. }
  destruct (n <? 10); [by constructor|].
  apply IH; [apply Z.div_pos; lia | by constructor].
Qed.

Lemma dec_digits_nonempty fuel n acc : dec_digits (S fuel) n acc <> [].
Proof.
  revert n acc. induction fuel as [|fuel IH]; intros n acc; simpl.
  - by destruct (n <? 10).
  - destruct (n <? 10); [done|]. apply IH.
Qed.

Lemma dec_value_cons c l acc :
  dec_value (c :: l) acc = dec_value l (10 * acc + default 0 (digit_val c)).
Proof. reflexivity. Qed.

Lemma dec_digits_value fuel : forall n acc,
  0 <= n < 10 ^ Z.of_nat fuel ->
  dec_value (dec_digits fuel n acc) 0 = dec_value acc n.
Proof.
  induction fuel as [|fuel IH]; intros n acc Hn.
  - simpl in *. by replace n with 0 by lia.
  - cbn [dec_digits].
    pose proof (Z.mod_pos_bound n 10 ltac:(lia)) as Hmod.
    assert (digit_val (digit_char (n mod 10)) = Some (n mod 10)) as Hd
      by (apply digit_val_digit_char; lia).
    destruct (n <? 10) eqn:Hlt.
    + apply Z.ltb_lt in Hlt. rewrite dec_value_cons, Hd. simpl.
      by rewrite Z.mod_small by lia.
    + apply Z.ltb_ge in Hlt. rewrite IH.
      * rewrite dec_value_cons, Hd. simpl. f_equal.
        pose proof (Z.div_mod n 10 ltac:(lia)). lia.
      * split; [apply Z.div_pos; lia|].
        apply Z.div_lt_upper_bound; [lia|].
        rewrite Nat2Z.inj_succ, Z.pow_succ_r in Hn by lia. lia.
Qed.

Lemma digits_of_spec n :
  0 <= n -> digit_text (string_of_list_ascii (digits_of n)) n.
Proof.
  intros Hn. exists (digits_of n). unfold digits_of. split_and!.
  - done.
  - by apply dec_digits_all_digits.
  - apply dec_digits_nonempty.
  - rewrite dec_digits_value; [done|]. split; [done|].
    rewrite Nat2Z.inj_succ, Z2Nat.id by apply Z.log2_nonneg.
    destruct (decide (n = 0)) as [->|Hne]; [done|].
    pose proof (Z.log2_spec n ltac:(lia)) as [_ Hlog].
    eapply Z.lt_le_trans; [exact Hlog|].
    apply Z.pow_le_mono_l. lia.
Qed.

Lemma str_of_Z_digit_text n : 0 <= n -> digit_text (str_of_Z n) n.
Proof.
  intros Hn. unfold str_of_Z.
  rewrite (proj2 (Z.ltb_ge n 0)) by done. by apply digits_of_spec.
Qed.

Lemma fmt02_digit_text n : 0 <= n -> digit_text (fmt02 n) n.
Proof.
  intros Hn. unfold fmt02.
  destruct (str_of_Z_digit_text n Hn) as (l & Hs & Hall & Hne & Hval).
  destruct (String.length (str_of_Z n) <? 2)%nat; [|by exists l].
  exists ("0"%char :: l). split_and!.
  - by rewrite Hs.
  - constructor; [by exists 0 | done].
  - done.
  - by rewrite dec_value_cons.
Qed.

Lemma int_digits_all_digits l : forall acc after_digit,
  Forall is_digit l -> l <> [] ->
  int_digits l acc after_digit = Some (dec_value l acc).
Proof.
  induction l as [|c l IH]; intros acc b Hall Hne; [done|].
  apply Forall_cons in Hall as [[d Hd] Hall].
  cbn [int_digits]. rewrite dec_value_cons, Hd. simpl.
  destruct l as [|c' l]; [done|]. by apply IH.
Qed.

Lemma lstrip_digits l : Forall is_digit l -> lstrip l = l.
Proof.
  intros Hall. destruct Hall as [|c l Hc _]; simpl; [done|].
  by rewrite (digit_not_space c Hc).
Qed.

Lemma strip_digits l : Forall is_digit l -> strip l = l.
Proof.
  intros Hall. unfold strip. rewrite (lstrip_digits l Hall).
  rewrite lstrip_digits; [apply rev_involutive|].
  apply Forall_forall. intros c Hc. rewrite Forall_forall in Hall.
  apply Hall. by apply elem_of_rev, list_elem_of_In in Hc || apply list_elem_of_In, in_rev, list_elem_of_In in Hc.
Qed.

Lemma int_of_string_digit_text s n : digit_text s n -> int_of_string s = Some n.
Proof.
  intros (l & -> & Hall & Hne & <-). unfold int_of_string.
  rewrite list_ascii_of_string_of_list_ascii, (strip_digits l Hall).
  destruct l as [|c l]; [done|].
  pose proof (Forall_inv Hall) as Hc.
  rewrite (digit_not_other c "-" Hc), (digit_not_other c "+" Hc) by done.
  by apply int_digits_all_digits.
Qed.

Lemma count_char_append c a b :
  count_char c (a +:+ b) = (count_char c a + count_char c b)%nat.
Proof. induction a as [|x a IH]; simpl; [done|]. rewrite IH. lia. Qed.

Lemma count_char_digit_text c s n :
  digit_val c = None -> digit_text s n -> count_char c s = 0%nat.
Proof.
  intros Hc (l & -> & Hall & _ & _).
  induction Hall as [|x l Hx _ IH]; simpl; [done|].
  by rewrite (digit_not_other x c Hx Hc), IH.
Qed.

Lemma split_append sep a b :
  count_char sep a = 0%nat ->
  split sep (a +:+ String sep b) = a :: split sep b.
Proof.
  induction a as [|x a IH]; simpl.
  - by rewrite Ascii.eqb_refl.
  - destruct (Ascii.eqb x sep); [discriminate|]. simpl.
    intros H. by rewrite (IH H).
Qed.

(** ** C5: rendering the parse of a compact time text *)

Lemma int_of_text_digit_text s n : digit_text s n -> int_of_text s = Ok n.
Proof.
  intros H. unfold int_of_text, py_int. by rewrite (int_of_string_digit_text s n H).
Qed.

Lemma split_compact_time_text d h m :
  0 <= d -> 0 <= h -> 0 <= m ->
  split "." (compact_time_text d h m) = [str_of_Z d; fmt02 h +:+ ":" +:+ fmt02 m] /\
  split ":" (fmt02 h +:+ ":" +:+ fmt02 m) = [fmt02 h; fmt02 m].
Proof.
  intros Hd Hh Hm.
  pose proof (str_of_Z_digit_text d Hd) as Td.
  pose proof (fmt02_digit_text h Hh) as Th.
  pose proof (fmt02_digit_text m Hm) as Tm.
  unfold compact_time_text.
  change ("." +:+ fmt02 h +:+ ":" +:+ fmt02 m)
    with (String "." (fmt02 h +:+ ":" +:+ fmt02 m)).
  change (":" +:+ fmt02 m) with (String ":" (fmt02 m)).
  split.
  - rewrite split_append by by eapply count_char_digit_text.
    rewrite split_none; [done|].
    rewrite count_char_append. simpl.
    rewrite (count_char_digit_text "." _ _ eq_refl Th).
    by rewrite (count_char_digit_text "." _ _ eq_refl Tm).
  - rewrite split_append by by eapply count_char_digit_text.
    rewrite split_none; [done|]. by eapply count_char_digit_text.
Qed.

Lemma convert_time_compact d h m :
  0 <= d -> 0 <= h -> 0 <= m ->
  convert_time (VStr (compact_time_text d h m)) =
    try_except (timedelta_new d h m) (fun _ => Ok timedelta0).
Proof.
  intros Hd Hh Hm.
  destruct (split_compact_time_text d h m Hd Hh Hm) as [Hdot Hcolon].
  unfold convert_time, convert_time_try, py_split. simpl.
  rewrite Hdot. simpl. rewrite Hcolon. simpl.
  rewrite (int_of_text_digit_text (fmt02 h) h) by by apply fmt02_digit_text. simpl.
  rewrite (int_of_text_digit_text (fmt02 m) m) by by apply fmt02_digit_text. simpl.
  by rewrite (int_of_text_digit_text (str_of_Z d) d) by by apply str_of_Z_digit_text.
Qed.

(** C5, as the code has it.  For non-negative [d], [h] and [m <= 59],
    rendering the parse of ["<d>.<h:02>:<m:02>"] gives ["<d*24+h:02>:<m:02>"]
    as long as the total stays within the range of a [timedelta], that is
    [d*24+h < 24000000000]; beyond it the parse fails softly and the
    rendering is ["00:00"]. *)
Theorem format_parse_compact_time d h m :
  0 <= d -> 0 <= h -> 0 <= m <= 59 ->
  time_text (VStr (compact_time_text d h m)) =
    Ok (if d * 24 + h <? 24000000000
        then fmt02 (d * 24 + h) +:+ ":" +:+ fmt02 m
        else "00:00").
Proof.
  intros Hd Hh Hm. unfold time_text.
  rewrite convert_time_compact by lia.
  unfold timedelta_new, timedelta_of_seconds, max_days.
  set (secs := d * 86400 + h * 3600 + m * 60).
  assert (secs = (d * 24 + h) * 3600 + m * 60) as Hsecs by (unfold secs; lia).
  destruct (d * 24 + h <? 24000000000) eqn:Hrange.
  - apply Z.ltb_lt in Hrange.
    assert (0 <= secs / 86400 <= 999999999) as Hdays.
    { split; [apply Z.div_pos; lia|].
      apply Z.lt_succ_r, Z.div_lt_upper_bound; lia. }
    rewrite (proj2 (Z.leb_le _ _)), (proj2 (Z.leb_le _ _)) by lia.
    simpl. unfold timedelta_to_time. simpl. do 2 f_equal.
    + rewrite Hsecs. rewrite Z.div_add_l by lia.
      rewrite (Z.div_small (m * 60)) by lia. f_equal. lia.
    + do 2 f_equal. rewrite Hsecs.
      rewrite Z.add_comm, Z.mod_add by lia.
      rewrite Z.mod_small by lia. by rewrite Z.div_mul by lia.
  - apply Z.ltb_ge in Hrange.
    assert (1000000000 <= secs / 86400) as Hdays
      by (apply Z.div_le_lower_bound; lia).
    rewrite (proj2 (Z.leb_gt (secs / 86400) 999999999)) by lia.
    rewrite andb_false_r. reflexivity.
Qed.

Lemma format_parse_compact_time_witness :
  time_text (VStr (compact_time_text 1 6 15)) = Ok "30:15" /\
  time_text (VStr (compact_time_text 999999999 23 59)) = Ok "23999999999:59".
Proof.
  split.
  - apply (format_parse_compact_time 1 6 15); lia.
  - apply (format_parse_compact_time 999999999 23 59); lia.
Defined.

(** C5, refuted as stated.  The text ["1000000000.00:00"] has [d] one
    more than a [timedelta] holds: the constructor raises, [convert_time]
    answers the zero duration, and the rendering is ["00:00"], not
    ["24000000000:00"]. *)
Lemma format_parse_out_of_range :
  compact_time_text 1000000000 0 0 = "1000000000.00:00" /\
  timedelta_new 1000000000 0 0 = Raise OverflowError /\
  time_text (VStr (compact_time_text 1000000000 0 0)) = Ok "00:00" /\
  fmt02 (1000000000 * 24 + 0) +:+ ":" +:+ fmt02 0 = "24000000000:00" /\
  time_text (VStr (compact_time_text 1000000000 0 0))
    <> Ok (fmt02 (1000000000 * 24 + 0) +:+ ":" +:+ fmt02 0).
Proof.
  split_and!; [vm_compute; reflexivity..|]. vm_compute. discriminate.
Qed.

(** ** The stop map *)

Lemma dict_set_keys d k v k' v' :
  (k', v') ∈ dict_set d k v ->
  (exists w, (k', w) ∈ d) \/ k' = k.
Proof.
  induction d as [|[k0 v0] d IH]; simpl.
  - intros Heq%list_elem_of_singleton. injection Heq as -> ->. by right.
  - destruct (py_eq k0 k).
    + intros [Heq|H]%elem_of_cons; left.
      * injection Heq as -> ->. eexists. left.
      * eexists. right. exact H.
    + intros [Heq|H]%elem_of_cons.
      * injection Heq as -> ->. left. eexists. left.
      * destruct (IH H) as [[w Hw]| ->]; [left; eexists; right; exact Hw | by right].
Qed.

Lemma build_stop_map_keys stops : forall m0 m,
  for_loop stops (fun stop_map (stop : stop) =>
    k ← getitem stop "stop_id";
    v ← getitem stop "stop_name";
    Ok (dict_set stop_map k v)) m0 = Ok m ->
  forall k v, (k, v) ∈ m ->
    (exists w, (k, w) ∈ m0) \/
    (exists s : stop, s ∈ stops /\ s !! "stop_id" = Some k).
Proof.
  induction stops as [|s stops IH]; intros m0 m H k v Hin; simpl in H.
  - injection H as <-. left. eauto.
  - inv_bind H. inv_bind Ha. inv_bind Ha.
    injection Ha as <-. unfold getitem in Ha0.
    destruct (s !! "stop_id") as [id|] eqn:Hid; [|discriminate].
    injection Ha0 as <-.
    destruct (IH _ _ H k v Hin) as [[w Hw]|(s' & Hs' & Hk)].
    + apply dict_set_keys in Hw as [Hw | ->]; [by left|].
      right. exists s. split; [left | done].
    + right. exists s'. split; [by right | done].
Qed.

Lemma dict_get_no_key d k dflt :
  (forall k' v', (k', v') ∈ d -> py_eq k' k = false) ->
  dict_get d k dflt = dflt.
Proof.
  induction d as [|[k0 v0] d IH]; intros H; simpl; [done|].
  rewrite (H k0 v0) by left. apply IH. intros k' v' Hin. apply (H k' v'). by right.
Qed.

Lemma stop_name_unmatched (stops : list stop) stop_map (ev : event) field :
  build_stop_map stops = Ok stop_map ->
  unmatched stops ev field ->
  stop_name stop_map ev field = VStr "Unknown".
Proof.
  intros Hbuild Hnone. unfold stop_name. apply dict_get_no_key.
  intros k' v' Hin.
  destruct (build_stop_map_keys stops [] stop_map Hbuild k' v' Hin)
    as [[w Hw]|(s & Hs & Hid)].
  - by apply elem_of_nil in Hw.
  - by apply (Hnone s).
Qed.

(** Where the lookup does answer ["Unknown"].  Every stop name is
    produced by [stop_name], a lookup with no failing case.  Its key is
    the event's stop id, or the text ["Unknown"] when the event has no
    such field; whenever that key equals no [stop_id] of the stops
    collection, the name is the text ["Unknown"]: as start stop and as
    end stop of an annotated row, and as break stop of a break record. *)
Theorem unmatched_stop_is_unknown (stops : list stop) stop_map :
  build_stop_map stops = Ok stop_map ->
  (forall (ev : event) field,
     unmatched stops ev field -> stop_name stop_map ev field = VStr "Unknown") /\
  (forall vehicles (r : row) (start_event end_event : event),
     head (raw_join (row_get r "Duty ID") vehicles) = Some start_event ->
     last (raw_join (row_get r "Duty ID") vehicles) = Some end_event ->
     (unmatched stops start_event "origin_stop_id" ->
      annotate_row stop_map vehicles r !! "First service trip start stop"
        = Some (Obj (VStr "Unknown"))) /\
     (unmatched stops end_event "destination_stop_id" ->
      annotate_row stop_map vehicles r !! "Last service trip end stop"
        = Some (Obj (VStr "Unknown")))) /\
  (forall duty_id (events : list event) i (record : row) (e0 : event),
     break_record_at stop_map duty_id events i record ->
     events !! i = Some e0 ->
     unmatched stops e0 "origin_stop_id" ->
     record !! "Break stop name" = Some (Obj (VStr "Unknown"))).
Proof.
  intros Hbuild. split_and!.
  - intros ev field. by apply stop_name_unmatched.
  - intros vehicles r start_event end_event Hhead Hlast.
    unfold annotate_row. rewrite Hhead, Hlast. split; intros Hun.
    + rewrite lookup_insert_ne by done. rewrite lookup_insert_eq.
      by rewrite (stop_name_unmatched stops stop_map start_event _ Hbuild Hun).
    + rewrite lookup_insert_eq.
      by rewrite (stop_name_unmatched stops stop_map end_event _ Hbuild Hun).
  - intros duty_id events i record e0 (e0' & e1 & m & t & He0 & _ & _ & _ & ->) He Hun.
    rewrite He0 in He. injection He as ->.
    unfold break_record. rewrite !lookup_insert_ne by done. rewrite lookup_insert_eq.
    by rewrite (stop_name_unmatched stops stop_map e0 _ Hbuild Hun).
Qed.

Lemma unmatched_stop_is_unknown_witness :
  stop_name [(VStr "S1", VStr "Depot")] trip_from_elsewhere "origin_stop_id"
    = VStr "Unknown" /\
  stop_name [(VStr "S1", VStr "Depot")] trip_without_origin "destination_stop_id"
    = VStr "Unknown".
Proof.
  destruct (unmatched_stop_is_unknown [depot] [(VStr "S1", VStr "Depot")] eq_refl)
    as (Hname & _ & _).
  split; apply Hname; intros s id ->%list_elem_of_singleton [= <-]; reflexivity.
Defined.

(** C9.  The name of a stop for an event that lacks the stop id field
    is to be the text ["Unknown"]; the code looks the text ["Unknown"] up
    as if it were an id.  The event here has no [origin_stop_id] and the
    stops collection has a stop whose id is the text ["Unknown"]: the
    start stop the code reports is that stop's name, ["Central"], from
    [stop_name] and in the report of step 2. *)
Lemma absent_origin_finds_stop_called_unknown :
  trip_without_origin !! "origin_stop_id" = None /\
  build_stop_map [stop_called_unknown] = Ok [(VStr "Unknown", VStr "Central")] /\
  stop_name [(VStr "Unknown", VStr "Central")] trip_without_origin "origin_stop_id"
    = VStr "Central" /\
  VStr "Central" <> VStr "Unknown" /\
  exists df r,
    (report ← generate_duty_times_report morning_duties
                 [Vehicle (Some [trip_without_origin])];
     add_stop_names_to_report report [Vehicle (Some [trip_without_origin])]
       [stop_called_unknown]) = Ok df /\
    rows df = [r] /\
    r !! "First service trip start stop" = Some (Obj (VStr "Central")).
Proof.
  split_and!; [vm_compute; reflexivity.. | discriminate |].
  eexists _, _. split_and!; [vm_compute; reflexivity | reflexivity |].
  vm_compute. reflexivity.
Qed.

(** ** Durations are whole minutes *)

Lemma timedelta_of_seconds_Ok s td :
  timedelta_of_seconds s = Ok td -> td = Timedelta s.
Proof.
  unfold timedelta_of_seconds.
  destruct ((- max_days <=? s / 86400) && (s / 86400 <=? max_days)); [|discriminate].
  by intros [= <-].
Qed.

Lemma convert_time_whole_minutes v td :
  convert_time v = Ok td -> total_seconds td mod 60 = 0.
Proof.
  unfold convert_time, try_except.
  destruct (convert_time_try v) as [td'|e] eqn:Htry; intros [= <-]; [|done].
  unfold convert_time_try in Htry.
  inv_bind Htry. inv_bind Htry. destruct a0 as [day_offset time_str].
  inv_bind Htry. inv_bind Htry. destruct a1 as [hours minutes].
  inv_bind Htry. apply timedelta_of_seconds_Ok in Htry as ->. simpl.
  replace (a1 * 86400 + hours * 3600 + minutes * 60)
    with ((a1 * 1440 + hours * 60 + minutes) * 60) by lia.
  apply Z.mod_mul. lia.
Qed.

(** The float [total_seconds() / 60] of a break is the integer
    [gap_minutes]: the difference of the two parsed times is exactly that
    many minutes. *)
Lemma gap_minutes_exact (e0 e1 : event) m :
  gap_minutes e0 e1 = Ok m ->
  exists a b t1 t0,
    e1 !! "start_time" = Some a /\ e0 !! "end_time" = Some b /\
    convert_time a = Ok t1 /\ convert_time b = Ok t0 /\
    total_seconds t1 - total_seconds t0 = 60 * m.
Proof.
  unfold gap_minutes, getitem. intros H.
  destruct (e1 !! "start_time") as [a|]; [|discriminate]. simpl in H.
  inv_bind H.
  destruct (e0 !! "end_time") as [b|]; [|discriminate]. simpl in H.
  inv_bind H. inv_bind H. injection H as <-.
  apply timedelta_of_seconds_Ok in Ha1 as ->. simpl.
  exists a, b, a0, a1. split_and!; [done..|].
  apply convert_time_whole_minutes in Ha, Ha0.
  pose proof (Z.div_mod (total_seconds a0 - total_seconds a1) 60 ltac:(lia)) as Hdm.
  assert ((total_seconds a0 - total_seconds a1) mod 60 = 0) as Hz.
  { rewrite Zminus_mod, Ha, Ha0. done. }
  lia.
Qed.

(** ** Step 3: the scan of a duty's events *)

Lemma breaks_step_unfold stop_map duty_id events breaks_data i :
  breaks_step stop_map duty_id events breaks_data i =
    (e0 ← item events i;
     e1 ← item events (i + 1)%nat;
     if has_type e0 "Break" && has_type e1 "Break End" then
       m ← gap_minutes e0 e1;
       if 15 <? m then
         t ← break_start e0;
         Ok (breaks_data ++
               [break_record duty_id m (timedelta_to_time t)
                  (stop_name stop_map e0 "origin_stop_id")])
       else Ok breaks_data
     else Ok breaks_data).
Proof.
  unfold breaks_step, gap_minutes, break_start, has_type.
  destruct (item events i) as [e0|]; simpl; [|done].
  destruct (item events (i + 1)) as [e1|]; simpl; [|done].
  destruct (py_eq (get e0 "vehicle_event_type" VNone) (VStr "Break")
            && py_eq (get e1 "vehicle_event_type" VNone) (VStr "Break End")); [|done].
  destruct (getitem e1 "start_time") as [a|]; simpl; [|done].
  destruct (convert_time a) as [t1|]; simpl; [|done].
  destruct (getitem e0 "end_time") as [b|]; simpl; [|done].
  destruct (convert_time b) as [t0|]; simpl; [|done].
  destruct (timedelta_sub t1 t0) as [delta|]; simpl; [|done].
  destruct (15 <? total_seconds delta / 60); [|done].
  destruct (getitem e0 "start_time") as [c|]; simpl; [|done].
  by destruct (convert_time c).
Qed.

(** A turn of the scan that returns has appended the break record of
    its index when the index qualifies, and nothing otherwise. *)
Lemma breaks_step_Ok stop_map duty_id events breaks_data i out :
  breaks_step stop_map duty_id events breaks_data i = Ok out ->
  (qualifies events i = true /\
   exists record, out = breaks_data ++ [record] /\
                  break_record_at stop_map duty_id events i record) \/
  (qualifies events i = false /\ out = breaks_data).
Proof.
  rewrite breaks_step_unfold. unfold item, qualifies, break_record_at.
  destruct (events !! i) as [e0|]; simpl; [|discriminate].
  destruct (events !! (i + 1)%nat) as [e1|]; simpl; [|discriminate].
  destruct (has_type e0 "Break" && has_type e1 "Break End"); simpl;
    [|intros [= <-]; by right].
  destruct (gap_minutes e0 e1) as [m|] eqn:Hgap; simpl; [|discriminate].
  destruct (15 <? m) eqn:Hm; [|intros [= <-]; by right].
  destruct (break_start e0) as [t|] eqn:Ht; simpl; [|discriminate].
  intros [= <-]. left. split; [done|].
  eexists. split; [done|]. exists e0, e1, m, t. done.
Qed.

Lemma scan_indices_Ok stop_map duty_id events indices : forall breaks_data out,
  for_loop indices (breaks_step stop_map duty_id events) breaks_data = Ok out ->
  exists records,
    out = breaks_data ++ records /\
    Forall2 (break_record_at stop_map duty_id events)
      (filter (fun i => qualifies events i = true) indices) records.
Proof.
  induction indices as [|i indices IH]; intros breaks_data out H; simpl in H.
  - injection H as <-. exists []. rewrite app_nil_r. split; [done | constructor].
  - inv_bind H. apply IH in H as (records & -> & Hrec).
    rewrite filter_cons.
    apply breaks_step_Ok in Ha as [(Hq & record & -> & Hat) | (Hq & ->)].
    + exists (record :: records). rewrite <- app_assoc. split; [done|].
      rewrite decide_True by done. by constructor.
    + exists records. split; [done|].
      rewrite decide_False; [done|]. by rewrite Hq.
Qed.

(** The fields a matched pair needs are there and the difference fits a
    [timedelta]. *)
Lemma breaks_step_total stop_map duty_id events breaks_data i :
  (i + 1 < length events)%nat ->
  (forall e0 e1, events !! i = Some e0 -> events !! (i + 1)%nat = Some e1 ->
     has_type e0 "Break" = true -> has_type e1 "Break End" = true ->
     exists m, gap_minutes e0 e1 = Ok m /\ (15 < m -> is_Some (e0 !! "start_time"))) ->
  exists out, breaks_step stop_map duty_id events breaks_data i = Ok out.
Proof.
  intros Hi Hfields. rewrite breaks_step_unfold. unfold item.
  destruct (lookup_lt_is_Some_2 events i ltac:(lia)) as [e0 He0].
  destruct (lookup_lt_is_Some_2 events (i + 1) ltac:(lia)) as [e1 He1].
  rewrite He0, He1. simpl.
  destruct (has_type e0 "Break") eqn:H0; simpl; [|eauto].
  destruct (has_type e1 "Break End") eqn:H1; simpl; [|eauto].
  destruct (Hfields e0 e1 He0 He1 H0 H1) as (m & -> & Hstart). simpl.
  destruct (15 <? m) eqn:Hm; [|eauto].
  apply Z.ltb_lt in Hm. destruct (Hstart Hm) as [c Hc].
  unfold break_start, getitem. rewrite Hc. simpl.
  destruct (convert_time_total c) as [t ->]. simpl. eauto.
Qed.


(** C2.  Whenever the scan of a duty's matched events returns, the
    records it has appended are, in order, the break records of exactly
    the indices [i] in [0 .. len-2] where [events[i]] is a Break,
    [events[i+1]] a Break End and the minutes from the end of the first to
    the start of the second exceed 15; a pair exactly 15 minutes apart
    adds no record; and the scan returns whenever every matched pair has
    the fields it reads. *)
Theorem break_record_iff_qualifying stop_map duty_id (events : list event) breaks_data :
  (forall out,
     scan_breaks stop_map duty_id events breaks_data = Ok out ->
     exists records,
       out = breaks_data ++ records /\
       Forall2 (break_record_at stop_map duty_id events)
         (filter (fun i => qualifies events i = true) (seq 0 (length events - 1)))
         records) /\
  (forall e0 e1 : event,
     gap_minutes e0 e1 = Ok 15 ->
     qualifies [e0; e1] 0 = false /\
     scan_breaks stop_map duty_id [e0; e1] breaks_data = Ok breaks_data) /\
  ((forall i (e0 e1 : event),
      events !! i = Some e0 -> events !! (i + 1)%nat = Some e1 ->
      has_type e0 "Break" = true -> has_type e1 "Break End" = true ->
      exists m, gap_minutes e0 e1 = Ok m /\ (15 < m -> is_Some (e0 !! "start_time"))) ->
   exists out, scan_breaks stop_map duty_id events breaks_data = Ok out).
Proof.
  unfold scan_breaks. split_and!.
  - intros out H. by apply scan_indices_Ok in H.
  - intros e0 e1 Hgap. simpl. rewrite breaks_step_unfold. unfold qualifies. simpl.
    rewrite Hgap. simpl. rewrite andb_false_r.
    split; [done|]. by destruct (has_type e0 "Break" && has_type e1 "Break End").
  - intros Hfields. apply for_loop_total. intros i Hi%elem_of_seq s.
    apply breaks_step_total; [lia|]. intros e0 e1. apply Hfields.
Qed.

Lemma break_record_iff_qualifying_witness :
  exists records,
    [break_record (Obj (VStr "D1")) 20 "09:45" (VStr "Unknown")] = [] ++ records /\
    Forall2
      (break_record_at [] (Obj (VStr "D1"))
         [break_from_nine_forty_five; break_end_ten_twenty; break_end_ten_five])
      (filter
         (fun i => qualifies
            [break_from_nine_forty_five; break_end_ten_twenty; break_end_ten_five] i = true)
         (seq 0 (length
            [break_from_nine_forty_five; break_end_ten_twenty; break_end_ten_five] - 1)))
      records.
Proof.
  apply (break_record_iff_qualifying [] (Obj (VStr "D1"))
           [break_from_nine_forty_five; break_end_ten_twenty; break_end_ten_five] []).
  vm_compute. reflexivity.
Defined.

(** C8, as the code has it.  For a Break that ends at ["0.10:00"] and a
    Break End that starts at ["0.10:20"], the scan computes 20 minutes and
    appends one record with Break duration 20 and, as Break start time,
    the rendering of the Break's own [start_time], which the event must
    carry. *)
Theorem twenty_minute_break_record stop_map duty_id (e0 e1 : event) start :
  e0 !! "vehicle_event_type" = Some (VStr "Break") ->
  e0 !! "end_time" = Some (VStr "0.10:00") ->
  e0 !! "start_time" = Some start ->
  e1 !! "vehicle_event_type" = Some (VStr "Break End") ->
  e1 !! "start_time" = Some (VStr "0.10:20") ->
  exists t,
    convert_time start = Ok t /\
    gap_minutes e0 e1 = Ok 20 /\
    scan_breaks stop_map duty_id [e0; e1] [] =
      Ok [break_record duty_id 20 (timedelta_to_time t)
            (stop_name stop_map e0 "origin_stop_id")].
Proof.
  intros Htype0 Hend0 Hstart0 Htype1 Hstart1.
  destruct (convert_time_total start) as [t Ht]. exists t.
  assert (gap_minutes e0 e1 = Ok 20) as Hgap.
  { unfold gap_minutes, getitem. rewrite Hstart1, Hend0. reflexivity. }
  split_and!; [done..|].
  unfold scan_breaks. simpl. rewrite breaks_step_unfold. simpl.
  unfold has_type, get. rewrite Htype0, Htype1. simpl.
  rewrite Hgap. simpl.
  unfold break_start, getitem. rewrite Hstart0. simpl. by rewrite Ht.
Qed.

Lemma twenty_minute_break_record_witness :
  exists t,
    convert_time (VStr "0.09:45") = Ok t /\
    gap_minutes break_from_nine_forty_five break_end_ten_twenty = Ok 20 /\
    scan_breaks [] (Obj (VStr "D1"))
      [break_from_nine_forty_five; break_end_ten_twenty] [] =
      Ok [break_record (Obj (VStr "D1")) 20 (timedelta_to_time t)
            (stop_name [] break_from_nine_forty_five "origin_stop_id")].
Proof.
  apply (twenty_minute_break_record [] (Obj (VStr "D1"))
           break_from_nine_forty_five break_end_ten_twenty (VStr "0.09:45"));
    vm_compute; reflexivity.
Defined.

(** C8, refuted as stated.  On the two events with the fields the
    specification gives, the pair is matched and 20 minutes long, and then
    the scan raises: the Break has no [start_time].  With a Break started
    at 09:45 the record's Break start time is ["09:45"], not ["10:20"]. *)
Lemma break_start_time_is_not_the_break_end :
  gap_minutes break_until_ten break_end_ten_twenty = Ok 20 /\
  scan_breaks [] (Obj (VStr "D1")) [break_until_ten; break_end_ten_twenty] []
    = Raise (KeyError "start_time") /\
  scan_breaks [] (Obj (VStr "D1")) [break_from_nine_forty_five; break_end_ten_twenty] []
    = Ok [break_record (Obj (VStr "D1")) 20 "09:45" (VStr "Unknown")] /\
  break_record (Obj (VStr "D1")) 20 "09:45" (VStr "Unknown") !! "Break start time"
    <> Some (Obj (VStr "10:20")).
Proof.
  split_and!; [vm_compute; reflexivity..|]. vm_compute. discriminate.
Qed.

(** ** C10: the times of a break are read without default *)

Lemma scan_pair stop_map duty_id (e0 e1 : event) breaks_data :
  scan_breaks stop_map duty_id [e0; e1] breaks_data =
    (if has_type e0 "Break" && has_type e1 "Break End" then
       m ← gap_minutes e0 e1;
       if 15 <? m then
         t ← break_start e0;
         Ok (breaks_data ++
               [break_record duty_id m (timedelta_to_time t)
                  (stop_name stop_map e0 "origin_stop_id")])
       else Ok breaks_data
     else Ok breaks_data).
Proof.
  unfold scan_breaks. simpl. rewrite breaks_step_unfold. simpl.
  destruct (has_type e0 "Break" && has_type e1 "Break End"); [|done].
  destruct (gap_minutes e0 e1) as [m|]; simpl; [|done].
  destruct (15 <? m); [|done]. by destruct (break_start e0).
Qed.

Lemma breaks_step_raises stop_map duty_id (events : list event) i (e0 e1 : event) :
  events !! i = Some e0 -> events !! (i + 1)%nat = Some e1 ->
  has_type e0 "Break" = true -> has_type e1 "Break End" = true ->
  missing_break_field e0 e1 ->
  forall breaks_data,
    exists e, breaks_step stop_map duty_id events breaks_data i = Raise e.
Proof.
  intros He0 He1 Ht0 Ht1 Hmiss breaks_data.
  rewrite breaks_step_unfold. unfold item. rewrite He0, He1. simpl.
  rewrite Ht0, Ht1. simpl.
  destruct Hmiss as [Hs1 | [Hend0 | (m & Hgap & Hm & Hs0)]].
  - unfold gap_minutes, getitem. rewrite Hs1. simpl. eauto.
  - unfold gap_minutes, getitem. rewrite Hend0.
    destruct (e1 !! "start_time") as [a|]; simpl; [|eauto].
    destruct (convert_time_total a) as [t1 ->]. simpl. eauto.
  - rewrite Hgap. simpl. rewrite (proj2 (Z.ltb_lt 15 m) Hm).
    unfold break_start, getitem. rewrite Hs0. simpl. eauto.
Qed.

Lemma add_breaks_to_report_raises report vehicles stops (r : row) i (e0 e1 : event) :
  has_column report "Duty ID" = true ->
  r ∈ rows report ->
  raw_join (itertuples_1 report r) vehicles !! i = Some e0 ->
  raw_join (itertuples_1 report r) vehicles !! (i + 1)%nat = Some e1 ->
  has_type e0 "Break" = true -> has_type e1 "Break End" = true ->
  missing_break_field e0 e1 ->
  exists e, add_breaks_to_report report vehicles stops = Raise e.
Proof.
  intros Hcol Hr He0 He1 Ht0 Ht1 Hmiss. unfold add_breaks_to_report.
  destruct (build_stop_map stops) as [stop_map|e]; simpl; [|eauto].
  rewrite Hcol. simpl.
  destruct (for_loop_raises (breaks_row_step vehicles stop_map report)
              (rows report) r Hr) with (s := @nil row) as [e ->]; [|simpl; eauto].
  intros breaks_data. unfold breaks_row_step.
  destruct (matching_events (itertuples_1 report r) vehicles) as [events|e] eqn:Hev;
    simpl; [|eauto].
  apply matching_events_Ok in Hev as [_ ->].
  unfold scan_breaks. apply (for_loop_raises _ _ i).
  - apply elem_of_seq. apply lookup_lt_Some in He1. lia.
  - by apply (breaks_step_raises _ _ _ _ e0 e1).
Qed.

(** C10, as the code has it.  For a matched (Break, Break End) pair the
    scan reads [events[i+1].start_time] and [events[i].end_time] with no
    default, and [events[i].start_time] only for a break longer than 15
    minutes.  An absent field that is read raises [KeyError]; the error
    leaves [add_breaks_to_report] uncaught.  A Break without [start_time]
    that lasts 15 minutes or less raises nothing.  The duty window
    extractor asks for no time field and renders a missing one as
    ["00:00"]. *)
Theorem break_times_read_without_default :
  (forall stop_map duty_id (e0 e1 : event) breaks_data,
     has_type e0 "Break" = true -> has_type e1 "Break End" = true ->
     (e1 !! "start_time" = None ->
      scan_breaks stop_map duty_id [e0; e1] breaks_data = Raise (KeyError "start_time")) /\
     (is_Some (e1 !! "start_time") -> e0 !! "end_time" = None ->
      scan_breaks stop_map duty_id [e0; e1] breaks_data = Raise (KeyError "end_time")) /\
     (forall m, gap_minutes e0 e1 = Ok m -> e0 !! "start_time" = None ->
      scan_breaks stop_map duty_id [e0; e1] breaks_data =
        if 15 <? m then Raise (KeyError "start_time") else Ok breaks_data)) /\
  (forall report vehicles stops (r : row) i (e0 e1 : event),
     has_column report "Duty ID" = true ->
     r ∈ rows report ->
     raw_join (itertuples_1 report r) vehicles !! i = Some e0 ->
     raw_join (itertuples_1 report r) vehicles !! (i + 1)%nat = Some e1 ->
     has_type e0 "Break" = true -> has_type e1 "Break End" = true ->
     missing_break_field e0 e1 ->
     exists e, add_breaks_to_report report vehicles stops = Raise e) /\
  (forall duties vehicles,
     extractor_input_ok duties vehicles ->
     exists df, generate_duty_times_report duties vehicles = Ok df) /\
  (forall (ev : event) field,
     ev !! field = None -> time_text (get ev field (VStr "0.00:00")) = Ok "00:00").
Proof.
  split_and!.
  - intros stop_map duty_id e0 e1 breaks_data Ht0 Ht1.
    rewrite scan_pair, Ht0, Ht1. simpl. split_and!.
    + intros Hs1. unfold gap_minutes, getitem. by rewrite Hs1.
    + intros [a Ha] Hend0. unfold gap_minutes, getitem. rewrite Ha, Hend0. simpl.
      by destruct (convert_time_total a) as [t1 ->].
    + intros m Hgap Hs0. rewrite Hgap. simpl.
      destruct (15 <? m); [|done].
      unfold break_start, getitem. by rewrite Hs0.
  - apply add_breaks_to_report_raises.
  - apply generate_duty_times_report_total.
  - intros ev field Hnone. unfold get. rewrite Hnone. reflexivity.
Qed.

Lemma break_times_read_without_default_witness :
  scan_breaks [] (Obj (VStr "D1")) [break_until_ten; break_end_ten_twenty] []
    = (if 15 <? 20 then Raise (KeyError "start_time") else Ok []) /\
  exists e,
    add_breaks_to_report
      (mkDataFrame duty_times_columns [duty_times_row (VStr "D1") "00:00" "00:00"])
      [Vehicle (Some [break_until_ten; break_end_ten_twenty])] [] = Raise e.
Proof.
  destruct break_times_read_without_default as (Hpair & Hrun & _ & _).
  split.
  - apply Hpair; reflexivity.
  - apply (Hrun _ _ _ (duty_times_row (VStr "D1") "00:00" "00:00") 0%nat
             break_until_ten break_end_ten_twenty);
      [reflexivity | left | reflexivity.. |].
    right. right. exists 20. split_and!; [reflexivity | lia | reflexivity].
Defined.

(** C10, refuted as stated.  The pair is matched and the Break has no
    [start_time], yet the scan and the whole step return: the break lasts
    five minutes, so its start is never read. *)
Lemma short_break_without_start_raises_nothing :
  has_type break_until_ten "Break" = true /\
  has_type break_end_ten_five "Break End" = true /\
  break_until_ten !! "start_time" = None /\
  gap_minutes break_until_ten break_end_ten_five = Ok 5 /\
  scan_breaks [] (Obj (VStr "D1")) [break_until_ten; break_end_ten_five] [] = Ok [] /\
  exists df,
    add_breaks_to_report
      (mkDataFrame duty_times_columns [duty_times_row (VStr "D1") "00:00" "00:00"])
      [Vehicle (Some [break_until_ten; break_end_ten_five])] [] = Ok df.
Proof.
  split_and!; [vm_compute; reflexivity..|].
  eexists. vm_compute. reflexivity.
Qed.

(** ** C3: the merge of the break records *)

Lemma py_eq_refl v : py_eq v v = true.
Proof.
  destruct v as [|b|z|s]; simpl; [done | by destruct b | apply Z.eqb_refl | apply String.eqb_refl].
Qed.

Lemma key_eq_refl c : key_eq c c = true.
Proof.
  destruct c as [|[|b|z|s]|m]; simpl;
    [done | done | by destruct b | apply Z.eqb_refl | apply String.eqb_refl
    | apply Z.eqb_refl].
Qed.

Lemma merge_breaks_eq report breaks_data :
  merge_breaks report breaks_data =
    mkDataFrame (columns report ++ break_field_columns)
      (rows report ≫= merge_row "Duty ID" breaks_data).
Proof. unfold merge_breaks, merge_left. by destruct breaks_data. Qed.

Lemma merge_row_kept breaks_data (r : row) :
  merge_row "Duty ID" breaks_data r =
    match kept_breaks r breaks_data with
    | [] => [r]
    | kept => (fun b => r ∪ delete "Duty ID" b) <$> kept
    end.
Proof. reflexivity. Qed.

Lemma merge_row_length breaks_data (r : row) :
  length (merge_row "Duty ID" breaks_data r) =
    Nat.max 1 (length (kept_breaks r breaks_data)).
Proof.
  rewrite merge_row_kept. destruct (kept_breaks r breaks_data) as [|b kept]; [done|].
  rewrite length_fmap. simpl. lia.
Qed.

(** Every row a report row yields carries the cells of the report row. *)
Lemma merge_row_cells breaks_data (r r' : row) c x :
  r' ∈ merge_row "Duty ID" breaks_data r -> r !! c = Some x -> r' !! c = Some x.
Proof.
  rewrite merge_row_kept. destruct (kept_breaks r breaks_data) as [|b kept].
  - by intros ->%list_elem_of_singleton.
  - intros (b' & -> & _)%list_elem_of_fmap Hc.
    by apply lookup_union_Some_l.
Qed.

Lemma merge_row_key breaks_data (r r' : row) :
  r' ∈ merge_row "Duty ID" breaks_data r ->
  row_get r' "Duty ID" = row_get r "Duty ID".
Proof.
  rewrite merge_row_kept. destruct (kept_breaks r breaks_data) as [|b kept].
  - by intros ->%list_elem_of_singleton.
  - intros (b' & -> & _)%list_elem_of_fmap. unfold row_get. f_equal.
    rewrite lookup_union, lookup_delete_eq. by destruct (r !! "Duty ID").
Qed.

(** The break fields of a yielded row are those of its break record. *)
Lemma merge_row_break_fields (r b : row) c :
  c <> "Duty ID" -> r !! c = None ->
  (r ∪ delete "Duty ID" b) !! c = b !! c.
Proof.
  intros Hc Hr. rewrite lookup_union, Hr, lookup_delete_ne by done.
  by destruct (b !! c).
Qed.

Lemma filter_key_none (key : cell) (l : list row) :
  (forall o, o ∈ l -> key_eq (row_get o "Duty ID") key = false) ->
  filter (fun o => key_eq (row_get o "Duty ID") key = true) l = [].
Proof.
  induction l as [|o l IH]; intros H; [done|].
  rewrite filter_cons, decide_False.
  - apply IH. intros o' Ho'. apply H. by right.
  - rewrite (H o) by left. done.
Qed.

Lemma filter_key_all (key : cell) (l : list row) :
  (forall o, o ∈ l -> key_eq (row_get o "Duty ID") key = true) ->
  filter (fun o => key_eq (row_get o "Duty ID") key = true) l = l.
Proof.
  induction l as [|o l IH]; intros H; [done|].
  rewrite filter_cons, decide_True by (apply H; left).
  f_equal. apply IH. intros o' Ho'. apply H. by right.
Qed.

Lemma merged_rows_of_others breaks_data (others : list row) (key : cell) :
  (forall r', r' ∈ others -> key_eq (row_get r' "Duty ID") key = false) ->
  filter (fun o => key_eq (row_get o "Duty ID") key = true)
    (others ≫= merge_row "Duty ID" breaks_data) = [].
Proof.
  intros H. apply filter_key_none. intros o (r' & Ho & Hr')%list_elem_of_bind.
  rewrite (merge_row_key _ _ _ Ho). by apply H.
Qed.

(** C3.  In the merge of the break records onto a report, the row [r]
    of the report yields, at its place between what the rows before and
    after it yield, a block of rows: with [K > 0] kept breaks (the records
    of [breaks_data] whose Duty ID equals the row's, wherever they stand)
    exactly [K] rows, the [j]-th being [r] with the break fields of the
    [j]-th kept break; with no kept break exactly one row, [r] itself,
    whose break fields are null.  Each row of the block repeats the cells
    of [r]; the merged frame has the three break columns; and when no
    other row of the report has the Duty ID of [r], the block is all the
    merged frame holds for that Duty ID. *)
Theorem merge_fans_out_by_duty_id report breaks_data (before_r after_r : list row) (r : row) :
  rows report = before_r ++ r :: after_r ->
  exists block,
    rows (merge_breaks report breaks_data) =
      rows (merge_breaks (mkDataFrame (columns report) before_r) breaks_data) ++ block ++
      rows (merge_breaks (mkDataFrame (columns report) after_r) breaks_data) /\
    columns (merge_breaks report breaks_data) = columns report ++ break_field_columns /\
    length block = Nat.max 1 (length (kept_breaks r breaks_data)) /\
    (kept_breaks r breaks_data = [] ->
       block = [r] /\
       forall c, c ∈ break_field_columns -> r !! c = None -> row_get r c = NA) /\
    (kept_breaks r breaks_data <> [] ->
       length block = length (kept_breaks r breaks_data) /\
       block = (fun b => r ∪ delete "Duty ID" b) <$> kept_breaks r breaks_data /\
       forall j (b : row), kept_breaks r breaks_data !! j = Some b ->
         exists r' : row, block !! j = Some r' /\
           forall c, c ∈ break_field_columns -> r !! c = None -> r' !! c = b !! c) /\
    (forall (r' : row) c x, r' ∈ block -> r !! c = Some x -> r' !! c = Some x) /\
    ((forall r' : row, r' ∈ before_r ++ after_r ->
        key_eq (row_get r' "Duty ID") (row_get r "Duty ID") = false) ->
     filter (fun o => key_eq (row_get o "Duty ID") (row_get r "Duty ID") = true)
       (rows (merge_breaks report breaks_data)) = block).
Proof.
  intros Hrows. exists (merge_row "Duty ID" breaks_data r).
  rewrite !merge_breaks_eq. simpl. rewrite Hrows.
  split_and!.
  - by rewrite bind_app, bind_cons.
  - done.
  - apply merge_row_length.
  - intros Hkept. rewrite merge_row_kept, Hkept. split; [done|].
    intros c _ Hc. unfold row_get. by rewrite Hc.
  - intros Hkept. rewrite merge_row_kept.
    destruct (kept_breaks r breaks_data) as [|b0 kept] eqn:Hk; [done|].
    split_and!; [by rewrite length_fmap | done |].
    intros j b Hj. eexists. split; [by rewrite list_lookup_fmap, Hj|].
    intros c Hc Hr. apply merge_row_break_fields; [|done].
    intros ->. unfold break_field_columns in Hc.
    repeat (apply elem_of_cons in Hc as [Hc|Hc]; [discriminate|]).
    by apply elem_of_nil in Hc.
  - intros r' c x Hr'. by apply (merge_row_cells breaks_data r).
  - intros Hothers. rewrite bind_app, bind_cons, !filter_app.
    rewrite !merged_rows_of_others
      by (intros r' Hr'; apply Hothers, elem_of_app; auto).
    rewrite app_nil_r. simpl. apply filter_key_all.
    intros o Ho. rewrite (merge_row_key _ _ _ Ho). apply key_eq_refl.
Qed.

Lemma merge_fans_out_by_duty_id_witness :
  kept_breaks (duty_times_row (VStr "D1") "08:00" "17:00") three_break_records
    = [break_record (Obj (VStr "D1")) 20 "10:00" (VStr "Depot");
       break_record (Obj (VStr "D1")) 45 "13:00" (VStr "Unknown")] /\
  length (rows (merge_breaks one_duty_report three_break_records)) = 2%nat /\
  length (rows (merge_breaks one_duty_report [])) = 1%nat.
Proof.
  split; [vm_compute; reflexivity|]. split.
  - destruct (merge_fans_out_by_duty_id one_duty_report three_break_records [] []
                (duty_times_row (VStr "D1") "08:00" "17:00") eq_refl)
      as (block & Hrows & _ & Hlen & _).
    rewrite Hrows. rewrite !merge_breaks_eq. simpl. rewrite app_nil_r.
    rewrite Hlen. vm_compute. reflexivity.
  - destruct (merge_fans_out_by_duty_id one_duty_report [] [] []
                (duty_times_row (VStr "D1") "08:00" "17:00") eq_refl)
      as (block & Hrows & _ & Hlen & _).
    rewrite Hrows. rewrite !merge_breaks_eq. simpl. rewrite app_nil_r.
    rewrite Hlen. reflexivity.
Defined.

(** The report of step 3 is that merge, of the records the scans kept. *)
Lemma add_breaks_to_report_is_merge report vehicles stops out :
  has_column report "Duty ID" = true ->
  add_breaks_to_report report vehicles stops = Ok out ->
  exists stop_map breaks_data,
    build_stop_map stops = Ok stop_map /\
    for_loop (rows report) (breaks_row_step vehicles stop_map report) [] = Ok breaks_data /\
    out = merge_breaks report breaks_data.
Proof.
  intros Hcol H. unfold add_breaks_to_report in H.
  inv_bind H. rewrite Hcol in H. simpl in H. inv_bind H. injection H as <-.
  eauto.
Qed.

(** ** Step 2: the stop names *)

Lemma add_column_in cols c : c ∈ cols -> add_column cols c = cols.
Proof. intros H. unfold add_column. by rewrite bool_decide_eq_true_2. Qed.

Lemma add_column_elem cols c : c ∈ add_column cols c.
Proof.
  unfold add_column. case_bool_decide; [done|]. apply elem_of_app. right. left.
Qed.

Lemma add_column_mono cols c c' : c ∈ cols -> c ∈ add_column cols c'.
Proof.
  intros H. unfold add_column. case_bool_decide; [done|]. apply elem_of_app. by left.
Qed.

Lemma annotated_columns_step cols any :
  add_column
    (add_column (annotated_columns cols any) "First service trip start stop")
    "Last service trip end stop" = annotated_columns cols true.
Proof.
  destruct any; simpl; [|done].
  rewrite (add_column_in _ "First service trip start stop")
    by apply add_column_mono, add_column_elem.
  apply add_column_in, add_column_elem.
Qed.

Lemma stop_names_step_Ok vehicles stop_map df index (r : row) df' :
  stop_names_step vehicles stop_map df (index, r) = Ok df' ->
  match raw_join (row_get r "Duty ID") vehicles with
  | [] => df' = df
  | start_event :: rest =>
      exists end_event,
        last (start_event :: rest) = Some end_event /\
        df' = loc_set
                (loc_set df index "First service trip start stop"
                   (Obj (stop_name stop_map start_event "origin_stop_id")))
                index "Last service trip end stop"
                (Obj (stop_name stop_map end_event "destination_stop_id"))
  end.
Proof.
  unfold stop_names_step. intros H. inv_bind H.
  apply matching_events_Ok in Ha as [_ ->].
  destruct (raw_join (row_get r "Duty ID") vehicles) as [|start_event rest].
  - by injection H as <-.
  - inv_bind H. inv_bind H. injection H as <-.
    unfold first_item in Ha. simpl in Ha. injection Ha as <-.
    unfold last_item in Ha0.
    destruct (last (start_event :: rest)) as [end_event|]; [|discriminate].
    injection Ha0 as <-. eauto.
Qed.

Lemma stop_names_step_total vehicles stop_map df index (r : row) :
  Forall vehicle_ok vehicles ->
  exists df', stop_names_step vehicles stop_map df (index, r) = Ok df'.
Proof.
  intros Hok. unfold stop_names_step.
  assert (matching_events (row_get r "Duty ID") vehicles =
          Ok (raw_join (row_get r "Duty ID") vehicles)) as ->
    by by apply matching_events_Ok.
  simpl. destruct (raw_join (row_get r "Duty ID") vehicles) as [|ev evs]; [eauto|].
  destruct (first_item_total (ev :: evs)) as [x ->]; [done|].
  destruct (last_item_total (ev :: evs)) as [y ->]; [done|]. simpl. eauto.
Qed.

(** The loop over the rows rewrites them one by one, in place. *)
Lemma stop_names_loop vehicles stop_map cols (todo : list row) :
  forall (seen : list row) df out any,
    rows df = seen ++ todo ->
    columns df = annotated_columns cols any ->
    for_loop (zip (seq (length seen) (length todo)) todo)
      (stop_names_step vehicles stop_map) df = Ok out ->
    rows out = seen ++ (annotate_row stop_map vehicles <$> todo) /\
    columns out = annotated_columns cols (any || existsb (has_events vehicles) todo).
Proof.
  induction todo as [|r todo IH]; intros seen df out any Hrows Hcols H.
  - simpl in H. injection H as <-. by rewrite orb_false_r.
  - simpl in H. inv_bind H. apply stop_names_step_Ok in Ha.
    unfold annotate_row at 1, has_events at 1. csimpl.
    destruct (raw_join (row_get r "Duty ID") vehicles) as [|start_event rest].
    + subst a. simpl.
      destruct (IH (seen ++ [r]) df out any) as [Hr Hc].
      * by rewrite <- app_assoc.
      * done.
      * rewrite length_app. simpl. by replace (length seen + 1)%nat with (S (length seen)) by lia.
      * split; [by rewrite Hr, <- app_assoc | done].
    + destruct Ha as (end_event & Hlast & ->). rewrite Hlast. simpl head.
      set (r' := <["Last service trip end stop" :=
                     Obj (stop_name stop_map end_event "destination_stop_id")]>
                   (<["First service trip start stop" :=
                        Obj (stop_name stop_map start_event "origin_stop_id")]> r)).
      destruct (IH (seen ++ [r'])
                  (loc_set
                     (loc_set df (length seen) "First service trip start stop"
                        (Obj (stop_name stop_map start_event "origin_stop_id")))
                     (length seen) "Last service trip end stop"
                     (Obj (stop_name stop_map end_event "destination_stop_id")))
                  out true) as [Hr Hc].
      * simpl. rewrite Hrows.
        rewrite <- (Nat.add_0_r (length seen)) at 1 2.
        rewrite !alter_app_r. simpl. by rewrite <- app_assoc.
      * simpl. rewrite Hcols. apply annotated_columns_step.
      * rewrite length_app. simpl. by replace (length seen + 1)%nat with (S (length seen)) by lia.
      * split; [by rewrite Hr, <- app_assoc|].
        rewrite Hc. simpl. by rewrite orb_true_r.
Qed.

Lemma build_stop_map_total stops :
  Forall stop_ok stops -> exists stop_map, build_stop_map stops = Ok stop_map.
Proof.
  intros Hok. unfold build_stop_map. apply for_loop_total.
  intros s Hs m. rewrite Forall_forall in Hok.
  destruct (Hok s Hs) as [[k Hk] [v Hv]].
  unfold getitem. rewrite Hk, Hv. simpl. eauto.
Qed.

(** The names of a stop map built from stops with text names are
    texts, and so is every name looked up in it. *)
Lemma dict_set_texts (m : pydict) k name :
  Forall (fun kv : value * value => exists t, kv.2 = VStr t) m ->
  Forall (fun kv : value * value => exists t, kv.2 = VStr t) (dict_set m k (VStr name)).
Proof.
  induction 1 as [|[k' v'] m Hv Hm IH]; simpl.
  - repeat constructor. by exists name.
  - destruct (py_eq k' k); constructor; try done. by exists name.
Qed.

Lemma dict_get_text (m : pydict) k dflt :
  Forall (fun kv : value * value => exists t, kv.2 = VStr t) m ->
  exists t, dict_get m k (VStr dflt) = VStr t.
Proof.
  induction 1 as [|[k' v'] m Hv Hm IH]; simpl; [by exists dflt|].
  by destruct (py_eq k' k).
Qed.

Lemma build_stop_map_texts (stops : list stop) stop_map :
  Forall stop_named stops ->
  build_stop_map stops = Ok stop_map ->
  Forall (fun kv : value * value => exists t, kv.2 = VStr t) stop_map.
Proof.
  unfold build_stop_map. intros Hstops.
  assert (Forall (fun kv : value * value => exists t, kv.2 = VStr t) []) as H0
    by constructor.
  revert H0. generalize (@nil (value * value)).
  induction Hstops as [|s stops [[id Hid] [name Hname]] _ IH]; intros m0 H0 H;
    simpl in H.
  - by injection H as <-.
  - unfold getitem in H. rewrite Hid, Hname in H. simpl in H.
    apply (IH (dict_set m0 id (VStr name))); [by apply dict_set_texts | done].
Qed.

Lemma stop_name_text (stops : list stop) stop_map (ev : event) field :
  Forall stop_named stops ->
  build_stop_map stops = Ok stop_map ->
  exists name, stop_name stop_map ev field = VStr name.
Proof.
  intros Hstops Hbuild. unfold stop_name.
  by eapply dict_get_text, build_stop_map_texts.
Qed.

Lemma stop_named_ok (stops : list stop) :
  Forall stop_named stops -> Forall stop_ok stops.
Proof.
  intros H. eapply Forall_impl; [exact H|].
  intros s [Hid [name Hname]]. split; [done|]. by exists (VStr name).
Qed.

(** C4, as the code has it.  Take stops whose names are texts and a
    report of distinct columns, Duty ID among them, that has not yet the
    two stop columns.
    The annotator returns whenever the vehicles carry their fields, and
    what it returns has the rows of the report in the same number and
    order, each row of a duty with matched events extended by the name of
    the origin stop of the first and of the destination stop of the last
    matched event in raw join order (no sort by sequence), each other row
    unchanged; the two stop columns are added when some row has a matched
    event; every name stored is a text. *)
Theorem stop_names_annotate_rows_in_place report vehicles stops :
  NoDup (columns report) ->
  has_column report "Duty ID" = true ->
  has_column report "First service trip start stop" = false ->
  has_column report "Last service trip end stop" = false ->
  Forall stop_named stops ->
  (Forall vehicle_ok vehicles ->
   exists out, add_stop_names_to_report report vehicles stops = Ok out) /\
  (forall out,
     add_stop_names_to_report report vehicles stops = Ok out ->
     exists stop_map,
       build_stop_map stops = Ok stop_map /\
       length (rows out) = length (rows report) /\
       rows out = annotate_row stop_map vehicles <$> rows report /\
       columns out =
         annotated_columns (columns report)
           (existsb (has_events vehicles) (rows report)) /\
       (forall (ev : event) field,
          exists name, stop_name stop_map ev field = VStr name)).
Proof.
  intros _ Hcol _ _ Hstops. unfold add_stop_names_to_report. split.
  - intros Hvehicles.
    destruct (build_stop_map_total stops (stop_named_ok stops Hstops)) as [stop_map ->].
    simpl. rewrite Hcol. simpl. apply for_loop_total.
    intros [index r] _ df. by apply stop_names_step_total.
  - intros out H. inv_bind H. rewrite Hcol in H. simpl in H.
    exists a. split; [done|].
    destruct (stop_names_loop vehicles a (columns report) (rows report) [] report out false)
      as [Hr Hc]; [done | done | exact H |].
    simpl in Hr, Hc. split_and!; [|done..|].
    + by rewrite Hr, length_fmap.
    + intros ev field. by eapply stop_name_text.
Qed.

Lemma stop_names_annotate_rows_in_place_witness :
  (exists out,
     add_stop_names_to_report two_duty_report two_leg_vehicles [depot; harbour] = Ok out) /\
  (exists stop_map,
     build_stop_map [depot; harbour] = Ok stop_map /\
     length (rows annotated_two_duty_report) = length (rows two_duty_report) /\
     rows annotated_two_duty_report =
       annotate_row stop_map two_leg_vehicles <$> rows two_duty_report /\
     columns annotated_two_duty_report =
       annotated_columns (columns two_duty_report)
         (existsb (has_events two_leg_vehicles) (rows two_duty_report)) /\
     (forall (ev : event) field,
        exists name, stop_name stop_map ev field = VStr name)) /\
  raw_join (Obj (VStr "D1")) two_leg_vehicles = [late_leg; early_leg] /\
  raw_join (Obj (VStr "D9")) two_leg_vehicles = [] /\
  rows annotated_two_duty_report !! 1%nat = rows two_duty_report !! 1%nat.
Proof.
  assert (Forall stop_named [depot; harbour]) as Hstops.
  { repeat constructor; by eexists. }
  assert (Forall vehicle_ok two_leg_vehicles) as Hvehicles.
  { repeat constructor; eexists; (split; [reflexivity|]); repeat constructor; by eexists. }
  assert (NoDup (columns two_duty_report)) as Hcolumns.
  { apply (bool_decide_unpack _). vm_compute. exact I. }
  pose proof (stop_names_annotate_rows_in_place two_duty_report two_leg_vehicles
                [depot; harbour] Hcolumns eq_refl eq_refl eq_refl Hstops)
    as [Hreturns Hrows].
  split_and!.
  - exact (Hreturns Hvehicles).
  - apply (Hrows annotated_two_duty_report). vm_compute. reflexivity.
  - vm_compute. reflexivity.
  - vm_compute. reflexivity.
  - reflexivity.
Defined.

(** C4, refuted as stated.  The report has a Duty ID column and one row;
    no vehicle has an event of its duty; the annotator returns the report
    as it is, without the two stop columns. *)
Lemma no_matched_event_no_stop_columns :
  has_column one_duty_report "Duty ID" = true /\
  add_stop_names_to_report one_duty_report no_vehicles [depot] = Ok one_duty_report /\
  columns one_duty_report = ["Duty ID"; "Start time"; "End time"] /\
  has_column one_duty_report "First service trip start stop" = false /\
  has_column one_duty_report "Last service trip end stop" = false.
Proof. split_and!; vm_compute; reflexivity. Qed.

(** ** More on step 1: the events a duty window is read from *)

Lemma insert_by_key_Permutation {A} (x : Z * A) l :
  insert_by_key x l ≡ₚ x :: l.
Proof.
  induction l as [|y l IH]; simpl; [done|].
  destruct (x.1 <=? y.1); [done|].
  rewrite IH. apply Permutation_swap.
Qed.

Lemma sort_by_key_Permutation {A} (l : list (Z * A)) : sort_by_key l ≡ₚ l.
Proof.
  induction l as [|x l IH]; simpl; [done|].
  by rewrite insert_by_key_Permutation, IH.
Qed.

Lemma insert_by_key_head {A} (x : Z * A) l :
  head (insert_by_key x l) =
    Some (match head l with
          | Some y => if x.1 <=? y.1 then x else y
          | None => x
          end).
Proof. destruct l as [|y l]; simpl; [done|]. by destruct (x.1 <=? y.1). Qed.

Lemma insert_by_key_last {A} (x : Z * A) l :
  last (insert_by_key x l) =
    Some (match last l with
          | Some y => if forallb (fun y => y.1 <? x.1) l then x else y
          | None => x
          end).
Proof.
  induction l as [|y l IH]; simpl; [done|].
  destruct (x.1 <=? y.1) eqn:Hle.
  - rewrite (proj2 (Z.ltb_ge _ _)) by by apply Z.leb_le. simpl.
    rewrite last_cons. destruct l as [|z l]; [done|].
    by destruct (last (z :: l)).
  - rewrite (proj2 (Z.ltb_lt _ _)) by by apply Z.leb_gt. simpl.
    rewrite last_cons, IH. rewrite last_cons.
    destruct (last l) as [z|] eqn:Hl; [done|].
    apply last_None in Hl as ->. done.
Qed.

(** The head of the sorted list is the first element of least key. *)
Lemma sort_by_key_head {A} (l : list (Z * A)) m :
  head (sort_by_key l) = Some m ->
  exists l1 l2, l = l1 ++ m :: l2 /\
    (forall y, y ∈ l1 -> m.1 < y.1) /\ (forall y, y ∈ l2 -> m.1 <= y.1).
Proof.
  revert m. induction l as [|x l IH]; intros m; simpl; [done|].
  rewrite insert_by_key_head.
  destruct (head (sort_by_key l)) as [y|] eqn:Hhead.
  - destruct (IH y eq_refl) as (l1 & l2 & -> & Hbefore & Hafter).
    destruct (x.1 <=? y.1) eqn:Hle; intros [= <-].
    + apply Z.leb_le in Hle. exists [], (l1 ++ y :: l2). split_and!; [done | |].
      * intros z Hz. by apply elem_of_nil in Hz.
      * intros z [Hz|[->|Hz]%elem_of_cons]%elem_of_app; [| lia |].
        -- specialize (Hbefore z Hz). lia.
        -- specialize (Hafter z Hz). lia.
    + apply Z.leb_gt in Hle. exists (x :: l1), l2. split_and!; [done | | done].
      intros z [->|Hz]%elem_of_cons; [lia | by apply Hbefore].
  - intros [= <-].
    assert (l = []) as ->.
    { destruct (sort_by_key l) eqn:Hs; [|done].
      pose proof (sort_by_key_length l) as Hlen. rewrite Hs in Hlen.
      by destruct l. }
    exists [], []. split_and!; [done | |]; intros z Hz; by apply elem_of_nil in Hz.
Qed.

(** The last of the sorted list is the last element of greatest key. *)
Lemma sort_by_key_last {A} (l : list (Z * A)) m :
  last (sort_by_key l) = Some m ->
  exists l1 l2, l = l1 ++ m :: l2 /\
    (forall y, y ∈ l1 -> y.1 <= m.1) /\ (forall y, y ∈ l2 -> y.1 < m.1).
Proof.
  revert m. induction l as [|x l IH]; intros m; simpl; [done|].
  rewrite insert_by_key_last.
  destruct (last (sort_by_key l)) as [y|] eqn:Hlast.
  - destruct (IH y eq_refl) as (l1 & l2 & Hl & Hbefore & Hafter).
    destruct (forallb (fun y => y.1 <? x.1) (sort_by_key l)) eqn:Hall; intros [= <-].
    + exists [], l. split_and!; [done | |].
      * intros z Hz. by apply elem_of_nil in Hz.
      * intros z Hz. rewrite forallb_forall in Hall.
        apply Z.ltb_lt, Hall, list_elem_of_In.
        by rewrite sort_by_key_Permutation.
    + exists (x :: l1), l2. split_and!; [by rewrite Hl | | done].
      intros z [->|Hz]%elem_of_cons; [|by apply Hbefore].
      apply not_true_iff_false in Hall.
      destruct (decide (x.1 <= y.1)) as [|Hgt]; [done|]. exfalso. apply Hall.
      apply forallb_forall. intros w Hw%list_elem_of_In.
      rewrite sort_by_key_Permutation, Hl in Hw. apply Z.ltb_lt.
      apply elem_of_app in Hw as [Hw|[->|Hw]%elem_of_cons].
      * specialize (Hbefore w Hw). lia.
      * lia.
      * specialize (Hafter w Hw). lia.
  - intros [= <-].
    assert (l = []) as ->.
    { apply last_None in Hlast.
      pose proof (sort_by_key_length l) as Hlen. rewrite Hlast in Hlen.
      by destruct l. }
    exists [], []. split_and!; [done | |]; intros z Hz; by apply elem_of_nil in Hz.
Qed.

Lemma zip_keys (key : event -> result Z) (events : list event) keys :
  Forall2 (fun ev k => key ev = Ok k) events keys ->
  (zip keys events).*2 = events /\
  Forall (fun p => key p.2 = Ok p.1) (zip keys events).
Proof.
  induction 1 as [|ev k events keys Hk _ [IH1 IH2]]; csimpl; [by split|].
  split; [by rewrite IH1 | by constructor].
Qed.

Lemma sorted_keys_Ok events key sorted_events :
  sorted events key = Ok sorted_events ->
  Forall (fun ev => exists z, key ev = Ok z) events.
Proof.
  unfold sorted. intros H. inv_bind H. apply map_result_Ok in Ha.
  clear H. induction Ha; constructor; eauto.
Qed.

Lemma head_fmap {A B} (f : A -> B) (l : list A) : head (f <$> l) = f <$> head l.
Proof. by destruct l. Qed.

Lemma sorted_first_last events sorted_events :
  sorted events sequence_key = Ok sorted_events ->
  (forall e, head sorted_events = Some e -> first_of_least_sequence events e) /\
  (forall e, last sorted_events = Some e -> last_of_greatest_sequence events e).
Proof.
  unfold sorted. intros H. inv_bind H. injection H as <-.
  apply map_result_Ok in Ha. destruct (zip_keys _ _ _ Ha) as [Hsnd Hkeys].
  rewrite Forall_forall in Hkeys.
  assert (forall l1 (e' : event), e' ∈ l1.*2 ->
            exists p : Z * event, p ∈ l1 /\ e' = p.2) as Hin.
  { intros l1 e' (p & -> & Hp)%list_elem_of_fmap. eauto. }
  split; intros e He.
  - rewrite head_fmap in He.
    destruct (head (sort_by_key (zip a events))) as [[k e0]|] eqn:Hhead; [|done].
    injection He as <-.
    destruct (sort_by_key_head _ _ Hhead) as (l1 & l2 & Hl & Hbefore & Hafter).
    exists (l1.*2), (l2.*2), k. split_and!.
    + by rewrite <- Hsnd, Hl, fmap_app.
    + apply (Hkeys (k, e0)). rewrite Hl. apply elem_of_app. right. left.
    + intros e' (p & Hp & ->)%Hin. exists p.1. split.
      * apply Hkeys. rewrite Hl. apply elem_of_app. by left.
      * by apply Hbefore.
    + intros e' (p & Hp & ->)%Hin. exists p.1. split.
      * apply Hkeys. rewrite Hl. apply elem_of_app. right. by right.
      * by apply Hafter.
  - rewrite fmap_last in He.
    destruct (last (sort_by_key (zip a events))) as [[k e0]|] eqn:Hlast; [|done].
    injection He as <-.
    destruct (sort_by_key_last _ _ Hlast) as (l1 & l2 & Hl & Hbefore & Hafter).
    exists (l1.*2), (l2.*2), k. split_and!.
    + by rewrite <- Hsnd, Hl, fmap_app.
    + apply (Hkeys (k, e0)). rewrite Hl. apply elem_of_app. right. left.
    + intros e' (p & Hp & ->)%Hin. exists p.1. split.
      * apply Hkeys. rewrite Hl. apply elem_of_app. by left.
      * by apply Hbefore.
    + intros e' (p & Hp & ->)%Hin. exists p.1. split.
      * apply Hkeys. rewrite Hl. apply elem_of_app. right. by right.
      * by apply Hafter.
Qed.

(** X1.  Each row of the report of step 1 is read from two events of
    its duty's matched events: the Start time from the event of least
    sequence number (the first such in join order), the End time from the
    event of greatest sequence number (the last such in join order). *)
Theorem duty_window_from_least_and_greatest_sequence duties vehicles df (r : row) :
  generate_duty_times_report duties vehicles = Ok df ->
  r ∈ rows df ->
  exists duty_id (start_event end_event : event) start_time end_time,
    first_of_least_sequence (raw_join (Obj duty_id) vehicles) start_event /\
    last_of_greatest_sequence (raw_join (Obj duty_id) vehicles) end_event /\
    convert_time (get start_event "start_time" (VStr "0.00:00")) = Ok start_time /\
    convert_time (get end_event "end_time" (VStr "0.00:00")) = Ok end_time /\
    r = duty_times_row duty_id (timedelta_to_time start_time)
                               (timedelta_to_time end_time).
Proof.
  unfold generate_duty_times_report. intros H Hr.
  inv_bind H. injection H as <-. rewrite pd_DataFrame_rows in Hr.
  apply duty_times_loop_rows in Ha as (new_rows & -> & Hfrom & _).
  destruct (Hfrom r Hr) as (id & se & s & e & ts & te & Hse & Hs & He & Hts & Hte & ->).
  destruct (sorted_first_last _ _ Hse) as [Hfirst Hlast].
  exists id, s, e, ts, te. split_and!; auto.
Qed.

Lemma duty_window_from_least_and_greatest_sequence_witness :
  exists duty_id (start_event end_event : event) start_time end_time,
    first_of_least_sequence (raw_join (Obj duty_id) shuffled_vehicles) start_event /\
    last_of_greatest_sequence (raw_join (Obj duty_id) shuffled_vehicles) end_event /\
    convert_time (get start_event "start_time" (VStr "0.00:00")) = Ok start_time /\
    convert_time (get end_event "end_time" (VStr "0.00:00")) = Ok end_time /\
    duty_times_row (VStr "D1") "08:00" "17:30" =
      duty_times_row duty_id (timedelta_to_time start_time)
                             (timedelta_to_time end_time).
Proof.
  apply (duty_window_from_least_and_greatest_sequence morning_duties shuffled_vehicles
           (mkDataFrame duty_times_columns [duty_times_row (VStr "D1") "08:00" "17:30"])).
  - vm_compute. reflexivity.
  - left.
Defined.

Lemma duty_times_step_returns vehicles report (d : duty) :
  duty_readable vehicles d ->
  exists report', duty_times_step vehicles report d = Ok report'.
Proof.
  intros (duty_id & Hid & Hok & Hseq). unfold duty_times_step, getitem.
  rewrite Hid. simpl.
  assert (matching_events (Obj duty_id) vehicles = Ok (raw_join (Obj duty_id) vehicles))
    as -> by by apply matching_events_Ok.
  simpl. destruct (raw_join (Obj duty_id) vehicles) as [|ev evs] eqn:Hjoin; [eauto|].
  destruct (sorted_total (ev :: evs) sequence_key Hseq) as [sorted_events Hsorted].
  rewrite Hsorted. simpl.
  assert (sorted_events <> []) as Hne.
  { apply sorted_Ok_length in Hsorted. by destruct sorted_events. }
  destruct (first_item_total sorted_events Hne) as [start_event ->].
  destruct (last_item_total sorted_events Hne) as [end_event ->]. simpl.
  destruct (convert_time_total (get start_event "start_time" (VStr "0.00:00"))) as [t0 ->].
  destruct (convert_time_total (get end_event "end_time" (VStr "0.00:00"))) as [t1 ->].
  simpl. eauto.
Qed.

Lemma duty_times_step_readable vehicles report (d : duty) report' :
  duty_times_step vehicles report d = Ok report' -> duty_readable vehicles d.
Proof.
  intros H. apply duty_times_step_Ok in H as (duty_id & Hid & Hok & Hcase).
  exists duty_id. split_and!; [done..|].
  destruct Hcase as [[-> _] | (se & _ & _ & _ & _ & _ & Hse & _)]; [constructor|].
  by apply sorted_keys_Ok in Hse.
Qed.

Lemma duty_report_returns_readable duties vehicles :
  (exists df, generate_duty_times_report duties vehicles = Ok df) <->
  Forall (duty_readable vehicles) duties.
Proof.
  unfold generate_duty_times_report. split.
  - intros [df H]. inv_bind H. clear H. revert Ha. generalize (@nil row).
    induction duties as [|d duties IH]; intros report H; [constructor|].
    simpl in H. inv_bind H. constructor.
    + by eapply duty_times_step_readable.
    + by eapply IH.
  - intros Hall.
    destruct (for_loop_total (duty_times_step vehicles) duties) with (s := @nil row)
      as [report ->]; [|simpl; eauto].
    intros d Hd report. rewrite Forall_forall in Hall.
    by apply duty_times_step_returns, Hall.
Qed.

(** What it is for every duty to be readable, spelled out: the vehicles
    count only when there is a duty. *)
Lemma all_duties_readable duties vehicles :
  Forall (duty_readable vehicles) duties <->
  Forall (fun d : duty => is_Some (d !! "duty_id")) duties /\
  (duties <> [] -> Forall vehicle_ok vehicles) /\
  (forall (d : duty) id, d ∈ duties -> d !! "duty_id" = Some id ->
     Forall (fun ev => exists z, sequence_key ev = Ok z) (raw_join (Obj id) vehicles)).
Proof.
  split.
  - intros Hall. pose proof (proj1 (Forall_forall _ _) Hall) as Hin. split_and!.
    + apply Forall_forall. intros d Hd.
      destruct (Hin d Hd) as (id & Hid & _). by exists id.
    + destruct duties as [|d duties]; [done|]. intros _.
      by destruct (Hin d ltac:(left)) as (id & _ & Hok & _).
    + intros d id Hd Hid. destruct (Hin d Hd) as (id' & Hid' & _ & Hseq).
      by assert (id = id') as -> by congruence.
  - intros (Hids & Hok & Hseq). apply Forall_forall. intros d Hd.
    destruct (proj1 (Forall_forall _ _) Hids d Hd) as [id Hid].
    exists id. split_and!; [done | | by eapply Hseq].
    apply Hok. intros ->. by apply elem_of_nil in Hd.
Qed.

(** X2.  When no sequence number is a text of more than 4300
    characters: step 1 returns a report exactly when every duty has its
    ['duty_id'], every event matched by a duty has a
    ['vehicle_event_sequence'] that [int()] accepts and, if there is a
    duty at all, every vehicle has its ['vehicle_events'] with a
    ['duty_id'] on every event; in every other case it raises.  With no
    duty the vehicles are not read and the report is the empty frame,
    whatever the vehicles hold.  The sequence number of an event no duty
    matches is never read. *)
Theorem duty_report_returns_iff duties vehicles :
  sequence_texts_short vehicles ->
  ((exists df, generate_duty_times_report duties vehicles = Ok df) <->
   Forall (fun d : duty => is_Some (d !! "duty_id")) duties /\
   (duties <> [] -> Forall vehicle_ok vehicles) /\
   (forall (d : duty) id, d ∈ duties -> d !! "duty_id" = Some id ->
      Forall (fun ev => exists z, sequence_key ev = Ok z) (raw_join (Obj id) vehicles))) /\
  ((forall df, generate_duty_times_report duties vehicles <> Ok df) <->
   exists e, generate_duty_times_report duties vehicles = Raise e) /\
  (duties = [] -> generate_duty_times_report duties vehicles = Ok (mkDataFrame [] [])).
Proof.
  intros _. split_and!.
  - by rewrite duty_report_returns_readable, all_duties_readable.
  - destruct (generate_duty_times_report duties vehicles) as [df|e]; split.
    + intros H. by destruct (H df).
    + by intros [e H].
    + eauto.
    + by intros _ df.
  - by intros ->.
Qed.

Lemma duty_report_returns_iff_witness :
  ((exists df, generate_duty_times_report morning_duties unreadable_and_unmatched = Ok df) <->
   Forall (fun d : duty => is_Some (d !! "duty_id")) morning_duties /\
   (morning_duties <> [] -> Forall vehicle_ok unreadable_and_unmatched) /\
   (forall (d : duty) id, d ∈ morning_duties -> d !! "duty_id" = Some id ->
      Forall (fun ev => exists z, sequence_key ev = Ok z)
        (raw_join (Obj id) unreadable_and_unmatched))) /\
  ((forall df, generate_duty_times_report morning_duties unreadable_and_unmatched <> Ok df)
   <-> exists e, generate_duty_times_report morning_duties unreadable_and_unmatched = Raise e)
  /\
  (morning_duties = [] ->
   generate_duty_times_report morning_duties unreadable_and_unmatched
     = Ok (mkDataFrame [] [])).
Proof.
  apply (duty_report_returns_iff morning_duties unreadable_and_unmatched).
  repeat first [apply List.Forall_nil | apply List.Forall_cons];
    intros s H; vm_compute in H; try discriminate;
    injection H as <-; simpl; lia.
Defined.

(** ** More on the stop map *)

Lemma py_eq_sym a b : py_eq a b = py_eq b a.
Proof.
  destruct a as [|c|x|s], b as [|d|y|t]; cbn [py_eq]; try done;
    first [apply Z.eqb_sym | apply String.eqb_sym | by destruct c, d].
Qed.

Lemma py_eq_trans a b c : py_eq a b = true -> py_eq b c = true -> py_eq a c = true.
Proof.
  destruct a as [|p|x|s], b as [|q|y|t], c as [|r|z|u]; cbn [py_eq]; try done;
    rewrite ?Z.eqb_eq, ?String.eqb_eq, ?Bool.eqb_true_iff; unfold num_of_bool;
    try congruence;
    repeat match goal with b : bool |- _ => destruct b end; lia.
Qed.

(** Insert, then look up. *)
Lemma dict_get_dict_set d k v k' dflt :
  dict_get (dict_set d k v) k' dflt =
    if py_eq k k' then v else dict_get d k' dflt.
Proof.
  induction d as [|[k0 v0] d IH]; simpl.
  - by destruct (py_eq k k').
  - destruct (py_eq k0 k) eqn:H0; simpl.
    + destruct (py_eq k0 k') eqn:H1.
      * assert (py_eq k k' = true) as ->; [|done].
        apply (py_eq_trans k k0 k'); [by rewrite py_eq_sym | done].
      * destruct (py_eq k k') eqn:H2; [|done].
        rewrite (py_eq_trans k0 k k' H0 H2) in H1. discriminate.
    + destruct (py_eq k0 k') eqn:H1; [|done].
      destruct (py_eq k k') eqn:H2; [|done].
      rewrite py_eq_sym in H2.
      rewrite (py_eq_trans k0 k' k H1 H2) in H0. discriminate.
Qed.

Lemma build_stop_map_lookup (stops : list stop) : forall m0 m k dflt,
  for_loop stops (fun stop_map (stop : stop) =>
    k ← getitem stop "stop_id";
    v ← getitem stop "stop_name";
    Ok (dict_set stop_map k v)) m0 = Ok m ->
  dict_get m k dflt =
    match last_stop_name stops k with
    | Some name => name
    | None => dict_get m0 k dflt
    end.
Proof.
  induction stops as [|s stops IH]; intros m0 m k dflt H; simpl in H.
  - by injection H as <-.
  - inv_bind H. inv_bind Ha. inv_bind Ha. injection Ha as <-.
    unfold getitem in Ha0, Ha1.
    destruct (s !! "stop_id") as [id|] eqn:Hid; [|discriminate].
    destruct (s !! "stop_name") as [name|] eqn:Hname; [|discriminate].
    injection Ha0 as <-. injection Ha1 as <-.
    rewrite (IH _ _ k dflt H). simpl. rewrite Hid, Hname.
    destruct (last_stop_name stops k); [done|].
    rewrite dict_get_dict_set. by destruct (py_eq id k).
Qed.

Lemma build_stop_map_returns_iff (stops : list stop) :
  (exists stop_map, build_stop_map stops = Ok stop_map) <-> Forall stop_ok stops.
Proof.
  split; [|apply build_stop_map_total].
  intros [m H]. unfold build_stop_map in H. revert H. generalize (@nil (value * value)).
  induction stops as [|s stops IH]; intros m0 H; [constructor|].
  simpl in H. inv_bind H. constructor; [|by eapply IH].
  inv_bind Ha. inv_bind Ha. unfold getitem in Ha0, Ha1. unfold stop_ok.
  destruct (s !! "stop_id"); [|discriminate].
  destruct (s !! "stop_name"); [|discriminate]. by split.
Qed.

(** X3.  The stop map answers an id with the name of the last stop of
    the stops list that has this id (a later stop overwrites an earlier
    one with an equal id), and with the default when no stop has it; it is
    built exactly when every stop has ['stop_id'] and ['stop_name']. *)
Theorem stop_map_last_stop_wins (stops : list stop) :
  ((exists stop_map, build_stop_map stops = Ok stop_map) <-> Forall stop_ok stops) /\
  (forall stop_map k dflt,
     build_stop_map stops = Ok stop_map ->
     dict_get stop_map k dflt = default dflt (last_stop_name stops k)).
Proof.
  split; [apply build_stop_map_returns_iff|].
  intros m k dflt H. rewrite (build_stop_map_lookup stops [] m k dflt H).
  by destruct (last_stop_name stops k).
Qed.

Lemma stop_map_last_stop_wins_witness :
  dict_get [(VStr "S1", VStr "Depot")] (VStr "S1") (VStr "Unknown") = VStr "Depot" /\
  dict_get [(VStr "S1", VStr "Depot")] (VStr "S9") (VStr "Unknown") = VStr "Unknown".
Proof.
  destruct (stop_map_last_stop_wins [depot_renamed; depot]) as [_ H].
  split.
  - apply (H [(VStr "S1", VStr "Depot")] (VStr "S1") (VStr "Unknown")). reflexivity.
  - apply (H [(VStr "S1", VStr "Depot")] (VStr "S9") (VStr "Unknown")). reflexivity.
Defined.

(** ** The steps in sequence *)

(** Every row of the report of step 1 belongs to a duty with matched
    events. *)
Lemma duty_report_rows_have_events duties vehicles df (r : row) :
  generate_duty_times_report duties vehicles = Ok df ->
  r ∈ rows df ->
  exists duty_id, r !! "Duty ID" = Some (Obj duty_id) /\
    raw_join (Obj duty_id) vehicles <> [] /\ has_events vehicles r = true.
Proof.
  unfold generate_duty_times_report. intros H Hr.
  inv_bind H. injection H as <-. rewrite pd_DataFrame_rows in Hr.
  apply duty_times_loop_rows in Ha as (new_rows & -> & Hfrom & _).
  destruct (Hfrom r Hr) as (id & se & s & e & ts & te & Hse & Hs & He & Hts & Hte & ->).
  assert (raw_join (Obj id) vehicles <> []) as Hne.
  { intros Hnil. apply sorted_Ok_length in Hse. rewrite Hnil in Hse.
    destruct se; [done | discriminate]. }
  exists id. split_and!; [apply duty_times_row_lookup | done |].
  unfold has_events, row_get.
  rewrite (proj1 (duty_times_row_lookup id _ _)). simpl.
  by destruct (raw_join (Obj id) vehicles).
Qed.

Lemma duty_report_columns duties vehicles df :
  generate_duty_times_report duties vehicles = Ok df ->
  rows df <> [] -> columns df = duty_times_columns.
Proof.
  unfold generate_duty_times_report. intros H Hne.
  inv_bind H. injection H as <-. by destruct a.
Qed.

Lemma duty_report_empty duties vehicles df :
  generate_duty_times_report duties vehicles = Ok df ->
  rows df = [] -> df = mkDataFrame [] [].
Proof.
  unfold generate_duty_times_report. intros H Hnil.
  inv_bind H. injection H as <-. by destruct a.
Qed.

Lemma existsb_all_true {A} (f : A -> bool) (l : list A) :
  l <> [] -> (forall x, x ∈ l -> f x = true) -> existsb f l = true.
Proof.
  destruct l as [|x l]; [done|]. intros _ H. simpl. by rewrite (H x) by left.
Qed.

Lemma pipeline_stop_names duties vehicles stops df1 df2 :
  generate_duty_times_report duties vehicles = Ok df1 ->
  rows df1 <> [] ->
  add_stop_names_to_report df1 vehicles stops = Ok df2 ->
  columns df2 =
    ["Duty ID"; "Start time"; "End time";
     "First service trip start stop"; "Last service trip end stop"] /\
  forall stop_map, build_stop_map stops = Ok stop_map ->
    rows df2 = annotate_row stop_map vehicles <$> rows df1.
Proof.
  intros H1 Hne H2.
  pose proof (duty_report_columns _ _ _ H1 Hne) as Hcols.
  unfold add_stop_names_to_report in H2. inv_bind H2.
  assert (has_column df1 "Duty ID" = true) as Hcol by (unfold has_column; by rewrite Hcols).
  rewrite Hcol in H2. simpl in H2.
  destruct (stop_names_loop vehicles a (columns df1) (rows df1) [] df1 df2 false)
    as [Hr Hc]; [done | done | exact H2 |].
  simpl in Hr, Hc. split; [|intros stop_map Hb; by assert (stop_map = a) as -> by congruence].
  rewrite Hc, Hcols, existsb_all_true; [done | done |].
  intros r Hr'. by destruct (duty_report_rows_have_events _ _ _ r H1 Hr') as (? & _ & _ & ?).
Qed.

(** X4.  In the pipeline every row gets its two stop names.  Take duties
    whose ids are texts and stops whose names are texts: when step 1
    returns a report with rows and step 2 returns on it with the same
    vehicles, the result has the five columns Duty ID, Start time, End
    time, First service trip start stop, Last service trip end stop, as
    many rows as the report, and in every row a text as start stop and a
    text as end stop. *)
Theorem pipeline_rows_all_have_stop_names duties vehicles stops df1 df2 :
  Forall duty_keyed duties ->
  Forall stop_named stops ->
  generate_duty_times_report duties vehicles = Ok df1 ->
  rows df1 <> [] ->
  add_stop_names_to_report df1 vehicles stops = Ok df2 ->
  columns df2 =
    ["Duty ID"; "Start time"; "End time";
     "First service trip start stop"; "Last service trip end stop"] /\
  length (rows df2) = length (rows df1) /\
  (forall r : row, r ∈ rows df2 ->
     exists start_stop end_stop : string,
       r !! "First service trip start stop" = Some (Obj (VStr start_stop)) /\
       r !! "Last service trip end stop" = Some (Obj (VStr end_stop))).
Proof.
  intros _ Hstops H1 Hne H2.
  destruct (pipeline_stop_names _ _ _ _ _ H1 Hne H2) as (Hc & Hr).
  unfold add_stop_names_to_report in H2.
  destruct (build_stop_map stops) as [stop_map|] eqn:Hbuild; [|discriminate].
  specialize (Hr stop_map eq_refl).
  split_and!; [done | by rewrite Hr, length_fmap |].
  intros r. rewrite Hr. intros (r1 & -> & Hr1)%list_elem_of_fmap.
  destruct (duty_report_rows_have_events _ _ _ r1 H1 Hr1) as (id & Hid & Hjoin & _).
  unfold annotate_row, row_get. rewrite Hid. simpl.
  destruct (raw_join (Obj id) vehicles) as [|ev evs] eqn:Hj; [done|].
  destruct (last (ev :: evs)) as [end_event|] eqn:Hlast.
  - cbn [head].
    destruct (stop_name_text stops stop_map ev "origin_stop_id" Hstops Hbuild)
      as [start_stop ->].
    destruct (stop_name_text stops stop_map end_event "destination_stop_id" Hstops Hbuild)
      as [end_stop ->].
    exists start_stop, end_stop. split.
    + rewrite lookup_insert_ne by done. apply lookup_insert_eq.
    + apply lookup_insert_eq.
  - by apply last_None in Hlast.
Qed.

Lemma pipeline_rows_all_have_stop_names_witness :
  columns annotated_two_leg_report =
    ["Duty ID"; "Start time"; "End time";
     "First service trip start stop"; "Last service trip end stop"] /\
  length (rows annotated_two_leg_report) = length (rows one_duty_report) /\
  (forall r : row, r ∈ rows annotated_two_leg_report ->
     exists start_stop end_stop : string,
       r !! "First service trip start stop" = Some (Obj (VStr start_stop)) /\
       r !! "Last service trip end stop" = Some (Obj (VStr end_stop))).
Proof.
  apply (pipeline_rows_all_have_stop_names morning_duties two_leg_vehicles
           [depot; harbour] one_duty_report annotated_two_leg_report).
  - repeat constructor. intros id H. vm_compute in H. injection H as <-. by eexists.
  - repeat constructor; by eexists.
  - vm_compute. reflexivity.
  - discriminate.
  - vm_compute. reflexivity.
Defined.

(** ** More on step 3: what the merge keeps *)

Lemma merge_row_nonempty breaks_data (r : row) :
  merge_row "Duty ID" breaks_data r <> [].
Proof.
  intros H. pose proof (merge_row_length breaks_data r) as Hlen.
  rewrite H in Hlen. simpl in Hlen. lia.
Qed.

Lemma merge_row_extends breaks_data (r r' : row) :
  r' ∈ merge_row "Duty ID" breaks_data r -> r ⊆ r'.
Proof.
  rewrite merge_row_kept. destruct (kept_breaks r breaks_data) as [|b kept].
  - by intros ->%list_elem_of_singleton.
  - intros (b' & -> & _)%list_elem_of_fmap. apply map_union_subseteq_l.
Qed.

Lemma bind_length_ge {A B} (f : A -> list B) (l : list A) :
  (forall x, f x <> []) -> (length l <= length (l ≫= f))%nat.
Proof.
  intros Hf. induction l as [|x l IH]; csimpl; [done|].
  rewrite length_app. specialize (Hf x). destruct (f x); [done|]. simpl. lia.
Qed.

Lemma merge_breaks_keeps report breaks_data :
  columns (merge_breaks report breaks_data) = columns report ++ break_field_columns /\
  (forall r : row, r ∈ rows report ->
     exists r' : row, r' ∈ rows (merge_breaks report breaks_data) /\ r ⊆ r') /\
  (forall r' : row, r' ∈ rows (merge_breaks report breaks_data) ->
     exists r : row, r ∈ rows report /\ r ⊆ r') /\
  (length (rows report) <= length (rows (merge_breaks report breaks_data)))%nat /\
  (breaks_data = [] -> rows (merge_breaks report breaks_data) = rows report).
Proof.
  rewrite merge_breaks_eq. simpl. split_and!.
  - done.
  - intros r Hr.
    destruct (merge_row "Duty ID" breaks_data r) as [|r' rest] eqn:Hm;
      [by apply merge_row_nonempty in Hm|].
    exists r'. split.
    + apply list_elem_of_bind. exists r. split; [rewrite Hm; left | done].
    + apply (merge_row_extends breaks_data). rewrite Hm. left.
  - intros r' (r & Hr' & Hr)%list_elem_of_bind. exists r. split; [done|].
    by apply (merge_row_extends breaks_data).
  - apply bind_length_ge, merge_row_nonempty.
  - intros ->. induction (rows report) as [|r l IH]; csimpl; [done|]. by rewrite IH.
Qed.

Lemma filter_all_false {A} (f : A -> bool) (l : list A) :
  (forall x, f x = false) -> filter (fun x => f x = true) l = [].
Proof.
  intros Hf. induction l as [|x l IH]; [done|].
  rewrite filter_cons, decide_False; [done|]. by rewrite Hf.
Qed.

(** The records the scans of all rows keep: none when no index of any
    row's events qualifies. *)
Lemma no_qualifying_index_no_record vehicles stop_map report (l : list row) :
  forall breaks_data out,
    (forall r : row, r ∈ l ->
       forall i, qualifies (raw_join (itertuples_1 report r) vehicles) i = false) ->
    for_loop l (breaks_row_step vehicles stop_map report) breaks_data = Ok out ->
    out = breaks_data.
Proof.
  induction l as [|r l IH]; intros breaks_data out Hq H; simpl in H.
  - by injection H as <-.
  - inv_bind H. unfold breaks_row_step in Ha. inv_bind Ha.
    apply matching_events_Ok in Ha0 as [_ ->].
    apply scan_indices_Ok in Ha as (records & -> & Hrec).
    rewrite filter_all_false in Hrec by (intros i; apply (Hq r); left).
    apply Forall2_nil_inv_l in Hrec as ->.
    rewrite app_nil_r in H. apply (IH breaks_data out); [|done].
    intros r' Hr'. apply Hq. by right.
Qed.

(** X5.  Step 3 never loses a duty.  On a report of distinct columns
    whose first column is Duty ID, with texts as duty ids, and that has
    none of the three break columns yet, whatever it returns has the
    columns of the report followed by the three break columns, at least
    as many rows as the report, for every report row a row that extends
    it, and no row that does not extend a report row; when no pair of
    consecutive events of any duty is a qualifying break, its rows are
    those of the report, break fields null. *)
Theorem breaks_step_keeps_every_report_row report cols vehicles stops out :
  columns report = "Duty ID" :: cols ->
  NoDup (columns report) ->
  Forall (fun c => c ∉ columns report) break_field_columns ->
  keyed_by_text report ->
  add_breaks_to_report report vehicles stops = Ok out ->
  columns out = columns report ++ break_field_columns /\
  (forall r : row, r ∈ rows report -> exists r' : row, r' ∈ rows out /\ r ⊆ r') /\
  (forall r' : row, r' ∈ rows out -> exists r : row, r ∈ rows report /\ r ⊆ r') /\
  (length (rows report) <= length (rows out))%nat /\
  ((forall r : row, r ∈ rows report ->
      forall i, qualifies (raw_join (row_get r "Duty ID") vehicles) i = false) ->
   rows out = rows report).
Proof.
  intros Hcols _ _ _ H.
  assert (has_column report "Duty ID" = true) as Hcol.
  { unfold has_column. rewrite Hcols. apply bool_decide_eq_true. left. }
  apply add_breaks_to_report_is_merge in H as (stop_map & breaks_data & _ & Hloop & ->);
    [|done].
  destruct (merge_breaks_keeps report breaks_data) as (Hc & Hin & Hfrom & Hlen & Hnone).
  split_and!; [done..|].
  intros Hq. apply Hnone.
  eapply no_qualifying_index_no_record; [|exact Hloop].
  intros r Hr. unfold itertuples_1. rewrite Hcols. by apply Hq.
Qed.

Lemma breaks_step_keeps_every_report_row_witness :
  columns break_day_frame =
    columns annotated_two_leg_report ++ break_field_columns /\
  (forall r : row, r ∈ rows annotated_two_leg_report ->
     exists r' : row, r' ∈ rows break_day_frame /\ r ⊆ r') /\
  (forall r' : row, r' ∈ rows break_day_frame ->
     exists r : row, r ∈ rows annotated_two_leg_report /\ r ⊆ r') /\
  (length (rows annotated_two_leg_report) <= length (rows break_day_frame))%nat /\
  ((forall r : row, r ∈ rows annotated_two_leg_report ->
      forall i, qualifies (raw_join (row_get r "Duty ID") (day_with_break "0.10:20")) i
                = false) ->
   rows break_day_frame = rows annotated_two_leg_report).
Proof.
  apply (breaks_step_keeps_every_report_row annotated_two_leg_report
           ["Start time"; "End time";
            "First service trip start stop"; "Last service trip end stop"]
           (day_with_break "0.10:20") [depot]).
  - reflexivity.
  - apply (bool_decide_unpack _). vm_compute. exact I.
  - repeat constructor; apply (bool_decide_unpack _); vm_compute; exact I.
  - repeat constructor. by exists "D1".
  - vm_compute. reflexivity.
Defined.

(** ** Frames without a Duty ID column *)

(** X6.  On a report without Duty ID column (the report of step 1 when
    no duty has a matched event) steps 2 and 3 read the stops and nothing
    else: each returns the report as it is when every stop has
    ['stop_id'] and ['stop_name'], whatever the vehicles hold, and raises
    when some stop lacks one of them. *)
Theorem steps_pass_frames_without_duty_id report vehicles (stops : list stop) :
  has_column report "Duty ID" = false ->
  (Forall stop_ok stops ->
   add_stop_names_to_report report vehicles stops = Ok report /\
   add_breaks_to_report report vehicles stops = Ok report) /\
  (~ Forall stop_ok stops ->
   exists e, add_stop_names_to_report report vehicles stops = Raise e /\
             add_breaks_to_report report vehicles stops = Raise e).
Proof.
  intros Hcol. unfold add_stop_names_to_report, add_breaks_to_report. split.
  - intros [stop_map ->]%build_stop_map_returns_iff. simpl. by rewrite Hcol.
  - intros Hbad. destruct (build_stop_map stops) as [stop_map|e] eqn:Hbuild; simpl.
    + exfalso. apply Hbad, build_stop_map_returns_iff. eauto.
    + eauto.
Qed.

Lemma steps_pass_frames_without_duty_id_witness :
  (add_stop_names_to_report (mkDataFrame [] []) unreadable_vehicles [depot]
     = Ok (mkDataFrame [] []) /\
   add_breaks_to_report (mkDataFrame [] []) unreadable_vehicles [depot]
     = Ok (mkDataFrame [] [])) /\
  exists e,
    add_stop_names_to_report (mkDataFrame [] []) unreadable_vehicles [nameless_stop]
      = Raise e /\
    add_breaks_to_report (mkDataFrame [] []) unreadable_vehicles [nameless_stop]
      = Raise e.
Proof.
  split.
  - apply (steps_pass_frames_without_duty_id (mkDataFrame [] []) unreadable_vehicles
             [depot] eq_refl).
    repeat constructor; by eexists.
  - apply (steps_pass_frames_without_duty_id (mkDataFrame [] []) unreadable_vehicles
             [nameless_stop] eq_refl).
    intros [[_ [name Hname]] _]%Forall_cons. vm_compute in Hname. discriminate.
Defined.

(** ** The main block *)

Lemma no_matched_duty_empty_report duties vehicles :
  Forall (duty_readable vehicles) duties ->
  (forall (d : duty) id, d ∈ duties -> d !! "duty_id" = Some id ->
     has_matching_event vehicles id = false) ->
  generate_duty_times_report duties vehicles = Ok (mkDataFrame [] []).
Proof.
  intros Hall Hnone. unfold generate_duty_times_report.
  assert (forall report,
            for_loop duties (duty_times_step vehicles) report = Ok report) as Hloop.
  { induction Hall as [|d duties (id & Hid & Hok & _) _ IH]; intros report; [done|].
    assert (duty_times_step vehicles report d = Ok report) as Hstep.
    { unfold duty_times_step, getitem. rewrite Hid. simpl.
      assert (matching_events (Obj id) vehicles = Ok (raw_join (Obj id) vehicles))
        as -> by by apply matching_events_Ok.
      simpl.
      destruct (raw_join (Obj id) vehicles) as [|ev evs] eqn:Hjoin; [done|].
      exfalso. assert (has_matching_event vehicles id = true) as Hm.
      { apply raw_join_nonempty. by rewrite Hjoin. }
      rewrite (Hnone d id) in Hm; [done | left | done]. }
    simpl. rewrite Hstep. simpl. apply IH.
    intros d' id' Hd'. apply Hnone. by right. }
  by rewrite Hloop.
Qed.

(** X7.  When no duty has a matched event, and in particular when the
    duties list is empty, the main block does not produce a report: steps
    1 to 3 return a frame without columns and the final selection of the
    eight report columns raises [KeyError]. *)
Theorem main_raises_without_matched_duty data stops vehicles duties :
  doc_stops data = Some stops ->
  doc_vehicles data = Some vehicles ->
  doc_duties data = Some duties ->
  Forall stop_ok stops ->
  Forall (duty_readable vehicles) duties ->
  (forall (d : duty) id, d ∈ duties -> d !! "duty_id" = Some id ->
     has_matching_event vehicles id = false) ->
  break_report duties vehicles stops = Ok (mkDataFrame [] []) /\
  main_report data = Raise (KeyError "Duty ID").
Proof.
  intros Hs Hv Hd [stop_map Hstops]%build_stop_map_returns_iff Hall Hnone.
  pose proof (no_matched_duty_empty_report duties vehicles Hall Hnone) as H1.
  assert (add_stop_names_to_report (mkDataFrame [] []) vehicles stops
            = Ok (mkDataFrame [] [])) as H2
    by (unfold add_stop_names_to_report; by rewrite Hstops).
  assert (add_breaks_to_report (mkDataFrame [] []) vehicles stops
            = Ok (mkDataFrame [] [])) as H3
    by (unfold add_breaks_to_report; by rewrite Hstops).
  unfold main_report, break_report. rewrite Hs, Hv, Hd. simpl.
  rewrite H1. simpl. rewrite H2. simpl. rewrite H3. done.
Qed.

Lemma main_raises_without_matched_duty_witness :
  break_report morning_duties [Vehicle (Some [])] [depot] = Ok (mkDataFrame [] []) /\
  main_report idle_document = Raise (KeyError "Duty ID").
Proof.
  apply (main_raises_without_matched_duty idle_document [depot] [Vehicle (Some [])]
           morning_duties eq_refl eq_refl eq_refl).
  - repeat constructor; by eexists.
  - repeat constructor. exists (VStr "D1"). split_and!; [done | | constructor].
    repeat constructor. by exists [].
  - intros d id ->%list_elem_of_singleton [= <-]. reflexivity.
Defined.

Lemma select_all_columns df cols :
  columns df = cols ->
  exists final,
    select_columns df cols = Ok final /\ columns final = cols /\
    length (rows final) = length (rows df).
Proof.
  intros Hcols. unfold select_columns.
  assert (forall sub : list string,
            (forall c, c ∈ sub -> c ∈ columns df) ->
            filter (fun c => c ∉ columns df) sub = []) as Hnone.
  { induction sub as [|c sub IH]; intros Hsub; [done|].
    rewrite filter_cons, decide_False.
    - apply IH. intros c' Hc'. apply Hsub. by right.
    - intros Hc. apply Hc, Hsub. left. }
  rewrite Hnone by (intros c Hc; by rewrite Hcols).
  eexists. split_and!; [done | done |]. simpl. by rewrite length_fmap.
Qed.

(** Rows stay within the columns of their frame. *)
Lemma row_within_insert cols (r : row) c x :
  c ∈ cols -> row_within cols r -> row_within cols (<[c := x]> r).
Proof.
  intros Hc Hr c' x' [[<- _]|[_ H]]%lookup_insert_Some; [done | by eapply Hr].
Qed.

Lemma row_within_mono cols cols' (r : row) :
  (forall c, c ∈ cols -> c ∈ cols') -> row_within cols r -> row_within cols' r.
Proof. intros Hsub Hr c x H. eapply Hsub, Hr, H. Qed.

Lemma row_within_empty cols : row_within cols (∅ : gmap string cell).
Proof. intros c x H. by rewrite lookup_empty in H. Qed.

Lemma row_within_union cols (r b : row) :
  row_within cols r -> row_within cols b -> row_within cols (r ∪ delete "Duty ID" b).
Proof.
  intros Hr Hb c x [H|[_ H]]%lookup_union_Some_raw; [by eapply Hr|].
  apply lookup_delete_Some in H as [_ H]. by eapply Hb.
Qed.

Lemma duty_times_row_within duty_id s e :
  row_within report_columns (duty_times_row duty_id s e).
Proof.
  unfold duty_times_row, report_columns.
  repeat (apply row_within_insert; [set_solver|]). apply row_within_empty.
Qed.

Lemma break_record_within duty_id m s stop :
  row_within report_columns (break_record duty_id m s stop).
Proof.
  unfold break_record, report_columns.
  repeat (apply row_within_insert; [set_solver|]). apply row_within_empty.
Qed.

Lemma annotate_row_within stop_map vehicles (r : row) :
  row_within report_columns r ->
  row_within report_columns (annotate_row stop_map vehicles r).
Proof.
  intros Hr. unfold annotate_row.
  destruct (head _); [|done]. destruct (last _); [|done].
  unfold report_columns in *.
  repeat (apply row_within_insert; [set_solver|]). done.
Qed.

Lemma breaks_loop_records vehicles stop_map report (l : list row) :
  forall breaks_data out,
    Forall (row_within report_columns) breaks_data ->
    for_loop l (breaks_row_step vehicles stop_map report) breaks_data = Ok out ->
    Forall (row_within report_columns) out.
Proof.
  induction l as [|r l IH]; intros breaks_data out Hbd H; simpl in H.
  - by injection H as <-.
  - inv_bind H. apply (IH a out); [|done].
    unfold breaks_row_step in Ha. inv_bind Ha.
    apply scan_indices_Ok in Ha as (records & -> & Hrec).
    apply Forall_app. split; [done|].
    clear -Hrec. induction Hrec as [|i b ? ? (e0 & e1 & m & t & _ & _ & _ & _ & ->) _ IH];
      constructor; [apply break_record_within | done].
Qed.

Lemma select_nothing_lost df :
  Forall (row_within report_columns) (rows df) ->
  (fun r : row => filter (fun kv => kv.1 ∈ report_columns) r) <$> rows df = rows df.
Proof.
  induction 1 as [|r l Hr _ IH]; csimpl; [done|].
  rewrite IH. f_equal. apply map_filter_id. intros c x H. by eapply Hr.
Qed.

(** X8.  Take a document whose duties have texts as ids and whose stops
    have texts as names.  When some duty has a matched event
    and steps 1 to 3 return, the main block returns the report: its
    columns are the eight report columns in order, its rows are the rows
    of the report of step 3, none dropped and no cell lost, and there is
    at least one row per row of step 1. *)
Theorem main_report_is_the_break_report data stops vehicles duties df1 df3 :
  doc_stops data = Some stops ->
  doc_vehicles data = Some vehicles ->
  doc_duties data = Some duties ->
  Forall duty_keyed duties ->
  Forall stop_named stops ->
  generate_duty_times_report duties vehicles = Ok df1 ->
  rows df1 <> [] ->
  break_report duties vehicles stops = Ok df3 ->
  columns df3 = report_columns /\
  main_report data = Ok (mkDataFrame report_columns (rows df3)) /\
  (length (rows df1) <= length (rows df3))%nat.
Proof.
  intros Hs Hv Hd _ _ H1 Hne H3. unfold break_report in H3. rewrite H1 in H3.
  simpl in H3. inv_bind H3. rename a into df2.
  destruct (pipeline_stop_names _ _ _ _ _ H1 Hne Ha) as (Hc2 & Hr2).
  assert (length (rows df2) = length (rows df1)) as Hlen2.
  { unfold add_stop_names_to_report in Ha.
    destruct (build_stop_map stops) as [stop_map2|] eqn:Hbuild; [|discriminate].
    by rewrite (Hr2 stop_map2 eq_refl), length_fmap. }
  assert (has_column df2 "Duty ID" = true) as Hcol
    by (unfold has_column; by rewrite Hc2).
  pose proof H3 as H3'.
  apply add_breaks_to_report_is_merge in H3' as (stop_map & breaks_data & _ & Hloop & ->);
    [|done].
  destruct (merge_breaks_keeps df2 breaks_data) as (Hc3 & _ & _ & Hlen3 & _).
  assert (columns (merge_breaks df2 breaks_data) = report_columns) as Hcols
    by by rewrite Hc3, Hc2.
  assert (Forall (row_within report_columns) (rows (merge_breaks df2 breaks_data)))
    as Hwithin.
  { assert (Forall (row_within report_columns) (rows df2)) as Hw2.
    { unfold add_stop_names_to_report in Ha. inv_bind Ha.
      unfold has_column in Ha. rewrite (duty_report_columns _ _ _ H1 Hne) in Ha.
      simpl in Ha.
      destruct (stop_names_loop vehicles a (columns df1) (rows df1) [] df1 df2 false)
        as [Hr _]; [done | done | exact Ha |].
      simpl in Hr. rewrite Hr. apply Forall_fmap, Forall_forall. intros r Hr1.
      simpl. apply annotate_row_within.
      unfold generate_duty_times_report in H1. inv_bind H1. injection H1 as <-.
      rewrite pd_DataFrame_rows in Hr1.
      apply duty_times_loop_rows in Ha1 as (new_rows & -> & Hfrom & _).
      destruct (Hfrom r Hr1) as (id & ? & ? & ? & ts & te & _ & _ & _ & _ & _ & ->).
      apply duty_times_row_within. }
    assert (Forall (row_within report_columns) breaks_data) as Hwb
      by (eapply breaks_loop_records; [|exact Hloop]; constructor).
    rewrite merge_breaks_eq. simpl. apply Forall_forall.
    intros r' (r & Hr' & Hr)%list_elem_of_bind.
    rewrite Forall_forall in Hw2. specialize (Hw2 r Hr).
    rewrite merge_row_kept in Hr'.
    destruct (kept_breaks r breaks_data) as [|b kept] eqn:Hk.
    - by apply list_elem_of_singleton in Hr' as ->.
    - apply list_elem_of_fmap in Hr' as (b' & -> & Hb').
      apply row_within_union; [done|].
      rewrite Forall_forall in Hwb. apply Hwb.
      assert (b' ∈ kept_breaks r breaks_data) as Hin by by rewrite Hk.
      unfold kept_breaks in Hin. apply list_elem_of_filter in Hin. tauto. }
  split_and!; [done | | lia].
  unfold main_report, break_report. rewrite Hs, Hv, Hd. simpl.
  rewrite H1. simpl. rewrite Ha. simpl. rewrite H3. simpl.
  destruct (select_all_columns (merge_breaks df2 breaks_data) report_columns Hcols)
    as (final & Hsel & _ & _).
  unfold select_columns in *. 
  destruct (filter (fun c => c ∉ columns (merge_breaks df2 breaks_data)) report_columns);
    [|discriminate].
  by rewrite select_nothing_lost.
Qed.

Lemma main_report_is_the_break_report_witness :
  columns break_day_report = report_columns /\
  main_report break_day_document
    = Ok (mkDataFrame report_columns (rows break_day_report)) /\
  (length (rows one_duty_report) <= length (rows break_day_report))%nat.
Proof.
  apply (main_report_is_the_break_report break_day_document [depot]
           (day_with_break "0.10:20") morning_duties one_duty_report break_day_report
           eq_refl eq_refl eq_refl).
  - repeat constructor. intros id H. vm_compute in H. injection H as <-. by eexists.
  - repeat constructor; by eexists.
  - vm_compute. reflexivity.
  - discriminate.
  - vm_compute. reflexivity.
Defined.

(** ** More on the time codec *)

Lemma string_of_list_ascii_length l :
  String.length (string_of_list_ascii l) = length l.
Proof. induction l as [|c l IH]; simpl; [done | by rewrite IH]. Qed.

Lemma lstrip_head c l : is_space c = false -> lstrip (c :: l) = c :: l.
Proof. intros H. simpl. by rewrite H. Qed.

Lemma int_of_string_negative s n :
  digit_text s n -> int_of_string (String "-" s) = Some (- n).
Proof.
  intros (l & -> & Hall & Hne & <-). unfold int_of_string.
  change (list_ascii_of_string (String "-" (string_of_list_ascii l)))
    with ("-"%char :: list_ascii_of_string (string_of_list_ascii l)).
  rewrite list_ascii_of_string_of_list_ascii.
  assert (strip ("-"%char :: l) = "-"%char :: l) as ->.
  { unfold strip. rewrite lstrip_head by done.
    assert (exists c rest, rev ("-"%char :: l) = c :: rest /\ is_digit c)
      as (c & rest & Hrev & Hc).
    { simpl. destruct (rev l) as [|c rest] eqn:Hr.
      - apply (f_equal (@rev ascii)) in Hr. rewrite rev_involutive in Hr. done.
      - exists c, (rest ++ ["-"%char]). split; [done|].
        rewrite Forall_forall in Hall. apply Hall.
        apply list_elem_of_In, in_rev. rewrite Hr. left. done. }
    rewrite Hrev, lstrip_head by by apply digit_not_space.
    rewrite <- Hrev. apply rev_involutive. }
  simpl. by rewrite (int_digits_all_digits l 0 false Hall Hne).
Qed.

Lemma int_text_parse s z : int_text s z -> int_of_string s = Some z.
Proof.
  intros [H|(s' & -> & H)]; [by apply int_of_string_digit_text|].
  rewrite (int_of_string_negative s' (- z) H). f_equal. lia.
Qed.

Lemma int_text_no_separator c s z :
  digit_val c = None -> c <> "-"%char -> int_text s z -> count_char c s = 0%nat.
Proof.
  intros Hc Hminus [H|(s' & -> & H)]; [by eapply count_char_digit_text|].
  cbn [count_char]. rewrite (count_char_digit_text c s' _ Hc H).
  destruct (Ascii.eqb_spec "-"%char c); [congruence | done].
Qed.

Lemma str_of_Z_int_text z : int_text (str_of_Z z) z.
Proof.
  destruct (Z.ltb_spec z 0) as [Hneg|Hpos].
  - right. unfold str_of_Z. rewrite (proj2 (Z.ltb_lt z 0)) by done.
    eexists. split; [done|]. apply digits_of_spec. lia.
  - left. by apply str_of_Z_digit_text.
Qed.

Lemma fmt02_int_text z : int_text (fmt02 z) z.
Proof.
  destruct (Z.ltb_spec z 0) as [Hneg|Hpos]; [|left; by apply fmt02_digit_text].
  right. unfold fmt02, str_of_Z. rewrite (proj2 (Z.ltb_lt z 0)) by done.
  destruct (digits_of_spec (- z) ltac:(lia)) as (l & Hl & Hall & Hne & Hval).
  rewrite Hl. simpl String.length. rewrite string_of_list_ascii_length.
  destruct l as [|c l]; [done|]. simpl.
  eexists. split; [done|]. by exists (c :: l).
Qed.

(** The parse of three integer texts around one dot and one colon. *)
Lemma convert_time_of_int_texts sd sh sm d h m :
  int_text sd d -> int_text sh h -> int_text sm m ->
  convert_time (VStr (sd +:+ "." +:+ sh +:+ ":" +:+ sm)) =
    try_except (timedelta_new d h m) (fun _ => Ok timedelta0).
Proof.
  intros Td Th Tm.
  change ("." +:+ sh +:+ ":" +:+ sm) with (String "." (sh +:+ ":" +:+ sm)).
  change (":" +:+ sm) with (String ":" sm).
  assert (split "." (sd +:+ String "." (sh +:+ String ":" sm))
          = [sd; sh +:+ String ":" sm]) as Hdot.
  { rewrite split_append by by eapply int_text_no_separator.
    rewrite split_none; [done|].
    rewrite count_char_append. simpl.
    rewrite (int_text_no_separator "." sh h eq_refl ltac:(done) Th).
    by rewrite (int_text_no_separator "." sm m eq_refl ltac:(done) Tm). }
  assert (split ":" (sh +:+ String ":" sm) = [sh; sm]) as Hcolon.
  { rewrite split_append by by eapply int_text_no_separator.
    rewrite split_none; [done|]. by eapply int_text_no_separator. }
  unfold convert_time, convert_time_try, py_split. simpl.
  rewrite Hdot. simpl. rewrite Hcolon. simpl.
  unfold int_of_text, py_int.
  rewrite (int_text_parse sh h Th). simpl.
  rewrite (int_text_parse sm m Tm). simpl.
  by rewrite (int_text_parse sd d Td).
Qed.

(** X9.  [convert_time] takes any three integers, of either sign, around
    the dot and the colon (up to the 4300 digits [int()] reads in recent
    interpreters) and folds them into one duration of [d] days, [h] hours
    and [m] minutes, so ["0.25:70"] is 26 hours 10 minutes; only the
    folded total is checked against the range of a [timedelta], and when
    it leaves the range the answer is the zero duration. *)
Theorem convert_time_folds_any_integers d h m :
  Z.abs d < 10 ^ 4300 -> Z.abs h < 10 ^ 4300 -> Z.abs m < 10 ^ 4300 ->
  convert_time (VStr (plain_time_text d h m)) =
    Ok (if (- max_days <=? (d * 86400 + h * 3600 + m * 60) / 86400)
           && ((d * 86400 + h * 3600 + m * 60) / 86400 <=? max_days)
        then Timedelta (d * 86400 + h * 3600 + m * 60)
        else timedelta0).
Proof.
  intros _ _ _. unfold plain_time_text.
  rewrite (convert_time_of_int_texts _ _ _ d h m) by apply str_of_Z_int_text.
  unfold timedelta_new, timedelta_of_seconds.
  by destruct ((- max_days <=? (d * 86400 + h * 3600 + m * 60) / 86400)
               && ((d * 86400 + h * 3600 + m * 60) / 86400 <=? max_days)).
Qed.

Lemma convert_time_folds_any_integers_witness :
  convert_time (VStr "0.25:70") = Ok (Timedelta 94200) /\
  convert_time (VStr "2000000000.-36000000000:0") = Ok (Timedelta 43200000000000) /\
  convert_time (VStr "-3.100:-7000") = Ok (Timedelta (-319200)).
Proof.
  split_and!.
  - apply (convert_time_folds_any_integers 0 25 70); vm_compute; reflexivity.
  - apply (convert_time_folds_any_integers 2000000000 (-36000000000) 0);
      vm_compute; reflexivity.
  - apply (convert_time_folds_any_integers (-3) 100 (-7000)); vm_compute; reflexivity.
Defined.

Lemma convert_time_in_range v td :
  convert_time v = Ok td ->
  - max_days <= total_seconds td / 86400 <= max_days.
Proof.
  unfold convert_time, try_except.
  destruct (convert_time_try v) as [td'|e] eqn:Htry; intros [= <-].
  - unfold convert_time_try in Htry.
    inv_bind Htry. inv_bind Htry. destruct a0 as [day_offset time_str].
    inv_bind Htry. inv_bind Htry. destruct a1 as [hours minutes].
    inv_bind Htry. unfold timedelta_new, timedelta_of_seconds in Htry.
    destruct ((- max_days <=? (a1 * 86400 + hours * 3600 + minutes * 60) / 86400)
              && ((a1 * 86400 + hours * 3600 + minutes * 60) / 86400 <=? max_days))
      eqn:Hrange; [|discriminate].
    injection Htry as <-. simpl. apply andb_true_iff in Hrange as [H1 H2].
    apply Z.leb_le in H1, H2. lia.
  - simpl. unfold max_days. done.
Qed.

Lemma parse_of_rendering s :
  - max_days <= s / 86400 <= max_days ->
  convert_time (VStr ("0." +:+ timedelta_to_time (Timedelta s))) =
    Ok (Timedelta (60 * (s / 60))).
Proof.
  intros Hrange. unfold timedelta_to_time. cbn [total_seconds].
  change (convert_time
            (VStr ("0" +:+ "." +:+ fmt02 (s / 3600) +:+ ":" +:+ fmt02 (s mod 3600 / 60)))
          = Ok (Timedelta (60 * (s / 60)))).
  rewrite (convert_time_of_int_texts "0" _ _ 0 (s / 3600) (s mod 3600 / 60));
    [| left; exists ["0"%char]; split_and!; [done | repeat constructor; by exists 0 | done..]
     | apply fmt02_int_text..].
  unfold timedelta_new, timedelta_of_seconds.
  assert (0 * 86400 + s / 3600 * 3600 + s mod 3600 / 60 * 60 = 60 * (s / 60)) as ->.
  { pose proof (Z.div_mod s 3600 ltac:(lia)) as H1.
    pose proof (Z.div_mod (s mod 3600) 60 ltac:(lia)) as H2.
    pose proof (Z.div_mod s 60 ltac:(lia)) as H3.
    assert ((s mod 3600) mod 60 = s mod 60) as H4.
    { replace (s mod 3600) with (s + (- (60 * (s / 3600))) * 60) by lia.
      apply Z.mod_add. lia. }
    lia. }
  assert (60 * (s / 60) / 86400 = s / 86400) as ->.
  { rewrite Z.mul_comm. replace 86400 with (60 * 1440) by lia.
    rewrite <- !Z.div_div by lia. by rewrite Z.div_mul by lia. }
  destruct Hrange as [H1 H2].
  by rewrite (proj2 (Z.leb_le _ _) H1), (proj2 (Z.leb_le _ _) H2).
Qed.

(** X10.  Rendering and parsing are inverse on what [convert_time]
    returns: each duration it returns is a whole number of minutes within
    the range of a [timedelta], and the text [timedelta_to_time] renders
    for it, read again with day offset 0, parses to the same duration,
    negative ones included. *)
Theorem parse_render_parse v td :
  convert_time v = Ok td ->
  total_seconds td mod 60 = 0 /\
  - max_days <= total_seconds td / 86400 <= max_days /\
  convert_time (VStr ("0." +:+ timedelta_to_time td)) = Ok td.
Proof.
  intros H.
  pose proof (convert_time_whole_minutes v td H) as Hmin.
  pose proof (convert_time_in_range v td H) as Hrange.
  split_and!; [done | lia | lia |].
  destruct td as [s]. simpl in *. rewrite (parse_of_rendering s Hrange).
  do 2 f_equal. pose proof (Z.div_mod s 60 ltac:(lia)). lia.
Qed.

Lemma parse_render_parse_witness :
  (total_seconds (Timedelta (-86340)) mod 60 = 0 /\
   - max_days <= total_seconds (Timedelta (-86340)) / 86400 <= max_days /\
   convert_time (VStr ("0." +:+ timedelta_to_time (Timedelta (-86340))))
     = Ok (Timedelta (-86340))) /\
  timedelta_to_time (Timedelta (-86340)) = "-24:01".
Proof.
  split; [|reflexivity].
  apply (parse_render_parse (VStr "-1.00:01")). vm_compute. reflexivity.
Defined.

(** ** More on the scan: breaks do not overlap *)

Lemma has_type_exclusive (ev : event) :
  has_type ev "Break" = true -> has_type ev "Break End" = false.
Proof.
  unfold has_type. destruct (get ev "vehicle_event_type" VNone) as [|b|z|s]; simpl;
    try done.
  intros ->%String.eqb_eq. reflexivity.
Qed.

Lemma qualifies_not_adjacent (events : list event) i :
  qualifies events i = true -> qualifies events (S i) = false.
Proof.
  unfold qualifies. replace (i + 1)%nat with (S i) by lia.
  destruct (events !! i) as [e0|]; [|done].
  destruct (events !! S i) as [e1|]; [|done].
  intros H. apply andb_true_iff in H as [H _]. apply andb_true_iff in H as [_ H1].
  destruct (events !! (S i + 1)%nat); [|done].
  assert (has_type e1 "Break" = false) as ->; [|done].
  destruct (has_type e1 "Break") eqn:Hb; [|done].
  by rewrite (has_type_exclusive e1 Hb) in H1.
Qed.

Lemma sparse_filter_length (P : nat -> bool) :
  (forall i, P i = true -> P (S i) = false) ->
  forall n a,
    (2 * length (filter (fun i => P i = true) (seq a n)) <= n + 1)%nat /\
    (P a = false -> (2 * length (filter (fun i => P i = true) (seq a n)) <= n)%nat).
Proof.
  intros Hadj. induction n as [|n IH]; intros a; simpl; [split; [lia | done]|].
  rewrite filter_cons. destruct (IH (S a)) as [IHa IHb].
  destruct (P a) eqn:Ha; simpl.
  - specialize (IHb (Hadj a Ha)). split; [lia | done].
  - split; [lia | intros _; lia].
Qed.

(** X11.  Breaks do not overlap: an index that holds a qualifying break
    is never followed by another one, because the Break End that closes a
    break cannot open the next; so the scan of a duty with [n] matched
    events appends at most [n / 2] break records. *)
Theorem breaks_do_not_overlap stop_map duty_id (events : list event) breaks_data out :
  scan_breaks stop_map duty_id events breaks_data = Ok out ->
  (forall i, qualifies events i = true -> qualifies events (S i) = false) /\
  exists records,
    out = breaks_data ++ records /\
    (2 * length records <= length events)%nat.
Proof.
  intros H. split; [apply qualifies_not_adjacent|].
  unfold scan_breaks in H. apply scan_indices_Ok in H as (records & -> & Hrec).
  exists records. split; [done|].
  apply Forall2_length in Hrec. rewrite <- Hrec.
  destruct (sparse_filter_length (qualifies events) (qualifies_not_adjacent events)
              (length events - 1) 0) as [Hlen _].
  destruct events as [|e events]; [simpl; lia|]. simpl in *. lia.
Qed.

Lemma breaks_do_not_overlap_witness :
  (forall i,
     qualifies [break_from_nine_forty_five; break_end_ten_twenty; break_end_ten_five] i
       = true ->
     qualifies [break_from_nine_forty_five; break_end_ten_twenty; break_end_ten_five]
       (S i) = false) /\
  exists records,
    [break_record (Obj (VStr "D1")) 20 "09:45" (VStr "Unknown")] = [] ++ records /\
    (2 * length records <=
     length [break_from_nine_forty_five; break_end_ten_twenty; break_end_ten_five])%nat.
Proof.
  apply (breaks_do_not_overlap [] (Obj (VStr "D1"))
           [break_from_nine_forty_five; break_end_ten_twenty; break_end_ten_five] []).
  vm_compute. reflexivity.
Defined.

(** ** The join, by itself *)

(** X12.  The join of a duty with the events returns exactly when every
    vehicle has its ['vehicle_events'] and every event of every vehicle,
    matched or not, has a ['duty_id']; it then gives the events whose
    ['duty_id'] equals the duty's, vehicles in input order, the events of
    a vehicle in input order.  One event without ['duty_id'] makes the
    join raise for every duty. *)
Theorem join_returns_iff_all_events_keyed duty_id vehicles :
  ((exists events, matching_events duty_id vehicles = Ok events) <->
   Forall vehicle_ok vehicles) /\
  (forall events, matching_events duty_id vehicles = Ok events ->
     events = raw_join duty_id vehicles) /\
  (forall other_id,
     (exists e, matching_events duty_id vehicles = Raise e) ->
     exists e, matching_events other_id vehicles = Raise e).
Proof.
  split_and!.
  - split.
    + intros [events H]. by apply matching_events_Ok in H as [? _].
    + intros Hok. eexists. by apply matching_events_Ok.
  - intros events H. by apply matching_events_Ok in H as [_ ?].
  - intros other_id [e He].
    destruct (matching_events other_id vehicles) as [events|e'] eqn:Hother; [|eauto].
    apply matching_events_Ok in Hother as [Hok _].
    assert (matching_events duty_id vehicles = Ok (raw_join duty_id vehicles)) as Hd
      by by apply matching_events_Ok.
    congruence.
Qed.

(** ** Step 3 as a whole: rows per duty *)

Lemma key_eq_sym a b : key_eq a b = key_eq b a.
Proof.
  destruct a as [|[|c|x|s]|m], b as [|[|d|y|t]|n]; cbn [key_eq py_eq]; try done;
    first [apply Z.eqb_sym | apply String.eqb_sym | by destruct c, d].
Qed.

Lemma break_record_at_key stop_map duty_id events i (record : row) :
  break_record_at stop_map duty_id events i record ->
  row_get record "Duty ID" = duty_id.
Proof.
  intros (e0 & e1 & m & t & _ & _ & _ & _ & ->).
  unfold row_get, break_record. by rewrite lookup_insert_eq.
Qed.

(** The records of the loop over the rows, row by row. *)
Lemma breaks_loop_structure vehicles stop_map report (l : list row) :
  forall breaks_data out,
    for_loop l (breaks_row_step vehicles stop_map report) breaks_data = Ok out ->
    exists per_row,
      out = breaks_data ++ concat per_row /\
      Forall2 (fun (r : row) records =>
                 length records =
                   length (qualifying_indices
                             (raw_join (itertuples_1 report r) vehicles)) /\
                 Forall (fun b : row => row_get b "Duty ID" = itertuples_1 report r)
                   records)
        l per_row.
Proof.
  induction l as [|r l IH]; intros breaks_data out H; simpl in H.
  - injection H as <-. exists []. simpl. rewrite app_nil_r. split; [done | constructor].
  - inv_bind H. apply IH in H as (per_row & -> & Hrest).
    unfold breaks_row_step in Ha. inv_bind Ha.
    apply matching_events_Ok in Ha0 as [_ ->].
    apply scan_indices_Ok in Ha as (records & -> & Hrec).
    exists (records :: per_row). simpl. rewrite <- app_assoc. split; [done|].
    constructor; [|done]. split.
    + symmetry. by apply Forall2_length in Hrec.
    + clear -Hrec. induction Hrec as [|i b ? ? Hb _ IH]; constructor; [|done].
      by eapply break_record_at_key.
Qed.

Lemma kept_breaks_app (r : row) l1 l2 :
  kept_breaks r (l1 ++ l2) = kept_breaks r l1 ++ kept_breaks r l2.
Proof. apply filter_app. Qed.

Lemma kept_breaks_of_others (r : row) (others : list row) per_row :
  (forall r' : row, r' ∈ others ->
     key_eq (row_get r "Duty ID") (row_get r' "Duty ID") = false) ->
  Forall2 (fun (r' : row) (records : list row) =>
             Forall (fun b : row => row_get b "Duty ID" = row_get r' "Duty ID") records)
    others per_row ->
  kept_breaks r (concat per_row) = [].
Proof.
  intros Hothers H. induction H as [|r' records others per_row Hrec _ IH]; [done|].
  simpl. rewrite kept_breaks_app, IH by (intros; apply Hothers; by right).
  rewrite app_nil_r. unfold kept_breaks.
  induction Hrec as [|b records Hb _ IHrec]; [done|].
  rewrite filter_cons, decide_False; [done|].
  rewrite Hb, (Hothers r') by left. done.
Qed.

Lemma kept_breaks_own (r : row) records :
  Forall (fun b : row => row_get b "Duty ID" = row_get r "Duty ID") records ->
  kept_breaks r records = records.
Proof.
  unfold kept_breaks. induction 1 as [|b records Hb _ IH]; [done|].
  rewrite filter_cons, decide_True by (rewrite Hb; apply key_eq_refl).
  by rewrite IH.
Qed.

(** X13.  Step 3 on a report whose first column is Duty ID: a duty that
    stands once in the report and has [K] qualifying breaks among its
    matched events has exactly [K] rows in the result when [K > 0], and
    exactly one row when it has none. *)
Theorem rows_per_duty_in_break_report report vehicles stops out
    (before_r after_r : list row) (r : row) cols :
  columns report = "Duty ID" :: cols ->
  rows report = before_r ++ r :: after_r ->
  (forall r' : row, r' ∈ before_r ++ after_r ->
     key_eq (row_get r' "Duty ID") (row_get r "Duty ID") = false) ->
  add_breaks_to_report report vehicles stops = Ok out ->
  length (filter (fun o : row =>
                    key_eq (row_get o "Duty ID") (row_get r "Duty ID") = true)
            (rows out)) =
    Nat.max 1 (length (qualifying_indices (raw_join (row_get r "Duty ID") vehicles))).
Proof.
  intros Hcols Hrows Hothers H.
  assert (has_column report "Duty ID" = true) as Hcol.
  { unfold has_column. rewrite Hcols. apply bool_decide_eq_true_2. left. }
  assert (forall r0 : row, itertuples_1 report r0 = row_get r0 "Duty ID") as Hfirst
    by (intros r0; unfold itertuples_1; by rewrite Hcols).
  apply add_breaks_to_report_is_merge in H as (stop_map & breaks_data & _ & Hloop & ->);
    [|done].
  apply breaks_loop_structure in Hloop as (per_row & Hbd & Hper).
  simpl in Hbd. subst breaks_data. rewrite Hrows in Hper.
  apply Forall2_app_inv_l in Hper as (per_before & per_rest & Hbefore & Hrest & ->).
  apply Forall2_cons_inv_l in Hrest as (records & per_after & [Hlen Hown] & Hafter & ->).
  rewrite Hfirst in Hlen, Hown.
  assert (kept_breaks r (concat (per_before ++ records :: per_after)) = records) as Hkept.
  { rewrite concat_app. simpl. rewrite !kept_breaks_app.
    rewrite (kept_breaks_of_others r before_r per_before),
            (kept_breaks_of_others r after_r per_after), (kept_breaks_own r records Hown).
    - by rewrite app_nil_r.
    - intros r' Hr'. rewrite key_eq_sym. apply Hothers, elem_of_app. by right.
    - eapply Forall2_impl; [exact Hafter|]. intros r' recs [_ Hk].
      by rewrite Hfirst in Hk.
    - intros r' Hr'. rewrite key_eq_sym. apply Hothers, elem_of_app. by left.
    - eapply Forall2_impl; [exact Hbefore|]. intros r' recs [_ Hk].
      by rewrite Hfirst in Hk. }
  rewrite merge_breaks_eq. simpl. rewrite Hrows, bind_app, bind_cons, !filter_app.
  rewrite !merged_rows_of_others
    by (intros r' Hr'; apply Hothers, elem_of_app; auto).
  rewrite app_nil_r. simpl.
  rewrite filter_key_all.
  - by rewrite merge_row_length, Hkept, Hlen.
  - intros o Ho. rewrite (merge_row_key _ _ _ Ho). apply key_eq_refl.
Qed.

Lemma rows_per_duty_in_break_report_witness :
  length (filter (fun o : row =>
                    key_eq (row_get o "Duty ID")
                      (row_get (duty_times_row (VStr "D1") "08:00" "17:00") "Duty ID")
                    = true)
            (rows (merge_breaks one_duty_report
                     [break_record (Obj (VStr "D1")) 20 "09:45" (VStr "Unknown");
                      break_record (Obj (VStr "D1")) 20 "09:45" (VStr "Unknown")]))) =
    Nat.max 1
      (length (qualifying_indices
                 (raw_join (row_get (duty_times_row (VStr "D1") "08:00" "17:00") "Duty ID")
                    day_with_two_breaks))) /\
  length (qualifying_indices
            (raw_join (Obj (VStr "D1")) day_with_two_breaks)) = 2%nat.
Proof.
  split; [|vm_compute; reflexivity].
  apply (rows_per_duty_in_break_report one_duty_report day_with_two_breaks []
           _ [] [] _ ["Start time"; "End time"]).
  - reflexivity.
  - reflexivity.
  - intros r' Hr'. by apply elem_of_nil in Hr'.
  - vm_compute. reflexivity.
Defined.
